(** * cb_api_client: the request/response pipeline of the Cleverbridge client

    A shallow embedding of the Go package [client] (the three client
    variants [CleverbridgeClient], [BaseClient] and [APIClient], the
    [Logger], and the record types they exchange) together with the parts
    of the Go standard library the package calls: [encoding/base64],
    [net/url] query encoding, [net/http] headers, [fmt] verbs [%s], [%d]
    and [%v], and [encoding/json] decoding.

    Go strings and byte slices are Rocq strings (sequences of 8-bit
    characters); Go maps are [gmap]s; effects (console and file output, the
    network) are threaded through an explicit [World]. *)

From Stdlib Require Import ZArith Ascii String List Lia Bool.
From Stdlib Require Import DecimalString.
From Stdlib Require Import SpecFloat.
From stdpp Require Import gmap strings list sorting.

Set Warnings "-register-all".

Local Open Scope Z_scope.

(** ** Bytes *)

Definition byte_val (a : ascii) : Z := Z.of_N (N_of_ascii a).
Definition byte_chr (z : Z) : ascii := ascii_of_N (Z.to_N z).

Definition dquote : ascii := "034"%char.
Definition backslash : ascii := "092"%char.

Definition in_range (lo hi : ascii) (c : ascii) : bool :=
  (byte_val lo <=? byte_val c) && (byte_val c <=? byte_val hi).

Definition is_digit (c : ascii) : bool := in_range "0" "9" c.
Definition is_upper (c : ascii) : bool := in_range "A" "Z" c.
Definition is_lower (c : ascii) : bool := in_range "a" "z" c.
Definition is_alnum (c : ascii) : bool := is_digit c || is_upper c || is_lower c.

Definition to_lower (c : ascii) : ascii :=
  if is_upper c then byte_chr (byte_val c + 32) else c.
Definition to_upper (c : ascii) : ascii :=
  if is_lower c then byte_chr (byte_val c - 32) else c.

Fixpoint string_forallb (p : ascii -> bool) (s : string) : bool :=
  match s with
  | EmptyString => true
  | String c r => p c && string_forallb p r
  end.

Fixpoint string_map (f : ascii -> ascii) (s : string) : string :=
  match s with
  | EmptyString => EmptyString
  | String c r => String (f c) (string_map f r)
  end.

(** The value of a run of decimal digits, continuing from [acc]. *)
Fixpoint digits_val (acc : Z) (s : list ascii) : Z :=
  match s with
  | [] => acc
  | c :: r => digits_val (acc * 10 + (byte_val c - 48)) r
  end.

(** The leading decimal digits of a text, and what follows them. *)
Fixpoint span_digits (s : list ascii) : list ascii * list ascii :=
  match s with
  | c :: r =>
      if is_digit c then
        let '(d, rest) := span_digits r in (c :: d, rest)
      else ([], s)
  | [] => ([], [])
  end.

(** [nth_char tbl i] is [tbl[i]] for an index inside the table. *)
Definition nth_char (tbl : string) (i : Z) : ascii :=
  match String.get (Z.to_nat i) tbl with
  | Some c => c
  | None => "000"%char
  end.

(** [strings.Contains(s, sub)]. *)
Definition Contains (s sub : string) : Prop :=
  exists pre post, s = pre +:+ sub +:+ post.

(** ** fmt: the verbs the package uses *)

(** [%d] of an [int]. *)
Definition fmt_d (n : Z) : string := NilZero.string_of_int (Z.to_int n).

(** ** encoding/base64: [StdEncoding.EncodeToString] *)

Module base64.

Definition encodeStd : string :=
  "ABCDEFGHIJKLMNOPQRSTUVWXYZabcdefghijklmnopqrstuvwxyz0123456789+/".

Definition StdPadding : ascii := "=".

Definition enc (v : Z) : ascii := nth_char encodeStd (Z.land v 63).

(** Three source bytes become four characters; a final group of one or
    two bytes is padded to four characters with [=]. *)
Fixpoint Encode (src : list Z) : string :=
  match src with
  | a :: b :: c :: rest =>
      let val := Z.lor (Z.lor (Z.shiftl a 16) (Z.shiftl b 8)) c in
      String (enc (Z.shiftr val 18)) (String (enc (Z.shiftr val 12))
        (String (enc (Z.shiftr val 6)) (String (enc val) (Encode rest))))
  | [a; b] =>
      let val := Z.lor (Z.shiftl a 16) (Z.shiftl b 8) in
      String (enc (Z.shiftr val 18)) (String (enc (Z.shiftr val 12))
        (String (enc (Z.shiftr val 6)) (String StdPadding EmptyString)))
  | [a] =>
      let val := Z.shiftl a 16 in
      String (enc (Z.shiftr val 18)) (String (enc (Z.shiftr val 12))
        (String StdPadding (String StdPadding EmptyString)))
  | [] => EmptyString
  end.

Definition EncodeToString (src : string) : string :=
  Encode (map byte_val (list_ascii_of_string src)).

End base64.

(** ** net/url: query escaping and [Values] *)

Module url.

Definition upperhex : string := "0123456789ABCDEF".

(** [shouldEscape(c, encodeQueryComponent)]: only the unreserved
    characters of RFC 3986 pass unescaped. *)
Definition shouldEscape (c : ascii) : bool :=
  negb (is_alnum c
        || Ascii.eqb c "-" || Ascii.eqb c "_" || Ascii.eqb c "."
        || Ascii.eqb c "~").

Definition escape_byte (c : ascii) : string :=
  if Ascii.eqb c " " then "+"
  else if shouldEscape c then
    String "%" (String (nth_char upperhex (Z.shiftr (byte_val c) 4))
               (String (nth_char upperhex (Z.land (byte_val c) 15)) EmptyString))
  else String c EmptyString.

Fixpoint QueryEscape (s : string) : string :=
  match s with
  | EmptyString => EmptyString
  | String c r => escape_byte c +:+ QueryEscape r
  end.

(** [type Values map[string][]string]. *)
Abbreviation Values := (gmap string (list string)).

(** [v.Add(key, value)]: [v[key] = append(v[key], value)]. *)
Definition Add (v : Values) (key value : string) : Values :=
  <[key := default [] (v !! key) ++ [value]]> v.

(** Insertion of a key into a list of keys sorted by byte order
    ([slices.Sort] on strings). *)
Fixpoint insert_sorted (k : string) (l : list string) : list string :=
  match l with
  | [] => [k]
  | k' :: r => if String.leb k k' then k :: l else k' :: insert_sorted k r
  end.

Definition sort_keys (l : list string) : list string :=
  foldr insert_sorted [] l.

(** The [key=value] pairs of one key, each prefixed by [&] unless the
    buffer is still empty. *)
Fixpoint encode_key (buf : string) (keyEscaped : string) (vs : list string)
  : string :=
  match vs with
  | [] => buf
  | v :: r =>
      let buf := if String.eqb buf "" then buf else buf +:+ "&" in
      encode_key (buf +:+ keyEscaped +:+ "=" +:+ QueryEscape v) keyEscaped r
  end.

(** [v.Encode()]: keys in sorted order. *)
Definition Encode (v : Values) : string :=
  fold_left
    (fun buf k => encode_key buf (QueryEscape k) (default [] (v !! k)))
    (sort_keys (map fst (map_to_list v))) "".

End url.


(** ** Errors

    A Go [error] value; [nil] is [None] of [option error]. *)

Inductive error : Type :=
| errorString (s : string)
    (* errors.New, fmt.Errorf without %w *)
| wrapError (msg : string) (err : error)
    (* fmt.Errorf with %w: the formatted message and the wrapped cause *)
| SyntaxError (msg : string)
    (* *json.SyntaxError *)
| UnmarshalTypeError (Value : string) (Type_ : string) (Field : string)
    (* *json.UnmarshalTypeError; Field is Struct.field or empty *)
| TimeError (msg : string)
    (* the error of Time.UnmarshalJSON *)
| externalError (msg : string).
    (* an error produced by the operating system or the network *)

(** [err.Error()]. *)
Definition Error_ (e : error) : string :=
  match e with
  | errorString s => s
  | wrapError msg _ => msg
  | SyntaxError msg => msg
  | UnmarshalTypeError v t f =>
      if String.eqb f "" then
        "json: cannot unmarshal " +:+ v +:+ " into Go value of type " +:+ t
      else
        "json: cannot unmarshal " +:+ v +:+ " into Go struct field " +:+ f
          +:+ " of type " +:+ t
  | TimeError msg => msg
  | externalError msg => msg
  end.

(** [errors.Unwrap(err)]. *)
Definition Unwrap (e : error) : option error :=
  match e with
  | wrapError _ err => Some err
  | _ => None
  end.

(** [fmt.Errorf(prefix + "%w", err)]. *)
Definition Errorf_w (prefix : string) (err : error) : error :=
  wrapError (prefix +:+ Error_ err) err.

(** ** fmt: [%v] of the values handed to the logger *)

Inductive basic : Type :=
| BString (s : string)
| BInt (n : Z).

(** An [interface{}] argument of a logging call. *)
Inductive any : Type :=
| AString (s : string)
| AInt (n : Z)
| AMap (m : list (string * basic)).   (* a map[string]interface{} literal *)

Definition fmt_v_basic (b : basic) : string :=
  match b with
  | BString s => s
  | BInt n => fmt_d n
  end.

Fixpoint join (sep : string) (l : list string) : string :=
  match l with
  | [] => ""
  | [x] => x
  | x :: r => x +:+ sep +:+ join sep r
  end.

(** A map prints as [map[k1:v1 k2:v2]] with its keys sorted. *)
Definition fmt_v_map (m : list (string * basic)) : string :=
  let entry k :=
    k +:+ ":" +:+
      match list_find (fun kv => String.eqb (fst kv) k) m with
      | Some (_, (_, b)) => fmt_v_basic b
      | None => ""
      end in
  "map[" +:+ join " " (map entry (url.sort_keys (map fst m))) +:+ "]".

Definition fmt_v (a : any) : string :=
  match a with
  | AString s => s
  | AInt n => fmt_d n
  | AMap m => fmt_v_map m
  end.

(** [%v] of a [[]interface{}]. *)
Definition fmt_v_slice (fields : list any) : string :=
  "[" +:+ join " " (map fmt_v fields) +:+ "]".

(** ** net/http: headers, requests, responses *)

Module http.

(** A byte allowed in a header field name ([httpguts] token table). *)
Definition validHeaderFieldByte (c : ascii) : bool :=
  is_alnum c
  || existsb (Ascii.eqb c)
       (list_ascii_of_string "!#$%&'*+-.^_`|~").

Fixpoint canonical (upper : bool) (s : string) : string :=
  match s with
  | EmptyString => EmptyString
  | String c r =>
      let c' := if upper then to_upper c else to_lower c in
      String c' (canonical (Ascii.eqb c' "-") r)
  end.

(** [textproto.CanonicalMIMEHeaderKey]: the first letter and every letter
    after a hyphen in upper case, the others in lower case; a key with a
    byte that is not allowed in a field name is returned unchanged. *)
Definition CanonicalHeaderKey (s : string) : string :=
  if string_forallb validHeaderFieldByte s then canonical true s else s.

(** [type Header map[string][]string]. *)
Abbreviation Header := (gmap string (list string)).

(** [h.Set(key, value)] replaces whatever values the key had. *)
Definition Set_ (h : Header) (key value : string) : Header :=
  <[CanonicalHeaderKey key := [value]]> h.

(** [h.Values(key)]. *)
Definition Values (h : Header) (key : string) : list string :=
  default [] (h !! CanonicalHeaderKey key).

(** The caller's [context.Context], as far as the transport looks at it. *)
Inductive Context : Type :=
| Background
| Canceled
| WithDeadline (millis : Z).

(** [*http.Request] as built by [NewRequestWithContext]. *)
Record Request : Type := mkRequest {
  Method : string;
  URL : string;
  ReqHeader : Header;
  ReqBody : option string;
  Ctx : Context
}.

(** [resp.Body]: the bytes the peer sends and whether draining them ends
    in a read error. *)
Record ReadCloser : Type := mkBody {
  content : string;
  read_err : option error
}.

(** [*http.Response]. *)
Record Response : Type := mkHTTPResponse {
  Status : string;        (* e.g. "404 Not Found" *)
  StatusCode : Z;
  RespHeader : Header;
  Body : ReadCloser
}.

(** [req.SetBasicAuth(username, password)]. *)
Definition SetBasicAuth (r : Request) (username password : string) : Request :=
  mkRequest (Method r) (URL r)
    (Set_ (ReqHeader r) "Authorization"
       ("Basic " +:+ base64.EncodeToString (username +:+ ":" +:+ password)))
    (ReqBody r) (Ctx r).

Definition SetHeader (r : Request) (key value : string) : Request :=
  mkRequest (Method r) (URL r) (Set_ (ReqHeader r) key value)
    (ReqBody r) (Ctx r).

(** [validMethod]: a non-empty token. *)
Definition validMethod (m : string) : bool :=
  negb (String.eqb m "") && string_forallb validHeaderFieldByte m.

End http.

(** [io.ReadAll(r)]. *)
Definition io_ReadAll (r : http.ReadCloser) : string * option error :=
  (http.content r, http.read_err r).

(** ** time: the part of [time.Time] the package sees *)

Module time.

(** An instant (seconds and nanoseconds since the Unix epoch) and the
    offset east of UTC, in seconds, of the zone it is shown in. *)
Record Time : Type := mkTime {
  unixSec : Z;
  nsec : Z;
  zoneOffset : Z
}.

(** The zero [Time]: January 1, year 1, 00:00:00 UTC. *)
Definition zero : Time := mkTime (-62135596800) 0 0.

Definition isLeap (year : Z) : bool :=
  (year mod 4 =? 0) && (negb (year mod 100 =? 0) || (year mod 400 =? 0)).

Definition daysIn (month year : Z) : Z :=
  if month =? 2 then (if isLeap year then 29 else 28)
  else if (month =? 4) || (month =? 6) || (month =? 9) || (month =? 11) then 30
  else 31.

(** Days from 1970-01-01 to the given day of the proleptic Gregorian
    calendar. *)
Definition days_from_civil (y m d : Z) : Z :=
  let y' := if m <=? 2 then y - 1 else y in
  let era := y' / 400 in
  let yoe := y' - era * 400 in
  let doy := (153 * (if 2 <? m then m - 3 else m + 9) + 2) / 5 + d - 1 in
  let doe := yoe * 365 + yoe / 4 - yoe / 100 + doy in
  era * 146097 + doe - 719468.

(** [parseUint] of [parseRFC3339]: decimal digits within a range. *)
Definition parseUint (s : list ascii) (min max : Z) : option Z :=
  if forallb is_digit s then
    let x := digits_val 0 s in
    if (min <=? x) && (x <=? max) then Some x else None
  else None.

(** [parseNanoseconds]: at most nine digits count, scaled to
    nanoseconds. *)
Definition parseNanoseconds (digits : list ascii) : Z :=
  let d := firstn 9 digits in
  digits_val 0 d * 10 ^ (9 - Z.of_nat (length d)).

(** The zone suffix: [Z], or a sign and [hh:mm]. *)
Definition parseZone (s : list ascii) : option Z :=
  match s with
  | [z] => if Ascii.eqb z "Z" then Some 0 else None
  | [sg; h1; h2; c; m1; m2] =>
      match parseUint [h1; h2] 0 23, parseUint [m1; m2] 0 59 with
      | Some hr, Some mm =>
          if negb (Ascii.eqb c ":") then None
          else if Ascii.eqb sg "-" then Some (- ((hr * 60 + mm) * 60))
          else if Ascii.eqb sg "+" then Some ((hr * 60 + mm) * 60)
          else None
      | _, _ => None
      end
  | _ => None
  end.

(** [parseRFC3339]: the strict reading of [2006-01-02T15:04:05.999Z07:00]
    that every Go release accepts. *)
Definition parseRFC3339 (s : string) : option Time :=
  match list_ascii_of_string s with
  | y1 :: y2 :: y3 :: y4 :: a :: m1 :: m2 :: b :: d1 :: d2 :: t
      :: h1 :: h2 :: c :: n1 :: n2 :: d :: s1 :: s2 :: rest =>
      match parseUint [y1; y2; y3; y4] 0 9999, parseUint [m1; m2] 1 12 with
      | Some year, Some month =>
          match parseUint [d1; d2] 1 (daysIn month year),
                parseUint [h1; h2] 0 23, parseUint [n1; n2] 0 59,
                parseUint [s1; s2] 0 59 with
          | Some day, Some hour, Some min, Some sec =>
              if Ascii.eqb a "-" && Ascii.eqb b "-" && Ascii.eqb t "T"
                 && Ascii.eqb c ":" && Ascii.eqb d ":" then
                let '(ns, rest) :=
                  match rest with
                  | p :: x :: r =>
                      if Ascii.eqb p "." && is_digit x then
                        let '(digits, r') := span_digits (x :: r) in
                        (parseNanoseconds digits, r')
                      else (0, rest)
                  | _ => (0, rest)
                  end in
                match parseZone rest with
                | Some zone =>
                    Some (mkTime (days_from_civil year month day * 86400
                                  + hour * 3600 + min * 60 + sec - zone)
                            ns zone)
                | None => None
                end
              else None
          | _, _, _, _ => None
          end
      | _, _ => None
      end
  | _ => None
  end.

(** The date of a day counted from 1970-01-01, as year, month and day:
    the inverse of [days_from_civil]. *)
Definition civil_from_days (z : Z) : Z * Z * Z :=
  let z := z + 719468 in
  let era := z / 146097 in
  let doe := z - era * 146097 in
  let yoe := (doe - doe / 1460 + doe / 36524 - doe / 146096) / 365 in
  let doy := doe - (365 * yoe + yoe / 4 - yoe / 100) in
  let mp := (5 * doy + 2) / 153 in
  let d := doy - (153 * mp + 2) / 5 + 1 in
  let m := if mp <? 10 then mp + 3 else mp - 9 in
  (yoe + era * 400 + (if m <=? 2 then 1 else 0), m, d).

(** [appendInt(b, x, width)]: at least [width] digits, a sign first. *)
Definition appendInt (x : Z) (width : nat) : string :=
  let digits := fmt_d (Z.abs x) in
  (if x <? 0 then "-" else "")
  +:+ string_of_list_ascii
        (repeat "0"%char (width - String.length digits))
  +:+ digits.

Fixpoint trim_zeros (ns : Z) (width fuel : nat) : Z * nat :=
  match fuel with
  | O => (ns, width)
  | S fuel =>
      if ns mod 10 =? 0 then trim_zeros (ns / 10) (width - 1) fuel
      else (ns, width)
  end.

(** [appendNano] for the layout [.999999999]: the fraction without its
    trailing zeros, nothing when it is zero. *)
Definition appendNano (ns : Z) : string :=
  if ns =? 0 then ""
  else let '(n, w) := trim_zeros ns 9 9 in "." +:+ appendInt n w.

(** [t.appendFormatRFC3339(b, true)]: the layout
    [2006-01-02T15:04:05.999999999Z07:00] in the zone of [t]. *)
Definition appendFormatRFC3339 (t : Time) : string :=
  let abs := unixSec t + zoneOffset t in
  let '(year, month, day) := civil_from_days (abs / 86400) in
  let secs := abs mod 86400 in
  let zone := Z.quot (zoneOffset t) 60 in
  appendInt year 4 +:+ "-" +:+ appendInt month 2 +:+ "-" +:+ appendInt day 2
  +:+ "T" +:+ appendInt (secs / 3600) 2 +:+ ":"
  +:+ appendInt (secs mod 3600 / 60) 2 +:+ ":" +:+ appendInt (secs mod 60) 2
  +:+ appendNano (nsec t)
  +:+ (if zoneOffset t =? 0 then "Z"
       else (if zone <? 0 then "-" else "+")
            +:+ appendInt (Z.abs zone / 60) 2 +:+ ":"
            +:+ appendInt (Z.abs zone mod 60) 2).

(** [t.appendStrictRFC3339]: the text, unless the year does not take
    exactly four digits or the hour of the zone is not below 24. *)
Definition appendStrictRFC3339 (t : Time) : string + string :=
  let b := appendFormatRFC3339 t in
  let c := list_ascii_of_string b in
  if negb (Ascii.eqb (nth 4 c " "%char) "-") then
    inr "year outside of range [0,9999]"
  else if negb (Ascii.eqb (List.last c " "%char) "Z")
          && (is_digit (nth (length c - 6) c " "%char)
              || (24 <=? digits_val 0 (firstn 2 (skipn (length c - 5) c))))
  then inr "timezone hour outside of range [0,23]"
  else inl b.

(** [t.MarshalJSON()]: the text in quotes. *)
Definition MarshalJSON (t : Time) : string + string :=
  match appendStrictRFC3339 t with
  | inl b => inl (String dquote b +:+ String dquote EmptyString)
  | inr msg => inr ("Time.MarshalJSON: " +:+ msg)
  end.

End time.

(** ** The world the package acts on *)

(** [*os.File]: a descriptor and the name it was opened under. *)
Record File : Type := mkFile { fd : nat; fname : string }.

(** [io.Writer] as the logger holds it. *)
Inductive Writer : Type :=
| Stdout
| FileWriter (f : File).

(** What the operating system keeps for a descriptor. *)
Record FileState : Type := mkFileState {
  is_open : bool;
  written : list string
}.

Record World : Type := mkWorld {
  writes : list (Writer * string);    (* every Write issued, oldest first *)
  stdout : list string;               (* what os.Stdout received *)
  stderr : list string;               (* what os.Stderr received *)
  files : gmap nat FileState;         (* descriptors handed out so far *)
  sent : list http.Request            (* requests given to the transport *)
}.

Definition empty_world : World := mkWorld [] [] [] ∅ [].

(** What the package cannot decide itself: the file system, the clock, the
    verdicts of the URL parser and of the RFC 3339 time parser (whose
    leniencies differ between Go releases), and the peer's answers. *)
Record Env : Type := mkEnv {
  os_OpenFile : string -> option error;       (* [None]: the file opens *)
  log_stamp : string;                         (* date and time prefix of [log] *)
  url_Parse : string -> option error;         (* [None]: the URL parses *)
  time_Parse : string -> time.Time + error;   (* [time.Parse(RFC3339, s)] *)
  client_Do : list http.Request -> http.Request -> http.Response + error;
  time_Since : http.Request -> string         (* [Duration.String()] *)
}.

(** A computation either returns or panics ([None]); the world it leaves
    behind is kept either way. *)
Definition M (A : Type) : Type := World -> option A * World.

Global Instance M_ret : MRet M := fun A a w => (Some a, w).
Global Instance M_bind : MBind M := fun A B k m w =>
  match m w with
  | (Some a, w') => k a w'
  | (None, w') => (None, w')
  end.

Definition panic {A} : M A := fun w => (None, w).
Definition modify (f : World -> World) : M unit := fun w => (Some tt, f w).
Definition gets {A} (f : World -> A) : M A := fun w => (Some (f w), w).
Definition ret {A} (a : A) : M A := mret a.

Definition when (b : bool) (m : M unit) : M unit := if b then m else ret tt.

(** What a sink holds after it is handed [p]: a closed file refuses the
    write and keeps nothing. *)
Definition deliver (w : Writer) (p : string) (σ : World) : World :=
  match w with
  | Stdout => mkWorld (writes σ) (stdout σ ++ [p]) (stderr σ) (files σ) (sent σ)
  | FileWriter f =>
      match files σ !! fd f with
      | Some st =>
          if is_open st then
            mkWorld (writes σ) (stdout σ) (stderr σ)
              (<[fd f := mkFileState true (written st ++ [p])]> (files σ))
              (sent σ)
          else σ
      | None => σ
      end
  end.

(** [w.Write(p)]; the package never looks at the error of a write. *)
Definition write (w : Writer) (p : string) : M unit :=
  modify (fun σ =>
    deliver w p
      (mkWorld (writes σ ++ [(w, p)]) (stdout σ) (stderr σ) (files σ) (sent σ))).

(** [fmt.Fprintln(w, msg)]. *)
Definition Fprintln (w : Writer) (msg : string) : M unit :=
  write w (msg +:+ String "010" EmptyString).

(** [log.Printf]: one line on standard error behind the logger's prefix. *)
Definition log_Printf (env : Env) (msg : string) : M unit :=
  modify (fun σ =>
    mkWorld (writes σ) (stdout σ)
      (stderr σ ++ [log_stamp env +:+ " " +:+ msg +:+ String "010" EmptyString])
      (files σ) (sent σ)).

(** [os.OpenFile(name, O_CREATE|O_WRONLY|O_APPEND, 0666)]. *)
Definition OpenFile (env : Env) (name : string) : M (File + error) :=
  match os_OpenFile env name with
  | Some err => ret (inr err)
  | None =>
      fun σ =>
        let n := fresh (dom (files σ)) in
        (Some (inl (mkFile n name)),
         mkWorld (writes σ) (stdout σ) (stderr σ)
           (<[n := mkFileState true []]> (files σ)) (sent σ))
  end.

(** [f.Close()]: an error if the file is already closed. *)
Definition File_Close (f : File) : M (option error) :=
  fun σ =>
    match files σ !! fd f with
    | Some st =>
        if is_open st then
          (Some None,
           mkWorld (writes σ) (stdout σ) (stderr σ)
             (<[fd f := mkFileState false (written st)]> (files σ)) (sent σ))
        else
          (Some (Some (externalError
                   ("close " +:+ fname f +:+ ": file already closed"))), σ)
    | None => (Some (Some (externalError "invalid argument")), σ)
    end.

(** ** The logger (part_002) *)

Record Logger : Type := mkLogger {
  debug : bool;
  logFile : option File;
  writer : Writer
}.

Definition NewLogger (env : Env) (debug : bool) (logFile : string) : M Logger :=
  if negb (String.eqb logFile "") then
    r ← OpenFile env logFile;
    match r with
    | inr err =>
        log_Printf env ("Failed to open log file " +:+ logFile +:+ ": "
                        +:+ Error_ err +:+ ", using stdout");;
        ret (mkLogger debug None Stdout)
    | inl file => ret (mkLogger debug (Some file) (FileWriter file))
    end
  else ret (mkLogger debug None Stdout).

Module Logger_.

Definition Close (l : Logger) : M (option error) :=
  match logFile l with
  | Some f => File_Close f
  | None => ret None
  end.

Definition with_fields (msg : string) (fields : list any) : string :=
  if (0 <? Z.of_nat (length fields)) then msg +:+ " " +:+ fmt_v_slice fields
  else msg.

Definition Info (l : Logger) (message : string) (fields : list any) : M unit :=
  if debug l then
    let msg := "INFO: " +:+ message in
    Fprintln (writer l) (with_fields msg fields)
  else ret tt.

Definition Warn (l : Logger) (message : string) (fields : list any) : M unit :=
  let msg := "WARN: " +:+ message in
  Fprintln (writer l) (with_fields msg fields).

Definition Error (l : Logger) (message : string) (err : option error)
    (fields : list any) : M unit :=
  let msg := "ERROR: " +:+ message in
  let msg := match err with
             | Some e => msg +:+ " - " +:+ Error_ e
             | None => msg
             end in
  Fprintln (writer l) (with_fields msg fields).

End Logger_.

(** ** encoding/json: the scanner

    [json.Unmarshal] first runs the scanner over the whole input
    ([checkValid]) and then walks the same bytes again to store values.
    The scanner is a pushdown automaton fed one byte at a time; here it
    also collects the value it has read, with string and number literals
    kept as written (the decoder interprets them per destination type). *)

Module json.

Inductive Value : Type :=
| Null
| Bool (b : bool)
| Number (lit : string)                       (* the literal as written *)
| String_ (raw : string)                      (* the text between the quotes *)
| Array (elems : list Value)
| Object (members : list (string * Value)).   (* keys as written, in order *)

(** An entry of [scanner.parseState] with what has been read so far
    (latest first). *)
Inductive Frame : Type :=
| parseObjectKey (done : list (string * Value)) (key : option string)
| parseObjectValue (done : list (string * Value)) (key : option string)
| parseArrayValue (done : list Value).

(** [scanner.step]. Literal accumulators hold the bytes read so far,
    latest first. *)
Inductive Step : Type :=
| stateBeginValueOrEmpty
| stateBeginValue
| stateBeginStringOrEmpty
| stateBeginString
| stateEndValue
| stateInString (acc : list ascii)
| stateInStringEsc (acc : list ascii)
| stateInStringEscU (seen : nat) (acc : list ascii)
| stateNeg (acc : list ascii)
| state1 (acc : list ascii)
| state0 (acc : list ascii)
| stateDot (acc : list ascii)
| stateDot0 (acc : list ascii)
| stateE (acc : list ascii)
| stateESign (acc : list ascii)
| stateE0 (acc : list ascii)
| stateLit (v : Value) (name : string) (rest : string).

Record scanner : Type := mkScanner {
  step : Step;
  parseState : list Frame;
  top : option Value          (* the finished top-level value: [endTop] *)
}.

Definition maxNestingDepth : Z := 10000.

Definition isSpace (c : ascii) : bool :=
  Ascii.eqb c " " || Ascii.eqb c "009" || Ascii.eqb c "013" || Ascii.eqb c "010".

Definition is_hex (c : ascii) : bool :=
  is_digit c || in_range "a" "f" c || in_range "A" "F" c.

Definition lowerhex : string := "0123456789abcdef".

Definition hex2 (c : ascii) : string :=
  String (nth_char lowerhex (Z.shiftr (byte_val c) 4))
    (String (nth_char lowerhex (Z.land (byte_val c) 15)) EmptyString).

(** [quoteChar]: the offending byte as the error message shows it. *)
Definition quoteChar (c : ascii) : string :=
  let v := byte_val c in
  let q := String "'" EmptyString in
  if Ascii.eqb c "'" then q +:+ String backslash q +:+ q
  else if Ascii.eqb c dquote then q +:+ String dquote q
  else if Ascii.eqb c backslash then
    q +:+ String backslash (String backslash q)
  else if Ascii.eqb c "010" then q +:+ String backslash "n" +:+ q
  else if Ascii.eqb c "013" then q +:+ String backslash "r" +:+ q
  else if Ascii.eqb c "009" then q +:+ String backslash "t" +:+ q
  else if Ascii.eqb c "007" then q +:+ String backslash "a" +:+ q
  else if Ascii.eqb c "008" then q +:+ String backslash "b" +:+ q
  else if Ascii.eqb c "012" then q +:+ String backslash "f" +:+ q
  else if Ascii.eqb c "011" then q +:+ String backslash "v" +:+ q
  else if (v <? 32) || (v =? 127) then
    q +:+ String backslash "x" +:+ hex2 c +:+ q
  else if v <? 128 then q +:+ String c q
  else if (v <? 161) || (v =? 173) then
    q +:+ String backslash "u00" +:+ hex2 c +:+ q
  else
    (* the rune U+00XX in UTF-8 *)
    q +:+ String (byte_chr (Z.lor 192 (Z.shiftr v 6)))
            (String (byte_chr (Z.lor 128 (Z.land v 63))) q).

Definition scan_error (c : ascii) (context : string) : error :=
  SyntaxError ("invalid character " +:+ quoteChar c +:+ " " +:+ context).

Definition lit_of (acc : list ascii) : string :=
  string_of_list_ascii (rev acc).

(** A value is complete: hand it to the enclosing frame. *)
Definition complete (v : Value) (ps : list Frame) : scanner :=
  match ps with
  | [] => mkScanner stateEndValue [] (Some v)
  | parseObjectKey done _ :: r =>
      match v with
      | String_ raw =>
          mkScanner stateEndValue (parseObjectKey done (Some raw) :: r) None
      | _ => mkScanner stateEndValue ps None
      end
  | parseObjectValue done (Some k) :: r =>
      mkScanner stateEndValue (parseObjectValue ((k, v) :: done) None :: r) None
  | parseObjectValue done None :: r =>
      mkScanner stateEndValue ps None
  | parseArrayValue done :: r =>
      mkScanner stateEndValue (parseArrayValue (v :: done) :: r) None
  end.

(** [pushParseState]. *)
Definition push (c : ascii) (f : Frame) (next : Step) (ps : list Frame)
  : scanner + error :=
  if Z.of_nat (length (f :: ps)) <=? maxNestingDepth
  then inl (mkScanner next (f :: ps) None)
  else inr (scan_error c "exceeded max depth").

Definition do_stateEndValue (s : scanner) (c : ascii) : scanner + error :=
  match parseState s with
  | [] =>
      (* stateEndTop *)
      if isSpace c then inl s
      else inr (scan_error c "after top-level value")
  | f :: r =>
      if isSpace c then inl (mkScanner stateEndValue (f :: r) None)
      else
        match f with
        | parseObjectKey done key =>
            if Ascii.eqb c ":" then
              inl (mkScanner stateBeginValue (parseObjectValue done key :: r) None)
            else inr (scan_error c "after object key")
        | parseObjectValue done _ =>
            if Ascii.eqb c "," then
              inl (mkScanner stateBeginString (parseObjectKey done None :: r) None)
            else if Ascii.eqb c "}" then
              inl (complete (Object (rev done)) r)
            else inr (scan_error c "after object key:value pair")
        | parseArrayValue done =>
            if Ascii.eqb c "," then
              inl (mkScanner stateBeginValue (f :: r) None)
            else if Ascii.eqb c "]" then
              inl (complete (Array (rev done)) r)
            else inr (scan_error c "after array element")
        end
  end.

(** A number literal ends at the first byte that cannot continue it; that
    byte is then read in [stateEndValue]. *)
Definition end_number (acc : list ascii) (ps : list Frame) (c : ascii)
  : scanner + error :=
  do_stateEndValue (complete (Number (lit_of acc)) ps) c.

Definition do_state0 (acc : list ascii) (ps : list Frame) (c : ascii)
  : scanner + error :=
  if Ascii.eqb c "." then inl (mkScanner (stateDot (c :: acc)) ps None)
  else if Ascii.eqb c "e" || Ascii.eqb c "E" then
    inl (mkScanner (stateE (c :: acc)) ps None)
  else end_number acc ps c.

Definition do_stateESign (acc : list ascii) (ps : list Frame) (c : ascii)
  : scanner + error :=
  if is_digit c then inl (mkScanner (stateE0 (c :: acc)) ps None)
  else inr (scan_error c "in exponent of numeric literal").

Definition do_stateBeginString (ps : list Frame) (c : ascii)
  : scanner + error :=
  if isSpace c then inl (mkScanner stateBeginString ps None)
  else if Ascii.eqb c dquote then inl (mkScanner (stateInString []) ps None)
  else inr (scan_error c "looking for beginning of object key string").

Definition do_stateBeginValue (ps : list Frame) (c : ascii)
  : scanner + error :=
  if isSpace c then inl (mkScanner stateBeginValue ps None)
  else if Ascii.eqb c "{" then
    push c (parseObjectKey [] None) stateBeginStringOrEmpty ps
  else if Ascii.eqb c "[" then
    push c (parseArrayValue []) stateBeginValueOrEmpty ps
  else if Ascii.eqb c dquote then inl (mkScanner (stateInString []) ps None)
  else if Ascii.eqb c "-" then inl (mkScanner (stateNeg [c]) ps None)
  else if Ascii.eqb c "0" then inl (mkScanner (state0 [c]) ps None)
  else if Ascii.eqb c "t" then
    inl (mkScanner (stateLit (Bool true) "true" "rue") ps None)
  else if Ascii.eqb c "f" then
    inl (mkScanner (stateLit (Bool false) "false" "alse") ps None)
  else if Ascii.eqb c "n" then
    inl (mkScanner (stateLit Null "null" "ull") ps None)
  else if in_range "1" "9" c then inl (mkScanner (state1 [c]) ps None)
  else inr (scan_error c "looking for beginning of value").

(** [s.step(s, c)]. *)
Definition do_step (s : scanner) (c : ascii) : scanner + error :=
  let ps := parseState s in
  match step s with
  | stateBeginValueOrEmpty =>
      if isSpace c then inl s
      else if Ascii.eqb c "]" then do_stateEndValue s c
      else do_stateBeginValue ps c
  | stateBeginValue => do_stateBeginValue ps c
  | stateBeginStringOrEmpty =>
      if isSpace c then inl s
      else if Ascii.eqb c "}" then
        match ps with
        | parseObjectKey done key :: r =>
            do_stateEndValue
              (mkScanner stateEndValue (parseObjectValue done key :: r) None) c
        | _ => do_stateEndValue s c
        end
      else do_stateBeginString ps c
  | stateBeginString => do_stateBeginString ps c
  | stateEndValue => do_stateEndValue s c
  | stateInString acc =>
      if Ascii.eqb c dquote then inl (complete (String_ (lit_of acc)) ps)
      else if Ascii.eqb c backslash then
        inl (mkScanner (stateInStringEsc (c :: acc)) ps None)
      else if byte_val c <? 32 then inr (scan_error c "in string literal")
      else inl (mkScanner (stateInString (c :: acc)) ps None)
  | stateInStringEsc acc =>
      if existsb (Ascii.eqb c)
           [ "b"; "f"; "n"; "r"; "t"; backslash; "/"; dquote ]%char
      then inl (mkScanner (stateInString (c :: acc)) ps None)
      else if Ascii.eqb c "u" then
        inl (mkScanner (stateInStringEscU 0 (c :: acc)) ps None)
      else inr (scan_error c "in string escape code")
  | stateInStringEscU seen acc =>
      if is_hex c then
        if (seen =? 3)%nat then inl (mkScanner (stateInString (c :: acc)) ps None)
        else inl (mkScanner (stateInStringEscU (S seen) (c :: acc)) ps None)
      else inr (scan_error c ("in " +:+ String backslash
                                "u hexadecimal character escape"))
  | stateNeg acc =>
      if Ascii.eqb c "0" then inl (mkScanner (state0 (c :: acc)) ps None)
      else if in_range "1" "9" c then inl (mkScanner (state1 (c :: acc)) ps None)
      else inr (scan_error c "in numeric literal")
  | state1 acc =>
      if is_digit c then inl (mkScanner (state1 (c :: acc)) ps None)
      else do_state0 acc ps c
  | state0 acc => do_state0 acc ps c
  | stateDot acc =>
      if is_digit c then inl (mkScanner (stateDot0 (c :: acc)) ps None)
      else inr (scan_error c "after decimal point in numeric literal")
  | stateDot0 acc =>
      if is_digit c then inl (mkScanner (stateDot0 (c :: acc)) ps None)
      else if Ascii.eqb c "e" || Ascii.eqb c "E" then
        inl (mkScanner (stateE (c :: acc)) ps None)
      else end_number acc ps c
  | stateE acc =>
      if Ascii.eqb c "+" || Ascii.eqb c "-" then
        inl (mkScanner (stateESign (c :: acc)) ps None)
      else do_stateESign acc ps c
  | stateESign acc => do_stateESign acc ps c
  | stateE0 acc =>
      if is_digit c then inl (mkScanner (stateE0 (c :: acc)) ps None)
      else end_number acc ps c
  | stateLit v name rest =>
      match rest with
      | String e EmptyString =>
          if Ascii.eqb c e then inl (complete v ps)
          else inr (scan_error c ("in literal " +:+ name +:+ " (expecting '"
                                  +:+ String e "')"))
      | String e rest' =>
          if Ascii.eqb c e then inl (mkScanner (stateLit v name rest') ps None)
          else inr (scan_error c ("in literal " +:+ name +:+ " (expecting '"
                                  +:+ String e "')"))
      | EmptyString => inl (complete v ps)
      end
  end.

Fixpoint run (s : scanner) (data : string) : scanner + error :=
  match data with
  | EmptyString => inl s
  | String c rest =>
      match do_step s c with
      | inl s' => run s' rest
      | inr e => inr e
      end
  end.

Definition endTop (s : scanner) : option Value :=
  match step s, parseState s with
  | stateEndValue, [] => top s
  | _, _ => None
  end.

(** [scan.eof()]: a pending number is closed by a final blank. *)
Definition eof (s : scanner) : Value + error :=
  match endTop s with
  | Some v => inl v
  | None =>
      match do_step s " " with
      | inl s' =>
          match endTop s' with
          | Some v => inl v
          | None => inr (SyntaxError "unexpected end of JSON input")
          end
      | inr _ => inr (SyntaxError "unexpected end of JSON input")
      end
  end.

(** [checkValid(data, scan)], returning the value that was read. *)
Definition checkValid (data : string) : Value + error :=
  match run (mkScanner stateBeginValue [] None) data with
  | inl s => eof s
  | inr e => inr e
  end.


(** *** unicode/utf8 and unicode/utf16 *)

Definition RuneError : Z := 65533.   (* U+FFFD *)
Definition MaxRune : Z := 1114111.   (* U+10FFFF *)

Definition is_cont (b : Z) : bool := (128 <=? b) && (b <=? 191).

(** [utf8.DecodeRune]: the rune at the head of the bytes and how many
    bytes it takes; a malformed sequence decodes to [(RuneError, 1)]. *)
Definition DecodeRune (p : list Z) : Z * nat :=
  match p with
  | [] => (RuneError, 0%nat)
  | p0 :: r =>
      if p0 <? 128 then (p0, 1%nat)
      else if (p0 <? 194) || (244 <? p0) then (RuneError, 1%nat)
      else
        let sz := if p0 <? 224 then 2 else if p0 <? 240 then 3 else 4 in
        let lo := if p0 =? 224 then 160 else if p0 =? 240 then 144 else 128 in
        let hi := if p0 =? 237 then 159 else if p0 =? 244 then 143 else 191 in
        match r with
        | [] => (RuneError, 1%nat)
        | b1 :: r1 =>
            if (b1 <? lo) || (hi <? b1) then (RuneError, 1%nat)
            else if sz =? 2 then
              (Z.lor (Z.shiftl (Z.land p0 31) 6) (Z.land b1 63), 2%nat)
            else
              match r1 with
              | [] => (RuneError, 1%nat)
              | b2 :: r2 =>
                  if negb (is_cont b2) then (RuneError, 1%nat)
                  else if sz =? 3 then
                    (Z.lor (Z.lor (Z.shiftl (Z.land p0 15) 12)
                                  (Z.shiftl (Z.land b1 63) 6))
                           (Z.land b2 63), 3%nat)
                  else
                    match r2 with
                    | [] => (RuneError, 1%nat)
                    | b3 :: _ =>
                        if negb (is_cont b3) then (RuneError, 1%nat)
                        else
                          (Z.lor (Z.lor (Z.lor (Z.shiftl (Z.land p0 7) 18)
                                               (Z.shiftl (Z.land b1 63) 12))
                                        (Z.shiftl (Z.land b2 63) 6))
                                 (Z.land b3 63), 4%nat)
                    end
              end
        end
  end.

(** [utf8.Valid]: every rune is well formed. [fuel] bounds the number
    of runes. *)
Fixpoint Valid_loop (fuel : nat) (p : list Z) : bool :=
  match p with
  | [] => true
  | b :: r =>
      match fuel with
      | O => false
      | S fuel =>
          if b <? 128 then Valid_loop fuel r
          else
            let '(_, size) := DecodeRune p in
            if (size =? 1)%nat then false else Valid_loop fuel (skipn size p)
      end
  end.

Definition is_surrogate (r : Z) : bool := (55296 <=? r) && (r <? 57344).

(** [utf8.AppendRune]. *)
Definition EncodeRune (r : Z) : list Z :=
  let r := if (r <? 0) || (MaxRune <? r) || is_surrogate r then RuneError
           else r in
  if r <=? 127 then [r]
  else if r <=? 2047 then
    [Z.lor 192 (Z.shiftr r 6); Z.lor 128 (Z.land r 63)]
  else if r <=? 65535 then
    [Z.lor 224 (Z.shiftr r 12); Z.lor 128 (Z.land (Z.shiftr r 6) 63);
     Z.lor 128 (Z.land r 63)]
  else
    [Z.lor 240 (Z.shiftr r 18); Z.lor 128 (Z.land (Z.shiftr r 12) 63);
     Z.lor 128 (Z.land (Z.shiftr r 6) 63); Z.lor 128 (Z.land r 63)].

(** [utf16.DecodeRune(r1, r2)]. *)
Definition utf16_DecodeRune (r1 r2 : Z) : Z :=
  if (55296 <=? r1) && (r1 <? 56320) && (56320 <=? r2) && (r2 <? 57344)
  then Z.lor (Z.shiftl (r1 - 55296) 10) (r2 - 56320) + 65536
  else RuneError.

Definition bytes_of (s : string) : list Z :=
  map byte_val (list_ascii_of_string s).
Definition string_of (l : list Z) : string :=
  string_of_list_ascii (map byte_chr l).

(** [utf8.ValidString]. *)
Definition ValidString (s : string) : bool :=
  Valid_loop (String.length s) (bytes_of s).

Definition hexval (c : ascii) : option Z :=
  if is_digit c then Some (byte_val c - 48)
  else if in_range "a" "f" c then Some (byte_val c - 97 + 10)
  else if in_range "A" "F" c then Some (byte_val c - 65 + 10)
  else None.

(** [getu4]: the four hex digits after a backslash and [u]; -1 if the
    text is not such an escape. *)
Definition getu4 (s : list ascii) : Z :=
  match s with
  | b :: u :: h1 :: h2 :: h3 :: h4 :: _ =>
      if Ascii.eqb b backslash && Ascii.eqb u "u" then
        match hexval h1, hexval h2, hexval h3, hexval h4 with
        | Some a, Some b, Some c, Some d => ((a * 16 + b) * 16 + c) * 16 + d
        | _, _, _, _ => -1
        end
      else -1
  | _ => -1
  end.

(** [unquoteBytes] on the text between the quotes: escapes are resolved
    and malformed UTF-8 is replaced by U+FFFD. [None] is the [ok = false]
    result. [fuel] bounds the number of steps; every step consumes input. *)
Fixpoint unquote_loop (fuel : nat) (s : list ascii) : option (list Z) :=
  match fuel with
  | O => match s with [] => Some [] | _ => None end
  | S fuel =>
      match s with
      | [] => Some []
      | c :: r =>
          if Ascii.eqb c backslash then
            match r with
            | [] => None
            | e :: r2 =>
                if Ascii.eqb e "u" then
                  let rr := getu4 s in
                  if rr <? 0 then None
                  else
                    let after := skipn 6 s in
                    if is_surrogate rr then
                      let dec := utf16_DecodeRune rr (getu4 after) in
                      if negb (dec =? RuneError) then
                        (EncodeRune dec ++.) <$> unquote_loop fuel (skipn 6 after)
                      else
                        (EncodeRune RuneError ++.) <$> unquote_loop fuel after
                    else (EncodeRune rr ++.) <$> unquote_loop fuel after
                else
                  let simple (b : Z) := (b ::.) <$> unquote_loop fuel r2 in
                  if Ascii.eqb e dquote || Ascii.eqb e backslash
                     || Ascii.eqb e "/" || Ascii.eqb e "'"
                  then simple (byte_val e)
                  else if Ascii.eqb e "b" then simple 8
                  else if Ascii.eqb e "f" then simple 12
                  else if Ascii.eqb e "n" then simple 10
                  else if Ascii.eqb e "r" then simple 13
                  else if Ascii.eqb e "t" then simple 9
                  else None
            end
          else if Ascii.eqb c dquote || (byte_val c <? 32) then None
          else if byte_val c <? 128 then
            (byte_val c ::.) <$> unquote_loop fuel r
          else
            let '(rr, size) := DecodeRune (map byte_val s) in
            (EncodeRune rr ++.) <$> unquote_loop fuel (skipn size s)
      end
  end.

Definition unquote (raw : string) : option string :=
  string_of <$> unquote_loop (String.length raw) (list_ascii_of_string raw).

End json.

(** ** strconv: [ParseFloat(s, 64)] on a JSON number literal *)

Module strconv.

(** A [float64] value. *)
Definition float64 : Type := spec_float.

Definition prec : Z := 53.
Definition emax : Z := 1024.

(** The decimal reading of a literal [-?int(.frac)?([eE][+-]?exp)?]:
    sign, digits of the mantissa as an integer, and the power of ten. *)
Definition readFloat (lit : string) : option (bool * Z * Z) :=
  let s := list_ascii_of_string lit in
  let '(neg, s) := match s with
                   | c :: r => if Ascii.eqb c "-" then (true, r) else (false, s)
                   | [] => (false, s)
                   end in
  let '(int_digits, s) := span_digits s in
  let '(frac_digits, s) :=
    match s with
    | c :: r => if Ascii.eqb c "." then span_digits r else ([], s)
    | [] => ([], s)
    end in
  let result (e : Z) :=
    Some (neg, digits_val 0 (int_digits ++ frac_digits),
          e - Z.of_nat (length frac_digits)) in
  match int_digits, s with
  | [], _ => None
  | _, [] => result 0
  | _, c :: r =>
      if Ascii.eqb c "e" || Ascii.eqb c "E" then
        let '(eneg, r) :=
          match r with
          | x :: r' =>
              if Ascii.eqb x "-" then (true, r')
              else if Ascii.eqb x "+" then (false, r')
              else (false, r)
          | [] => (false, r)
          end in
        match span_digits r with
        | ([], _) => None
        | (exp_digits, []) =>
            let e := digits_val 0 exp_digits in
            result (if eneg then - e else e)
        | (_, _ :: _) => None
        end
      else None
  end.

(** The [float64] nearest to [m * 10^e] (ties to even), for [m > 0]. *)
Definition round_decimal (neg : bool) (m : positive) (e : Z) : float64 :=
  if 0 <=? e then
    match Zpos m * 10 ^ e with
    | Zpos n => binary_round prec emax neg n 0
    | _ => S754_nan
    end
  else
    let d := 10 ^ (- e) in
    let shift := Z.max 0 (prec + 1 + Zdigits2 d - Zdigits2 (Zpos m)) in
    let n := Zpos m * 2 ^ shift in
    let q := n / d in
    let r := n mod d in
    let loc := if r =? 0 then loc_Exact else loc_Inexact (2 * r ?= d) in
    binary_round_aux prec emax neg q (- shift) loc.

(** [ParseFloat(lit, 64)]: [None] is a syntax or range error (the value
    is more than half a unit in the last place beyond the largest
    [float64]). *)
Definition ParseFloat (lit : string) : option float64 :=
  match readFloat lit with
  | None => None
  | Some (neg, Z0, _) => Some (S754_zero neg)
  | Some (neg, Zpos m, e) =>
      match round_decimal neg m e with
      | S754_infinity _ | S754_nan => None
      | f => Some f
      end
  | Some (_, Zneg _, _) => None
  end.

(** *** [FormatFloat(f, fmt, -1, 64)]: the shortest decimal that reads back *)

(** Decimal digits of a non-negative number, most significant first. *)
Definition digits_of (n : Z) : list ascii :=
  list_ascii_of_string (fmt_d n).

(** [cmp_scaled a k b q] compares [a * 10^k] with [b * 2^q]. *)
Definition cmp_scaled (a k b q : Z) : comparison :=
  (a * 10 ^ Z.max k 0 * 2 ^ Z.max (- q) 0
   ?= b * 2 ^ Z.max q 0 * 10 ^ Z.max (- k) 0).

(** The largest [k] in [lo, lo + fuel) with [10^k <= b * 2^q], searched
    upwards from [lo]. *)
Fixpoint floor_log10 (fuel : nat) (lo : Z) (b q : Z) : Z :=
  match fuel with
  | O => lo
  | S fuel =>
      match cmp_scaled 1 (lo + 1) b q with
      | Gt => lo
      | _ => floor_log10 fuel (lo + 1) b q
      end
  end.

(** The shortest decimal [d * 10^k] inside the rounding interval of the
    positive float [m * 2^e]: the halfway points to its neighbours bound
    the interval, and belong to it when [m] is even. Among the decimals of
    the least number of digits the one nearest to the float is taken. *)
Definition shortest (m : positive) (e : Z) : Z * Z :=
  let q := e - 2 in
  let v := 4 * Zpos m in
  let up := v + 2 in
  let lo := if (Zpos m =? 2 ^ 52) && (-1074 <? e) then v - 1 else v - 2 in
  let inclusive := Z.even (Zpos m) in
  let inside (d k : Z) : bool :=
    match cmp_scaled d k lo q, cmp_scaled d k up q with
    | Gt, Lt => true
    | Eq, _ | _, Eq => inclusive
    | _, _ => false
    end in
  let e10 := floor_log10 700 (-400) v q in
  let try_digits (n : Z) : option (Z * Z) :=
    let k := e10 - (n - 1) in
    (* the two decimals of [n] digits around the float *)
    let d := if 0 <=? k then (v * 2 ^ Z.max q 0 / 2 ^ Z.max (- q) 0) / 10 ^ k
             else (v * 2 ^ Z.max q 0 * 10 ^ (- k)) / 2 ^ Z.max (- q) 0 in
    let below := inside d k in
    let above := inside (d + 1) k in
    (* is [d + 1] at least as near as [d]?  compare 2v with 2d + 1 *)
    let nearer_above :=
      match cmp_scaled (2 * d + 1) k (2 * v) q with
      | Lt => true
      | _ => false
      end in
    if below && above then Some (if nearer_above then d + 1 else d, k)
    else if below then Some (d, k)
    else if above then Some (d + 1, k)
    else None in
  let fix search (fuel : nat) (n : Z) : Z * Z :=
    match fuel with
    | O => (0, 0)
    | S fuel =>
        match try_digits n with
        | Some r => r
        | None => search fuel (n + 1)
        end
    end in
  search 17%nat 1.

Fixpoint strip_zeros (d k : Z) (fuel : nat) : Z * Z :=
  match fuel with
  | O => (d, k)
  | S fuel =>
      if (d mod 10 =? 0) && negb (d =? 0) then strip_zeros (d / 10) (k + 1) fuel
      else (d, k)
  end.

Definition pad2 (n : Z) : string :=
  if n <? 10 then "0" +:+ fmt_d n else fmt_d n.

(** [%e] with the shortest digits: [d.ddde±dd]. *)
Definition fmtE (digs : list ascii) (dp : Z) : string :=
  let mant :=
    match digs with
    | [] => "0"
    | [d] => String d EmptyString
    | d :: rest => String d ("." +:+ string_of_list_ascii rest)
    end in
  let exp := dp - 1 in
  mant +:+ "e" +:+ (if exp <? 0 then "-" else "+") +:+ pad2 (Z.abs exp).

Definition zeros (n : Z) : string :=
  string_of_list_ascii (repeat "0"%char (Z.to_nat n)).

(** [%f] with the shortest digits. *)
Definition fmtF (digs : list ascii) (dp : Z) : string :=
  let nd := Z.of_nat (length digs) in
  let int_part :=
    if 0 <? dp then
      string_of_list_ascii (firstn (Z.to_nat dp) digs) +:+ zeros (dp - nd)
    else "0" in
  let frac :=
    if dp <? nd then
      "." +:+ zeros (- dp) +:+ string_of_list_ascii (skipn (Z.to_nat dp) digs)
    else "" in
  int_part +:+ frac.

(** The digits and the position of the decimal point of a positive
    float. *)
Definition shortest_digits (m : positive) (e : Z) : list ascii * Z :=
  let '(d, k) := shortest m e in
  let '(d, k) := strip_zeros d k 20 in
  let digs := digits_of d in
  (digs, Z.of_nat (length digs) + k).

(** The number as [json.Marshal] writes it: [%f], or [%e] below [1e-6]
    and from [1e21] on, where an exponent [e-0d] loses its zero. [None]
    for a NaN or an infinity. *)
Definition FormatFloat_json (f : float64) : option string :=
  match f with
  | S754_zero s => Some (if s then "-0" else "0")
  | S754_finite s m e =>
      let '(digs, dp) := shortest_digits m e in
      let sign := if s then "-" else "" in
      if (dp <? -5) || (21 <? dp) then
        let exp := dp - 1 in
        let text := fmtE digs dp in
        Some (sign +:+
              (if (exp <? 0) && (-10 <? exp) then
                 (* e-0d becomes e-d *)
                 match digs with
                 | [d] => String d EmptyString
                 | d :: rest => String d ("." +:+ string_of_list_ascii rest)
                 | [] => "0"
                 end +:+ "e-" +:+ fmt_d (Z.abs exp)
               else text))
      else Some (sign +:+ fmtF digs dp)
  | _ => None
  end.

End strconv.


(** ** encoding/json: storing a scanned value into a Go value *)

Module decode.

Import json.

(** The outcome of storing one JSON value: stored; a type mismatch, which
    the decoder records (keeping the first) while it goes on; or the error
    of an [Unmarshaler], which ends the decoding at once. *)
Inductive Stored (S : Type) : Type :=
| Ok (s : S)
| Mismatch (e : error) (s : S)
| Abort (e : error).
Arguments Ok {S} s.
Arguments Mismatch {S} e s.
Arguments Abort {S} e.

(** How a mismatching JSON value is named in the error. *)
Definition describe (v : Value) : string :=
  match v with
  | Null => "null"
  | Bool _ => "bool"
  | Number _ => "number"
  | String_ _ => "string"
  | Array _ => "array"
  | Object _ => "object"
  end.

(** A destination of kind [string]. *)
Definition store_string {S} (field : string) (set : string -> S -> S)
    (v : Value) (s : S) : Stored S :=
  match v with
  | Null => Ok s
  | String_ raw =>
      match unquote raw with
      | Some str => Ok (set str s)
      | None => Abort (SyntaxError "JSON decoder out of sync")
      end
  | _ => Mismatch (UnmarshalTypeError (describe v) "string" field) s
  end.

(** A destination of kind [float64]. *)
Definition store_float64 {S} (field : string)
    (set : strconv.float64 -> S -> S) (v : Value) (s : S) : Stored S :=
  match v with
  | Null => Ok s
  | Number lit =>
      match strconv.ParseFloat lit with
      | Some f => Ok (set f s)
      | None =>
          Mismatch (UnmarshalTypeError ("number " +:+ lit) "float64" field) s
      end
  | _ => Mismatch (UnmarshalTypeError (describe v) "float64" field) s
  end.

(** A destination of type [time.Time], which implements [Unmarshaler]:
    [Time.UnmarshalJSON] gets the value as written. *)
Definition store_time {S} (env : Env) (set : time.Time -> S -> S)
    (v : Value) (s : S) : Stored S :=
  match v with
  | Null => Ok s
  | String_ raw =>
      match time_Parse env raw with
      | inl t => Ok (set t s)
      | inr e => Abort e
      end
  | _ => Abort (TimeError "Time.UnmarshalJSON: input is not a JSON string")
  end.

(** A field of a struct type: its Go type, the name its [json] tag gives
    it, and how the struct is updated. *)
Inductive Field (S : Type) : Type :=
| StringField (name : string) (set : string -> S -> S)
| Float64Field (name : string) (set : strconv.float64 -> S -> S)
| TimeField (name : string) (set : time.Time -> S -> S).
Arguments StringField {S} name set.
Arguments Float64Field {S} name set.
Arguments TimeField {S} name set.

Definition name {S} (f : Field S) : string :=
  match f with
  | StringField n _ | Float64Field n _ | TimeField n _ => n
  end.

(** Storing a value into field [f] of the struct type named [struct]. *)
Definition store {S} (env : Env) (struct : string) (f : Field S)
    (v : Value) (s : S) : Stored S :=
  match f with
  | StringField n set => store_string (struct +:+ "." +:+ n) set v s
  | Float64Field n set => store_float64 (struct +:+ "." +:+ n) set v s
  | TimeField _ set => store_time env set v s
  end.

(** Case folding of an object key against an ASCII field name: letters
    match in either case; the Kelvin sign (U+212A) folds to [k] and the
    long s (U+017F) to [s]. *)
Fixpoint equalFold (fname : list ascii) (key : list ascii) : bool :=
  match fname, key with
  | [], [] => true
  | n :: fr, c :: kr =>
      if Ascii.eqb (to_lower n) (to_lower c) then equalFold fr kr
      else if Ascii.eqb (to_lower n) "s" then
        match key with
        | c1 :: c2 :: kr' =>
            (byte_val c1 =? 197) && (byte_val c2 =? 191) && equalFold fr kr'
        | _ => false
        end
      else if Ascii.eqb (to_lower n) "k" then
        match key with
        | c1 :: c2 :: c3 :: kr' =>
            (byte_val c1 =? 226) && (byte_val c2 =? 132)
            && (byte_val c3 =? 170) && equalFold fr kr'
        | _ => false
        end
      else false
  | _, _ => false
  end.

(** The field an object key selects: the one with exactly that name,
    otherwise the first whose name matches up to case. *)
Definition find_field {S} (fields : list (Field S)) (key : string)
  : option (Field S) :=
  match List.find (fun f => String.eqb (name f) key) fields with
  | Some f => Some f
  | None =>
      List.find (fun f => equalFold (list_ascii_of_string (name f))
                            (list_ascii_of_string key)) fields
  end.

(** [d.object(v)] for a struct destination: the members in the order
    written; a key that selects no field is skipped. The state is the
    struct so far and the first recorded mismatch. *)
Fixpoint object {S} (env : Env) (struct : string) (fields : list (Field S))
    (members : list (string * Value)) (s : S) (saved : option error)
  : (S * option error) + error :=
  match members with
  | [] => inl (s, saved)
  | (rawkey, v) :: rest =>
      match unquote rawkey with
      | None => inr (SyntaxError "JSON decoder out of sync")
      | Some key =>
          match find_field fields key with
          | None => object env struct fields rest s saved
          | Some f =>
              match store env struct f v s with
              | Ok s' => object env struct fields rest s' saved
              | Mismatch e s' =>
                  object env struct fields rest s'
                    (match saved with Some e0 => Some e0 | None => Some e end)
              | Abort e => inr e
              end
          end
      end
  end.

(** [d.value(v)] for a struct destination of type [typ]. *)
Definition struct_value {S} (env : Env) (typ struct : string)
    (fields : list (Field S)) (v : Value) (s : S) (saved : option error)
  : (S * option error) + error :=
  match v with
  | Null => inl (s, saved)
  | Object members => object env struct fields members s saved
  | _ =>
      inl (s, match saved with
              | Some e0 => Some e0
              | None => Some (UnmarshalTypeError (describe v) typ "")
              end)
  end.

(** [d.array(v)] for a destination [[]T] whose elements are structs: each
    element is stored into a zero [T]. *)
Fixpoint array {S} (env : Env) (typ struct : string) (fields : list (Field S))
    (zero : S) (elems : list Value) (saved : option error)
  : (list S * option error) + error :=
  match elems with
  | [] => inl ([], saved)
  | v :: rest =>
      match struct_value env typ struct fields v zero saved with
      | inr e => inr e
      | inl (x, saved') =>
          match array env typ struct fields zero rest saved' with
          | inr e => inr e
          | inl (xs, saved'') => inl (x :: xs, saved'')
          end
      end
  end.

(** [json.Unmarshal(data, &s)] for a struct [s]: the filled struct, or the
    error. *)
Definition Unmarshal_struct {S} (env : Env) (typ struct : string)
    (fields : list (Field S)) (data : string) (s : S) : S + error :=
  match checkValid data with
  | inr e => inr e
  | inl v =>
      match struct_value env typ struct fields v s None with
      | inr e => inr e
      | inl (_, Some e) => inr e
      | inl (s', None) => inl s'
      end
  end.

(** [json.Unmarshal(data, &xs)] for a nil slice [xs] of structs. A Go
    slice is [None] when nil. *)
Definition Unmarshal_slice {S} (env : Env) (typ struct : string)
    (fields : list (Field S)) (zero : S) (data : string)
  : option (list S) + error :=
  match checkValid data with
  | inr e => inr e
  | inl Null => inl None
  | inl (Array elems) =>
      match array env typ struct fields zero elems None with
      | inr e => inr e
      | inl (_, Some e) => inr e
      | inl (xs, None) => inl (Some xs)
      end
  | inl v => inr (UnmarshalTypeError (describe v) ("[]" +:+ typ) "")
  end.

End decode.

(** ** The records of the package (part_002) *)

Record Subscription : Type := mkSubscription {
  ID : string;
  Status : string;
  Plan : string;
  CreatedAt : time.Time;
  CustomerID : string;
  ProductID : string;
  NextBillingDate : time.Time;
  CurrentPeriodEnd : time.Time;
  Amount : strconv.float64;
  Currency : string;
  BillingCycle : string;
  PurchaseID : string
}.

(** The zero value of [Subscription]. *)
Definition Subscription_zero : Subscription :=
  mkSubscription "" "" "" time.zero "" "" time.zero time.zero
    (S754_zero false) "" "" "".

Definition set_ID v s := mkSubscription v (Status s) (Plan s) (CreatedAt s) (CustomerID s) (ProductID s) (NextBillingDate s) (CurrentPeriodEnd s) (Amount s) (Currency s) (BillingCycle s) (PurchaseID s).
Definition set_Status v s := mkSubscription (ID s) v (Plan s) (CreatedAt s) (CustomerID s) (ProductID s) (NextBillingDate s) (CurrentPeriodEnd s) (Amount s) (Currency s) (BillingCycle s) (PurchaseID s).
Definition set_Plan v s := mkSubscription (ID s) (Status s) v (CreatedAt s) (CustomerID s) (ProductID s) (NextBillingDate s) (CurrentPeriodEnd s) (Amount s) (Currency s) (BillingCycle s) (PurchaseID s).
Definition set_CreatedAt v s := mkSubscription (ID s) (Status s) (Plan s) v (CustomerID s) (ProductID s) (NextBillingDate s) (CurrentPeriodEnd s) (Amount s) (Currency s) (BillingCycle s) (PurchaseID s).
Definition set_CustomerID v s := mkSubscription (ID s) (Status s) (Plan s) (CreatedAt s) v (ProductID s) (NextBillingDate s) (CurrentPeriodEnd s) (Amount s) (Currency s) (BillingCycle s) (PurchaseID s).
Definition set_ProductID v s := mkSubscription (ID s) (Status s) (Plan s) (CreatedAt s) (CustomerID s) v (NextBillingDate s) (CurrentPeriodEnd s) (Amount s) (Currency s) (BillingCycle s) (PurchaseID s).
Definition set_NextBillingDate v s := mkSubscription (ID s) (Status s) (Plan s) (CreatedAt s) (CustomerID s) (ProductID s) v (CurrentPeriodEnd s) (Amount s) (Currency s) (BillingCycle s) (PurchaseID s).
Definition set_CurrentPeriodEnd v s := mkSubscription (ID s) (Status s) (Plan s) (CreatedAt s) (CustomerID s) (ProductID s) (NextBillingDate s) v (Amount s) (Currency s) (BillingCycle s) (PurchaseID s).
Definition set_Amount v s := mkSubscription (ID s) (Status s) (Plan s) (CreatedAt s) (CustomerID s) (ProductID s) (NextBillingDate s) (CurrentPeriodEnd s) v (Currency s) (BillingCycle s) (PurchaseID s).
Definition set_Currency v s := mkSubscription (ID s) (Status s) (Plan s) (CreatedAt s) (CustomerID s) (ProductID s) (NextBillingDate s) (CurrentPeriodEnd s) (Amount s) v (BillingCycle s) (PurchaseID s).
Definition set_BillingCycle v s := mkSubscription (ID s) (Status s) (Plan s) (CreatedAt s) (CustomerID s) (ProductID s) (NextBillingDate s) (CurrentPeriodEnd s) (Amount s) (Currency s) v (PurchaseID s).
Definition set_PurchaseID v s := mkSubscription (ID s) (Status s) (Plan s) (CreatedAt s) (CustomerID s) (ProductID s) (NextBillingDate s) (CurrentPeriodEnd s) (Amount s) (Currency s) (BillingCycle s) v.

(** The fields of [Subscription] in declaration order, with their types
    and their [json] tags. *)
Definition Subscription_fields : list (decode.Field Subscription) :=
  [ decode.StringField "id" set_ID;
    decode.StringField "status" set_Status;
    decode.StringField "plan" set_Plan;
    decode.TimeField "created_at" set_CreatedAt;
    decode.StringField "customer_id" set_CustomerID;
    decode.StringField "product_id" set_ProductID;
    decode.TimeField "next_billing_date" set_NextBillingDate;
    decode.TimeField "current_period_end" set_CurrentPeriodEnd;
    decode.Float64Field "amount" set_Amount;
    decode.StringField "currency" set_Currency;
    decode.StringField "billing_cycle" set_BillingCycle;
    decode.StringField "purchase_id" set_PurchaseID ].

(** [json.Unmarshal(data, &subscription)] with [var subscription
    Subscription]. *)
Definition Unmarshal_Subscription (env : Env) (data : string)
  : Subscription + error :=
  decode.Unmarshal_struct env "client.Subscription" "Subscription"
    Subscription_fields data Subscription_zero.

(** [json.Unmarshal(data, &subscriptions)] with [var subscriptions
    []Subscription]. *)
Definition Unmarshal_Subscriptions (env : Env) (data : string)
  : option (list Subscription) + error :=
  decode.Unmarshal_slice env "client.Subscription" "Subscription"
    Subscription_fields Subscription_zero data.

(** ** encoding/json: writing strings, and [MarshalIndent] of a logging map *)

(** A value of the [map[string]interface{}] handed to [Logger.Json]: a
    string, an int, a float64, or a value of a type that [json.Marshal]
    does not support (a channel, a function, a complex number), named by
    its Go type. *)
Inductive jvalue : Type :=
| JString (s : string)
| JInt (n : Z)
| JFloat64 (f : strconv.float64)
| JUnsupported (typ : string).

Module encode.

Import json.

(** [htmlSafeSet]: the ASCII bytes written as they are. *)
Definition htmlSafe (b : Z) : bool :=
  (32 <=? b) && (b <? 128)
  && negb ((b =? 34) || (b =? 38) || (b =? 60) || (b =? 62) || (b =? 92)).

Definition chars (s : string) : list ascii := list_ascii_of_string s.

Definition escape_ascii (b : Z) : list ascii :=
  if htmlSafe b then [byte_chr b]
  else if (b =? 92) || (b =? 34) then [backslash; byte_chr b]
  else if b =? 8 then [backslash; "b"%char]
  else if b =? 12 then [backslash; "f"%char]
  else if b =? 10 then [backslash; "n"%char]
  else if b =? 13 then [backslash; "r"%char]
  else if b =? 9 then [backslash; "t"%char]
  else [backslash; "u"%char; "0"%char; "0"%char;
        nth_char lowerhex (Z.shiftr b 4); nth_char lowerhex (Z.land b 15)].

(** The loop of [appendString] with HTML escaping on, as [json.Marshal]
    runs it. [fuel] bounds the number of steps. *)
Fixpoint escape_loop (fuel : nat) (src : list Z) : list ascii :=
  match fuel with
  | O => []
  | S fuel =>
      match src with
      | [] => []
      | b :: r =>
          if b <? 128 then escape_ascii b ++ escape_loop fuel r
          else
            let '(c, size) := DecodeRune (firstn 4 src) in
            if (c =? RuneError) && (size =? 1)%nat then
              backslash :: chars "ufffd" ++ escape_loop fuel r
            else if (c =? 8232) || (c =? 8233) then
              backslash :: chars "u202"
                ++ [nth_char lowerhex (Z.land c 15)]
                ++ escape_loop fuel (skipn size src)
            else
              map byte_chr (firstn size src) ++ escape_loop fuel (skipn size src)
      end
  end.

(** The text between the quotes. *)
Definition escape (s : string) : string :=
  string_of_list_ascii (escape_loop (String.length s) (bytes_of s)).

(** [appendString(dst, src, true)]. *)
Definition quote (s : string) : string :=
  String dquote (escape s) +:+ String dquote EmptyString.

Definition newline : string := String "010" EmptyString.

(** *** [json.Marshal] of a [Subscription]

    The encoders of the three field types; [time.Time] is a
    [json.Marshaler]. *)

Definition encode_string (s : string) : string + error := inl (quote s).

Definition encode_float64 (f : strconv.float64) : string + error :=
  match strconv.FormatFloat_json f with
  | Some text => inl text
  | None =>
      inr (errorString
             ("json: unsupported value: " +:+
              match f with
              | S754_infinity false => "+Inf"
              | S754_infinity true => "-Inf"
              | _ => "NaN"
              end))
  end.

Definition encode_time (t : time.Time) : string + error :=
  match time.MarshalJSON t with
  | inl text => inl text
  | inr msg =>
      inr (wrapError ("json: error calling MarshalJSON for type time.Time: "
                      +:+ msg) (errorString msg))
  end.

(** The members of a struct in the order of its fields, up to the first
    that cannot be encoded. *)
Fixpoint members (fields : list (string * (string + error)))
  : list string + error :=
  match fields with
  | [] => inl []
  | (key, inr e) :: _ => inr e
  | (key, inl text) :: rest =>
      match members rest with
      | inl ms => inl ((quote key +:+ ":" +:+ text) :: ms)
      | inr e => inr e
      end
  end.

Definition Marshal_struct (fields : list (string * (string + error)))
  : string + error :=
  match members fields with
  | inl ms => inl ("{" +:+ join "," ms +:+ "}")
  | inr e => inr e
  end.

(** [json.Marshal(s)] for a [Subscription]: every field under the name of
    its tag. *)
Definition Marshal_Subscription (s : Subscription) : string + error :=
  Marshal_struct
    [ ("id", encode_string (ID s));
      ("status", encode_string (Status s));
      ("plan", encode_string (Plan s));
      ("created_at", encode_time (CreatedAt s));
      ("customer_id", encode_string (CustomerID s));
      ("product_id", encode_string (ProductID s));
      ("next_billing_date", encode_time (NextBillingDate s));
      ("current_period_end", encode_time (CurrentPeriodEnd s));
      ("amount", encode_float64 (Amount s));
      ("currency", encode_string (Currency s));
      ("billing_cycle", encode_string (BillingCycle s));
      ("purchase_id", encode_string (PurchaseID s)) ].

(** *** [json.MarshalIndent] of a logging map *)

(** The encoding of one value of the map. *)
Definition marshal_value (v : jvalue) : string + error :=
  match v with
  | JString s => encode_string s
  | JInt n => inl (fmt_d n)
  | JFloat64 f => encode_float64 f
  | JUnsupported typ => inr (errorString ("json: unsupported type: " +:+ typ))
  end.

(** The lines of the members in the order given, up to the first value
    that cannot be encoded. *)
Fixpoint indented (fields : list (string * (string + error)))
  : list string + error :=
  match fields with
  | [] => inl []
  | (key, inr e) :: _ => inr e
  | (key, inl text) :: rest =>
      match indented rest with
      | inl ms => inl (("  " +:+ quote key +:+ ": " +:+ text) :: ms)
      | inr e => inr e
      end
  end.

(** [json.MarshalIndent(m, "", "  ")] of a map: the keys sorted, one
    member per line; the error of the first value, in the order of the
    keys, that cannot be encoded. *)
Definition MarshalIndent_map (m : list (string * jvalue)) : string + error :=
  let value k :=
    match list_find (fun kv => String.eqb (fst kv) k) m with
    | Some (_, (_, v)) => marshal_value v
    | None => inl "null"
    end in
  match indented (map (fun k => (k, value k)) (url.sort_keys (map fst m))) with
  | inr e => inr e
  | inl [] => inl "{}"
  | inl ms =>
      inl ("{" +:+ newline +:+ join ("," +:+ newline) ms +:+ newline +:+ "}")
  end.

End encode.

(** [Logger.Json] (part_002). *)
Definition Logger_Json (l : Logger) (data : list (string * jvalue)) : M unit :=
  if debug l then
    match encode.MarshalIndent_map data with
    | inr err => Logger_.Error l "JSON marshaling failed" (Some err) []
    | inl jsonData =>
        write (writer l) ("JSON LOG:" +:+ encode.newline +:+ jsonData
                          +:+ encode.newline)
    end
  else ret tt.

(** ** Configuration, request and response records (part_002) *)

Record CleverbridgeConfig : Type := mkConfig {
  ClientID : string;
  ClientSecret : string;
  BaseURL : string;
  Debug : bool
}.

(** [BaseClient]; its [httpClient] (timeout 30 s) is the transport of the
    environment. *)
Record BaseClient : Type := mkBaseClient {
  baseURL : string;
  config : CleverbridgeConfig
}.

(** A request body is an [interface{}] handed to [json.Marshal]: it is
    represented by what marshalling it yields. *)
Record Marshalable : Type := mkMarshalable { marshal : string + error }.

Record Request : Type := mkRequest {
  Method : string;
  Path : string;
  QueryParams : gmap string string;
  Headers : gmap string string;
  Body : option Marshalable
}.

Record Response : Type := mkResponse {
  StatusCode : Z;
  RespBody : string;
  RespHeaders : http.Header
}.

(** [APIClient] embeds a [BaseClient] and points to a [Logger]. *)
Record APIClient : Type := mkAPIClient {
  base : BaseClient;
  logger : option Logger
}.

Record CleverbridgeClient : Type := mkCleverbridgeClient {
  cb_config : CleverbridgeConfig;
  cb_baseURL : string;
  cb_logger : option Logger
}.

(** ** What the three variants share *)

(** Dereferencing a pointer: a nil pointer panics. *)
Definition deref {A} (p : option A) : M A :=
  match p with
  | Some a => ret a
  | None => panic
  end.

(** [for key, value := range queryParams { params.Add(key, value) }]. *)
Definition range_Add (entries : list (string * string)) : url.Values :=
  fold_left (fun v kv => url.Add v (fst kv) (snd kv)) entries ∅.

(** [fullURL]: the base URL, the path and, when there are query
    parameters, [?] and their encoding. *)
Definition fullURL_of (baseURL path : string) (queryParams : gmap string string)
  : string :=
  let fullURL := baseURL +:+ path in
  if (0 <? Z.of_nat (size queryParams)) then
    fullURL +:+ "?" +:+ url.Encode (range_Add (map_to_list queryParams))
  else fullURL.

(** [%q] of a method name (exact when nothing in it needs escaping). *)
Definition fmt_q (s : string) : string :=
  String dquote s +:+ String dquote EmptyString.

(** [http.NewRequestWithContext(ctx, method, url, body)]. *)
Definition NewRequestWithContext (env : Env) (ctx : http.Context)
    (method url : string) (body : option string) : http.Request + error :=
  let method := if String.eqb method "" then "GET" else method in
  if negb (http.validMethod method) then
    inr (errorString ("net/http: invalid method " +:+ fmt_q method))
  else
    match url_Parse env url with
    | Some err => inr err
    | None => inl (http.mkRequest method url ∅ body ctx)
    end.

(** [c.httpClient.Do(req)]: the request goes to the transport, which
    answers with a response or an error. *)
Definition Do (env : Env) (req : http.Request) : M (http.Response + error) :=
  fun σ =>
    (Some (client_Do env (sent σ) req),
     mkWorld (writes σ) (stdout σ) (stderr σ) (files σ) (sent σ ++ [req])).

(** [getBasicAuth] of [BaseClient] and of [APIClient]. *)
Definition getBasicAuth (cfg : CleverbridgeConfig) : string :=
  let auth := ClientID cfg +:+ ":" +:+ ClientSecret cfg in
  base64.EncodeToString auth.

(** ** CleverbridgeClient (part_000) *)

(** The anonymous struct the error body is decoded into. *)
Record cleverbridgeError : Type := mkCleverbridgeError {
  Error_field : string;       (* Error   string `json:"error"` *)
  Message_field : string      (* Message string `json:"message"` *)
}.

Definition cleverbridgeError_fields : list (decode.Field cleverbridgeError) :=
  [ decode.StringField "error"
      (fun v s => mkCleverbridgeError v (Message_field s));
    decode.StringField "message"
      (fun v s => mkCleverbridgeError (Error_field s) v) ].

(** [json.Unmarshal(bodyBytes, &cleverbridgeError)]. *)
Definition Unmarshal_cleverbridgeError (env : Env) (bodyBytes : string)
  : cleverbridgeError + error :=
  decode.Unmarshal_struct env "struct { Error string; Message string }" ""
    cleverbridgeError_fields bodyBytes (mkCleverbridgeError "" "").

(** The two messages of [CleverbridgeDoRequest] for a response of status
    400 or more: the structured report and the raw one. *)
Definition structured_report (e m : string) : string :=
  "Cleverbridge API error: " +:+ e +:+ " - " +:+ m.

Definition raw_report (resp : http.Response) (b : string) : string :=
  "request failed with status: " +:+ http.Status resp
  +:+ ", response: " +:+ b.

(** The body is JSON for the object [{"error": e, "message": m}]: an
    object of these two members, in this order, whose values are strings
    that read [e] and [m]. Blanks between the tokens are allowed, and so
    are escapes in the two strings. *)
Definition error_object (body e m : string) : Prop :=
  exists re rm,
    json.checkValid body
    = inl (json.Object [("error", json.String_ re);
                        ("message", json.String_ rm)])
    /\ json.unquote re = Some e /\ json.unquote rm = Some m.

(** The text of that object as [json.Marshal] writes it. *)
Definition error_body (e m : string) : string :=
  "{" +:+ encode.quote "error" +:+ ":" +:+ encode.quote e +:+ ","
  +:+ encode.quote "message" +:+ ":" +:+ encode.quote m +:+ "}".

Section Cleverbridge.

(** [Logger.Debug] is called by this variant; the logger of part_002 has
    no such method, so the lines it writes are left open. *)
Variable Debug_lines : Logger -> string -> list any -> list string.

Definition Logger_Debug (l : Logger) (message : string) (fields : list any)
  : M unit :=
  fold_right (fun line m => write (writer l) line;; m) (ret tt)
    (Debug_lines l message fields).

Definition cb_Error (c : CleverbridgeClient) (msg : string)
    (err : option error) (fields : list (string * basic)) : M unit :=
  l ← deref (cb_logger c); Logger_.Error l msg err [AMap fields].

Definition CleverbridgeDoRequest (env : Env) (c : CleverbridgeClient)
    (ctx : http.Context) (method path : string)
    (queryParams : gmap string string) (body : option Marshalable)
  : M (option http.Response * option error) :=
  let send (reqBody : option string) : M (option http.Response * option error) :=
    let fullURL := fullURL_of (cb_baseURL c) path queryParams in
    match NewRequestWithContext env ctx method fullURL reqBody with
    | inr err =>
        cb_Error c "Failed to create HTTP request" (Some err)
          [("method", BString method); ("url", BString fullURL)];;
        ret (None, Some (Errorf_w "failed to create request: " err))
    | inl req =>
        let req := http.SetBasicAuth req (ClientID (cb_config c))
                     (ClientSecret (cb_config c)) in
        let req := http.SetHeader req "Content-Type" "application/json" in
        let req := http.SetHeader req "Accept" "application/json" in
        l ← deref (cb_logger c);
        Logger_Debug l "Making Cleverbridge API request"
          [AMap [("method", BString method); ("url", BString fullURL)]];;
        r ← Do env req;
        match r with
        | inr err =>
            cb_Error c "HTTP request failed" (Some err)
              [("method", BString method); ("url", BString fullURL)];;
            ret (None, Some (Errorf_w "request failed: " err))
        | inl resp =>
            if 400 <=? http.StatusCode resp then
              match io_ReadAll (http.Body resp) with
              | (_, Some err) =>
                  cb_Error c "Failed to read error response body" (Some err)
                    [("method", BString method); ("url", BString fullURL);
                     ("statusCode", BInt (http.StatusCode resp))];;
                  ret (None, Some (errorString
                         ("request failed with status: " +:+ http.Status resp)))
              | (bodyBytes, None) =>
                  let report_raw :=
                    cb_Error c "Failed to decode Cleverbridge error response" None
                      [("method", BString method);
                       ("url", BString fullURL);
                       ("statusCode", BInt (http.StatusCode resp));
                       ("response", BString bodyBytes)];;
                    ret (None, Some (errorString
                           ("request failed with status: " +:+ http.Status resp
                            +:+ ", response: " +:+ bodyBytes))) in
                  match Unmarshal_cleverbridgeError env bodyBytes with
                  | inl cleverbridgeError =>
                      if negb (String.eqb (Error_field cleverbridgeError) "") then
                        cb_Error c "Cleverbridge API error" None
                          [("method", BString method);
                           ("url", BString fullURL);
                           ("status", BString (http.Status resp));
                           ("error", BString (Error_field cleverbridgeError));
                           ("message", BString (Message_field cleverbridgeError))];;
                        ret (None, Some (errorString
                               ("Cleverbridge API error: "
                                +:+ Error_field cleverbridgeError +:+ " - "
                                +:+ Message_field cleverbridgeError)))
                      else report_raw
                  | inr _ => report_raw
                  end
              end
            else ret (Some resp, None)
        end
    end in
  match body with
  | Some b =>
      match marshal b with
      | inr err =>
          cb_Error c "Failed to marshal request body" (Some err)
            [("method", BString method); ("path", BString path)];;
          ret (None, Some (Errorf_w "failed to marshal request body: " err))
      | inl jsonData => send (Some jsonData)
      end
  | None => send None
  end.

End Cleverbridge.

(** ** BaseClient (part_000) *)

(** [for key, value := range request.Headers { req.Header.Set(key, value) }]. *)
Definition range_Set (req : http.Request) (entries : list (string * string))
  : http.Request :=
  fold_left (fun r kv => http.SetHeader r (fst kv) (snd kv)) entries req.

Definition Printf (msg : string) : M unit := write Stdout msg.

Module BaseClient_.

Definition SendRequest (env : Env) (c : BaseClient) (ctx : http.Context)
    (request : Request) : M (option Response * option error) :=
  let fullURL := fullURL_of (baseURL c) (Path request) (QueryParams request) in
  let send (reqBody : option string) : M (option Response * option error) :=
    match NewRequestWithContext env ctx (Method request) fullURL reqBody with
    | inr err => ret (None, Some (Errorf_w "failed to create request: " err))
    | inl req =>
        let req := range_Set req (map_to_list (Headers request)) in
        when (Debug (config c))
          (Printf ("🔧 Sending " +:+ Method request +:+ " request to: "
                   +:+ fullURL +:+ encode.newline));;
        r ← Do env req;
        match r with
        | inr err => ret (None, Some (Errorf_w "request failed: " err))
        | inl resp =>
            match io_ReadAll (http.Body resp) with
            | (_, Some err) =>
                ret (None, Some (Errorf_w "failed to read response: " err))
            | (body, None) =>
                let response :=
                  mkResponse (http.StatusCode resp) body (http.RespHeader resp) in
                if 400 <=? http.StatusCode resp then
                  ret (Some response,
                       Some (errorString
                               ("API error: status " +:+ fmt_d (http.StatusCode resp)
                                +:+ ", body: " +:+ body)))
                else ret (Some response, None)
            end
        end
    end in
  match Body request with
  | Some b =>
      match marshal b with
      | inr err =>
          ret (None, Some (Errorf_w "failed to marshal request body: " err))
      | inl jsonData => send (Some jsonData)
      end
  | None => send None
  end.

(** The header map each operation builds. *)
Definition auth_headers (c : BaseClient) : gmap string string :=
  {[ "Authorization" := "Basic " +:+ getBasicAuth (config c);
     "Content-Type" := "application/json";
     "Accept" := "application/json" ]}.

Definition GetSubscription (env : Env) (c : BaseClient) (ctx : http.Context)
    (subscriptionID isCurrent : string)
  : M (option Subscription * option error) :=
  let request :=
    mkRequest "GET" "/subscription/getsubscription"
      {[ "subscriptionId" := subscriptionID; "isCurrent" := isCurrent ]}
      (auth_headers c) None in
  r ← SendRequest env c ctx request;
  match r with
  | (_, Some err) => ret (None, Some (Errorf_w "failed to get subscription: " err))
  | (None, None) => panic
  | (Some response, None) =>
      match Unmarshal_Subscription env (RespBody response) with
      | inr err => ret (None, Some (Errorf_w "failed to parse subscription: " err))
      | inl subscription => ret (Some subscription, None)
      end
  end.

Definition GetSubscriptionsByPurchase (env : Env) (c : BaseClient)
    (ctx : http.Context) (purchaseID : string)
  : M (option (list Subscription) * option error) :=
  let request :=
    mkRequest "GET" "/subscription/getsubscriptionsbypurchase"
      {[ "purchaseId" := purchaseID ]}
      (auth_headers c) None in
  r ← SendRequest env c ctx request;
  match r with
  | (_, Some err) =>
      ret (None, Some (Errorf_w "failed to get subscriptions by purchase: " err))
  | (None, None) => panic
  | (Some response, None) =>
      match Unmarshal_Subscriptions env (RespBody response) with
      | inr err => ret (None, Some (Errorf_w "failed to parse subscriptions: " err))
      | inl subscriptions => ret (subscriptions, None)
      end
  end.

Definition GetSubscriptionsForCustomer (env : Env) (c : BaseClient)
    (ctx : http.Context) (customerID : string)
  : M (option (list Subscription) * option error) :=
  let request :=
    mkRequest "GET" "/subscription/getsubscriptionsforcustomer"
      {[ "customerId" := customerID ]}
      (auth_headers c) None in
  r ← SendRequest env c ctx request;
  match r with
  | (_, Some err) =>
      ret (None, Some (Errorf_w "failed to get subscriptions for customer: " err))
  | (None, None) => panic
  | (Some response, None) =>
      match Unmarshal_Subscriptions env (RespBody response) with
      | inr err => ret (None, Some (Errorf_w "failed to parse subscriptions: " err))
      | inl subscriptions => ret (subscriptions, None)
      end
  end.

End BaseClient_.

(** ** APIClient (part_001, part_002) *)

Module APIClient_.

Definition NewAPIClient (env : Env) (config : CleverbridgeConfig) : M APIClient :=
  let baseClient := mkBaseClient (BaseURL config) config in
  l ← NewLogger env (Debug config) "";
  ret (mkAPIClient baseClient (Some l)).

Definition Info (c : APIClient) (msg : string) (fields : list any) : M unit :=
  l ← deref (logger c); Logger_.Info l msg fields.

Definition Error (c : APIClient) (msg : string) (err : option error)
    (fields : list any) : M unit :=
  l ← deref (logger c); Logger_.Error l msg err fields.

Definition Json (c : APIClient) (data : list (string * jvalue)) : M unit :=
  l ← deref (logger c); Logger_Json l data.

Definition sendRequest (env : Env) (c : APIClient) (ctx : http.Context)
    (method path : string) (queryParams : gmap string string)
    (body : option Marshalable) : M (option string * option error) :=
  let cfg := config (base c) in
  let fullURL := fullURL_of (baseURL (base c)) path queryParams in
  Info c "Sending API request"
    [AString "method"; AString method; AString "url"; AString fullURL;
     AString "path"; AString path];;
  let send (reqBody : option string) : M (option string * option error) :=
    match NewRequestWithContext env ctx method fullURL reqBody with
    | inr err =>
        Error c "Failed to create HTTP request" (Some err)
          [AString "method"; AString method; AString "url"; AString fullURL];;
        ret (None, Some (Errorf_w "failed to create request: " err))
    | inl req =>
        let req := http.SetHeader req "Authorization"
                     ("Basic " +:+ getBasicAuth cfg) in
        let req := http.SetHeader req "Content-Type" "application/json" in
        let req := http.SetHeader req "Accept" "application/json" in
        r ← Do env req;
        let requestDuration := time_Since env req in
        match r with
        | inr err =>
            Error c "HTTP request failed" (Some err)
              [AString "method"; AString method; AString "url"; AString fullURL;
               AString "duration"; AString requestDuration];;
            ret (None, Some (Errorf_w "request failed: " err))
        | inl resp =>
            match io_ReadAll (http.Body resp) with
            | (_, Some err) =>
                Error c "Failed to read response body" (Some err)
                  [AString "method"; AString method; AString "url";
                   AString fullURL; AString "status_code";
                   AInt (http.StatusCode resp)];;
                ret (None, Some (Errorf_w "failed to read response: " err))
            | (responseBody, None) =>
                Info c "API response received"
                  [AString "method"; AString method; AString "path"; AString path;
                   AString "status_code"; AInt (http.StatusCode resp);
                   AString "duration"; AString requestDuration;
                   AString "response_size";
                   AInt (Z.of_nat (String.length responseBody))];;
                when (Debug cfg && (0 <? Z.of_nat (String.length responseBody)))
                  (Json c [("response_body", JString responseBody);
                           ("status_code", JInt (http.StatusCode resp));
                           ("method", JString method);
                           ("path", JString path)]);;
                if 400 <=? http.StatusCode resp then
                  Error c "API returned error response" None
                    [AString "method"; AString method; AString "url";
                     AString fullURL; AString "status_code";
                     AInt (http.StatusCode resp);
                     AString "response"; AString responseBody];;
                  ret (None, Some (errorString
                         ("API error: status " +:+ fmt_d (http.StatusCode resp)
                          +:+ ", body: " +:+ responseBody)))
                else ret (Some responseBody, None)
            end
        end
    end in
  match body with
  | Some b =>
      match marshal b with
      | inr err =>
          Error c "Failed to marshal request body" (Some err)
            [AString "method"; AString method; AString "path"; AString path];;
          ret (None, Some (Errorf_w "failed to marshal request body: " err))
      | inl jsonData =>
          when (Debug cfg)
            (Json c [("request_body", JString jsonData);
                     ("method", JString method);
                     ("path", JString path)]);;
          send (Some jsonData)
      end
  | None => send None
  end.

Definition GetSubscription (env : Env) (c : APIClient) (ctx : http.Context)
    (subscriptionID isCurrent : string)
  : M (option Subscription * option error) :=
  Info c "Getting subscription"
    [AString "subscription_id"; AString subscriptionID;
     AString "is_current"; AString isCurrent];;
  let queryParams : gmap string string :=
    {[ "subscriptionId" := subscriptionID; "isCurrent" := isCurrent ]} in
  r ← sendRequest env c ctx "GET" "/subscription/getsubscription" queryParams None;
  match r with
  | (_, Some err) =>
      Error c "Failed to get subscription" (Some err)
        [AString "subscription_id"; AString subscriptionID];;
      ret (None, Some (Errorf_w "failed to get subscription: " err))
  | (responseBody, None) =>
      (* a nil slice and an empty one read the same *)
      let responseBody := default "" responseBody in
      match Unmarshal_Subscription env responseBody with
      | inr err =>
          Error c "Failed to parse subscription response" (Some err)
            [AString "subscription_id"; AString subscriptionID;
             AString "response_body"; AString responseBody];;
          ret (None, Some (Errorf_w "failed to parse subscription: " err))
      | inl subscription =>
          Info c "Successfully retrieved subscription"
            [AString "subscription_id"; AString (ID subscription);
             AString "status"; AString (Status subscription);
             AString "plan"; AString (Plan subscription)];;
          ret (Some subscription, None)
      end
  end.

Definition GetSubscriptionsByPurchase (env : Env) (c : APIClient)
    (ctx : http.Context) (purchaseID : string)
  : M (option (list Subscription) * option error) :=
  Info c "Getting subscriptions by purchase"
    [AString "purchase_id"; AString purchaseID];;
  let queryParams : gmap string string := {[ "purchaseId" := purchaseID ]} in
  r ← sendRequest env c ctx "GET" "/subscription/getsubscriptionsbypurchase"
        queryParams None;
  match r with
  | (_, Some err) =>
      Error c "Failed to get subscriptions by purchase" (Some err)
        [AString "purchase_id"; AString purchaseID];;
      ret (None, Some (Errorf_w "failed to get subscriptions by purchase: " err))
  | (responseBody, None) =>
      let responseBody := default "" responseBody in
      match Unmarshal_Subscriptions env responseBody with
      | inr err =>
          Error c "Failed to parse subscriptions response" (Some err)
            [AString "purchase_id"; AString purchaseID;
             AString "response_body"; AString responseBody];;
          ret (None, Some (Errorf_w "failed to parse subscriptions: " err))
      | inl subscriptions =>
          Info c "Successfully retrieved subscriptions by purchase"
            [AString "purchase_id"; AString purchaseID;
             AString "subscriptions_count";
             AInt (Z.of_nat (length (default [] subscriptions)))];;
          ret (subscriptions, None)
      end
  end.

Definition GetSubscriptionsForCustomer (env : Env) (c : APIClient)
    (ctx : http.Context) (customerID : string)
  : M (option (list Subscription) * option error) :=
  Info c "Getting subscriptions for customer"
    [AString "customer_id"; AString customerID];;
  let queryParams : gmap string string := {[ "customerId" := customerID ]} in
  r ← sendRequest env c ctx "GET" "/subscription/getsubscriptionsforcustomer"
        queryParams None;
  match r with
  | (_, Some err) =>
      Error c "Failed to get subscriptions for customer" (Some err)
        [AString "customer_id"; AString customerID];;
      ret (None, Some (Errorf_w "failed to get subscriptions for customer: " err))
  | (responseBody, None) =>
      let responseBody := default "" responseBody in
      match Unmarshal_Subscriptions env responseBody with
      | inr err =>
          Error c "Failed to parse subscriptions response" (Some err)
            [AString "customer_id"; AString customerID;
             AString "response_body"; AString responseBody];;
          ret (None, Some (Errorf_w "failed to parse subscriptions: " err))
      | inl subscriptions =>
          Info c "Successfully retrieved subscriptions for customer"
            [AString "customer_id"; AString customerID;
             AString "subscriptions_count";
             AInt (Z.of_nat (length (default [] subscriptions)))];;
          ret (subscriptions, None)
      end
  end.

(** [APIClient.Close] (part_002). *)
Definition Close (c : APIClient) : M (option error) :=
  match logger c with
  | Some l => Logger_.Close l
  | None => ret None
  end.

End APIClient_.


(** ** The three operations as one interface *)

Inductive Call : Type :=
| CallGetSubscription (subscriptionID isCurrent : string)
| CallGetSubscriptionsByPurchase (purchaseID : string)
| CallGetSubscriptionsForCustomer (customerID : string).

(** What an operation returns beside its error: a [*Subscription] or a
    [[]Subscription]; [None] is nil for both. *)
Inductive Returned : Type :=
| One (s : option Subscription)
| Many (l : option (list Subscription)).

Definition is_nil (r : Returned) : bool :=
  match r with
  | One None | Many None => true
  | _ => false
  end.

Definition lift_one (m : M (option Subscription * option error))
  : M (Returned * option error) :=
  r ← m; ret (One (fst r), snd r).

Definition lift_many (m : M (option (list Subscription) * option error))
  : M (Returned * option error) :=
  r ← m; ret (Many (fst r), snd r).

Definition APIClient_call (env : Env) (c : APIClient) (ctx : http.Context)
    (call : Call) : M (Returned * option error) :=
  match call with
  | CallGetSubscription id cur =>
      lift_one (APIClient_.GetSubscription env c ctx id cur)
  | CallGetSubscriptionsByPurchase id =>
      lift_many (APIClient_.GetSubscriptionsByPurchase env c ctx id)
  | CallGetSubscriptionsForCustomer id =>
      lift_many (APIClient_.GetSubscriptionsForCustomer env c ctx id)
  end.

Definition BaseClient_call (env : Env) (c : BaseClient) (ctx : http.Context)
    (call : Call) : M (Returned * option error) :=
  match call with
  | CallGetSubscription id cur =>
      lift_one (BaseClient_.GetSubscription env c ctx id cur)
  | CallGetSubscriptionsByPurchase id =>
      lift_many (BaseClient_.GetSubscriptionsByPurchase env c ctx id)
  | CallGetSubscriptionsForCustomer id =>
      lift_many (BaseClient_.GetSubscriptionsForCustomer env c ctx id)
  end.

(** The path and the query parameters of a call. *)
Definition call_path (call : Call) : string :=
  match call with
  | CallGetSubscription _ _ => "/subscription/getsubscription"
  | CallGetSubscriptionsByPurchase _ => "/subscription/getsubscriptionsbypurchase"
  | CallGetSubscriptionsForCustomer _ => "/subscription/getsubscriptionsforcustomer"
  end.

Definition call_query (call : Call) : string :=
  match call with
  | CallGetSubscription id cur =>
      "isCurrent=" +:+ url.QueryEscape cur
        +:+ "&subscriptionId=" +:+ url.QueryEscape id
  | CallGetSubscriptionsByPurchase id => "purchaseId=" +:+ url.QueryEscape id
  | CallGetSubscriptionsForCustomer id => "customerId=" +:+ url.QueryEscape id
  end.

(** The three headers every request is meant to carry. *)
Definition auth_header_set (cfg : CleverbridgeConfig) : http.Header :=
  {[ "Authorization" :=
       [ "Basic " +:+ base64.EncodeToString
                        (ClientID cfg +:+ ":" +:+ ClientSecret cfg) ];
     "Content-Type" := [ "application/json" ];
     "Accept" := [ "application/json" ] ]}.

(** ** Sample surroundings for concrete runs *)

(** Text with ['] for the double quote, for readable JSON examples. *)
Definition js (s : string) : string :=
  string_map (fun c => if Ascii.eqb c "'" then dquote else c) s.

(** An environment in which files open, URLs parse, times are read by
    the strict RFC 3339 parser, and the peer always gives [answer]. *)
Definition env_answering (answer : http.Response + error) : Env :=
  mkEnv (fun _ => None) "2009/11/10 23:00:00" (fun _ => None)
    (fun s => match time.parseRFC3339 s with
              | Some t => inl t
              | None => inr (TimeError ("parsing time " +:+ fmt_q s))
              end)
    (fun _ _ => answer) (fun _ => "1ms").

Definition respond (status : string) (code : Z) (body : string)
  : http.Response + error :=
  inl (http.mkHTTPResponse status code
         {[ "Content-Type" := [ "application/json" ] ]} (http.mkBody body None)).

Definition sample_config : CleverbridgeConfig :=
  mkConfig "your_cleverbridge_client_id" "your_cleverbridge_client_secret"
    "https://rest.cleverbridge.com" true.

Definition sample_base : BaseClient :=
  mkBaseClient (BaseURL sample_config) sample_config.

Definition sample_api : APIClient :=
  mkAPIClient sample_base (Some (mkLogger true None Stdout)).

Definition quiet_api : APIClient :=
  mkAPIClient (mkBaseClient "https://rest.cleverbridge.com"
                 (mkConfig "id" "secret" "https://rest.cleverbridge.com" false))
    (Some (mkLogger false None Stdout)).


Definition sample_cb : CleverbridgeClient :=
  mkCleverbridgeClient sample_config (BaseURL sample_config)
    (Some (mkLogger false None Stdout)).

(** A [Logger.Debug] that writes one line when debug mode is on. *)
Definition sample_Debug (l : Logger) (message : string) (fields : list any)
  : list string :=
  if debug l then [ "DEBUG: " +:+ message +:+ encode.newline ] else [].

(** The request an operation hands to the transport: [GET] on the base
    URL, the path and the encoded query, with the three headers and no
    body. *)
Definition request_of (baseURL : string) (cfg : CleverbridgeConfig)
    (ctx : http.Context) (call : Call) : http.Request :=
  http.mkRequest "GET" (baseURL +:+ call_path call +:+ "?" +:+ call_query call)
    (auth_header_set cfg) None ctx.

(** The query parameters of a call, as the operations write them. *)
Definition call_params (call : Call) : gmap string string :=
  match call with
  | CallGetSubscription id cur =>
      {[ "subscriptionId" := id; "isCurrent" := cur ]}
  | CallGetSubscriptionsByPurchase id => {[ "purchaseId" := id ]}
  | CallGetSubscriptionsForCustomer id => {[ "customerId" := id ]}
  end.

(** ** What the scanner lets through, and what the decoder accepts *)

(** A byte that may stand for itself inside a JSON string. *)
Definition plain (c : ascii) : bool :=
  negb (Ascii.eqb c dquote) && negb (Ascii.eqb c backslash)
  && (32 <=? byte_val c).

(** The byte after a backslash in a two-byte escape. *)
Definition simple_escape (c : ascii) : bool :=
  existsb (Ascii.eqb c)
    [ "b"; "f"; "n"; "r"; "t"; backslash; "/"; dquote ]%char.

(** The text between the quotes of a string the scanner accepts: plain
    bytes, two-byte escapes, and [u] escapes of four hex digits. *)
Inductive wf_raw : list ascii -> Prop :=
| wf_nil : wf_raw []
| wf_plain c r : plain c = true -> wf_raw r -> wf_raw (c :: r)
| wf_esc e r :
    simple_escape e = true -> wf_raw r -> wf_raw (backslash :: e :: r)
| wf_u h1 h2 h3 h4 r :
    json.is_hex h1 = true -> json.is_hex h2 = true ->
    json.is_hex h3 = true -> json.is_hex h4 = true ->
    wf_raw r ->
    wf_raw (backslash :: "u"%char :: h1 :: h2 :: h3 :: h4 :: r).

Definition wf_string (raw : string) : Prop := wf_raw (list_ascii_of_string raw).

(** The first [k] bytes of [r] are there and are all high (128 or more),
    as the bytes of a rune after its first one are. *)
Fixpoint high_prefix (k : nat) (r : list ascii) : Prop :=
  match k with
  | O => True
  | S k' =>
      match r with
      | [] => False
      | c :: r' => 128 <= byte_val c /\ high_prefix k' r'
      end
  end.

(** Every string and every key of a value is such a text. *)
Fixpoint value_wf (v : json.Value) : Prop :=
  match v with
  | json.String_ raw => wf_string raw
  | json.Array elems =>
      (fix all (l : list json.Value) : Prop :=
         match l with
         | [] => True
         | x :: r => value_wf x /\ all r
         end) elems
  | json.Object members =>
      (fix all (l : list (string * json.Value)) : Prop :=
         match l with
         | [] => True
         | (k, x) :: r => wf_string k /\ value_wf x /\ all r
         end) members
  | _ => True
  end.

Definition member_wf (kv : string * json.Value) : Prop :=
  wf_string kv.1 /\ value_wf kv.2.

Definition frame_wf (f : json.Frame) : Prop :=
  match f with
  | json.parseObjectKey done key | json.parseObjectValue done key =>
      Forall member_wf done
      /\ match key with Some k => wf_string k | None => True end
  | json.parseArrayValue done => Forall value_wf done
  end.

(** What the scanner has accumulated is on its way to such a text. *)
Definition step_wf (st : json.Step) : Prop :=
  match st with
  | json.stateInString acc => wf_raw (rev acc)
  | json.stateInStringEsc acc =>
      exists acc', acc = backslash :: acc' /\ wf_raw (rev acc')
  | json.stateInStringEscU seen acc =>
      exists hs acc',
        acc = hs ++ "u"%char :: backslash :: acc'
        /\ length hs = seen /\ (seen <= 3)%nat
        /\ Forall (fun h => json.is_hex h = true) hs
        /\ wf_raw (rev acc')
  | json.stateLit v _ _ => value_wf v
  | _ => True
  end.

Definition scanner_wf (s : json.scanner) : Prop :=
  step_wf (json.step s)
  /\ Forall frame_wf (json.parseState s)
  /\ match json.top s with Some v => value_wf v | None => True end.

(** The Go types a field can have. *)
Inductive Kind : Type := KString | KFloat64 | KTime.

Definition kind {S} (f : decode.Field S) : Kind :=
  match f with
  | decode.StringField _ _ => KString
  | decode.Float64Field _ _ => KFloat64
  | decode.TimeField _ _ => KTime
  end.

(** A JSON value can be stored into a field of kind [k]: [null] into any;
    a string into a [string]; a number within the range of [float64] into
    a [float64]; a string the time parser accepts into a [time.Time]. *)
Definition fits (env : Env) (k : Kind) (v : json.Value) : Prop :=
  match v, k with
  | json.Null, _ => True
  | json.String_ _, KString => True
  | json.String_ raw, KTime => exists t, time_Parse env raw = inl t
  | json.Number lit, KFloat64 => is_Some (strconv.ParseFloat lit)
  | _, _ => False
  end.

(** A member of an object either names no field or fits the field it
    names. *)
Definition member_fits {S} (env : Env) (fields : list (decode.Field S))
    (kv : string * json.Value) : Prop :=
  forall key f,
    json.unquote kv.1 = Some key ->
    decode.find_field fields key = Some f ->
    fits env (kind f) kv.2.

(** The text is JSON and is [null] or an object all of whose members
    fit. *)
Definition decodes {S} (env : Env) (fields : list (decode.Field S))
    (data : string) : Prop :=
  exists v,
    json.checkValid data = inl v
    /\ match v with
       | json.Null => True
       | json.Object members => Forall (member_fits env fields) members
       | _ => False
       end.

(** ** Writing a value and reading it back *)

(** The bytes a number state of the scanner has read. *)
Definition number_acc (st : json.Step) : option (list ascii) :=
  match st with
  | json.stateNeg acc | json.state1 acc | json.state0 acc | json.stateDot acc
  | json.stateDot0 acc | json.stateE acc | json.stateESign acc
  | json.stateE0 acc => Some acc
  | _ => None
  end.

(** The number states in which the literal may end. *)
Definition number_end (st : json.Step) : bool :=
  match st with
  | json.state1 _ | json.state0 _ | json.stateDot0 _ | json.stateE0 _ => true
  | _ => false
  end.

(** The scanner reads the bytes as part of one number. *)
Fixpoint scan_number (st : json.Step) (l : list ascii) : option json.Step :=
  match l with
  | [] => Some st
  | c :: r =>
      match json.do_step (json.mkScanner st [] None) c with
      | inl s' =>
          match number_acc (json.step s') with
          | Some _ => scan_number (json.step s') r
          | None => None
          end
      | inr _ => None
      end
  end.

(** The text is a number literal for the scanner. *)
Definition number_literal (lit : string) : bool :=
  match scan_number json.stateBeginValue (list_ascii_of_string lit) with
  | Some st => number_end st
  | None => false
  end.

(** A [float64] written by the encoder and read by the decoder. *)
Definition float_read_back (f : strconv.float64) : option strconv.float64 :=
  match strconv.FormatFloat_json f with
  | Some lit => if number_literal lit then strconv.ParseFloat lit else None
  | None => None
  end.

(** A [time.Time] written by [MarshalJSON] and read by [UnmarshalJSON]. *)
Definition time_read_back (env : Env) (t : time.Time) : time.Time + error :=
  match time.appendStrictRFC3339 t with
  | inl b => time_Parse env b
  | inr msg => inr (TimeError ("Time.MarshalJSON: " +:+ msg))
  end.

(** Inside an object or an array, the scanner reads [text] as the value
    [v]. *)
Definition scans_as (text : string) (v : json.Value) : Prop :=
  forall ps c rest,
    c = ","%char \/ c = "}"%char ->
    json.run (json.mkScanner json.stateBeginValue ps None)
      (text +:+ String c rest)
    = match json.do_stateEndValue (json.complete v ps) c with
      | inl s' => json.run s' rest
      | inr e => inr e
      end.

(** A member of an encoded struct as text, and as the scanner reads
    it. *)
Definition member_text (m : string * string) : string :=
  encode.quote m.1 +:+ ":" +:+ m.2.

Definition member_value (m : string * string) (v : json.Value)
  : string * json.Value :=
  (encode.escape m.1, v).

(** The strings of a [Subscription] are valid UTF-8. *)
Definition valid_strings (s : Subscription) : Prop :=
  json.ValidString (ID s) = true /\ json.ValidString (Status s) = true
  /\ json.ValidString (Plan s) = true /\ json.ValidString (CustomerID s) = true
  /\ json.ValidString (ProductID s) = true
  /\ json.ValidString (Currency s) = true
  /\ json.ValidString (BillingCycle s) = true
  /\ json.ValidString (PurchaseID s) = true.

(** A subscription as the service describes one; the plan name holds a
    two-byte rune. *)
Definition sample_subscription : Subscription :=
  mkSubscription "S18577447" "active"
    ("Pr" +:+ String "195" (String "164" "mie"))
    (time.mkTime 1709251199 120000000 19800)
    "C-1001" "P-42"
    (time.mkTime 1711929600 0 0)
    (time.mkTime 1711929599 999999999 (-28800))
    (S754_finite false 7036874417766400 (-49))
    "EUR" "monthly" "187654321".

(** A subscription whose identifier is the single byte [0xff], which is
    not UTF-8, and the one that comes back for it, with U+FFFD in its
    place. *)
Definition broken_subscription : Subscription :=
  set_ID (String "255" "") Subscription_zero.

Definition replaced_subscription : Subscription :=
  set_ID (String "239" (String "191" (String "189" ""))) Subscription_zero.

(** A transport that is never reached. *)
Definition env_offline : Env := env_answering (inr (externalError "offline")).

(** What [json.Unmarshal] makes of what [json.Marshal] wrote. *)
Definition Marshal_Unmarshal (env : Env) (s : Subscription)
  : Subscription + error :=
  match encode.Marshal_Subscription s with
  | inl data => Unmarshal_Subscription env data
  | inr e => inr e
  end.

(** ** What a query string is made of *)

(** The bytes [QueryEscape] writes: the unreserved ones, [+] for a blank
    and [%] before two hex digits. *)
Definition query_safe (c : ascii) : bool :=
  is_alnum c || Ascii.eqb c "-" || Ascii.eqb c "_" || Ascii.eqb c "."
  || Ascii.eqb c "~" || Ascii.eqb c "+" || Ascii.eqb c "%".

(** [strings.Count(s, string(c))]. *)
Fixpoint count_char (c : ascii) (s : string) : nat :=
  match s with
  | EmptyString => 0
  | String x r => (if Ascii.eqb x c then 1 else 0) + count_char c r
  end.

(** How many query parameters a call has. *)
Definition call_arity (call : Call) : nat :=
  match call with
  | CallGetSubscription _ _ => 2
  | _ => 1
  end.

(** The position of a character in the alphabet of [StdEncoding], as its
    [decodeMap] holds it; 255 for a character outside the alphabet. *)
Definition decodeMap (c : ascii) : Z :=
  (fix find (tbl : string) (i : Z) : Z :=
     match tbl with
     | EmptyString => 255
     | String x r => if Ascii.eqb x c then i else find r (i + 1)
     end) base64.encodeStd 0.

(** The text whose encoding [getBasicAuth] returns. *)
Definition userinfo (cfg : CleverbridgeConfig) : string :=
  ClientID cfg +:+ ":" +:+ ClientSecret cfg.

(** ** One round trip, logging aside *)

Inductive Exchange : Type :=
| NotSent (err : error)                         (* no request could be built *)
| NoAnswer (err : error)                        (* the transport failed *)
| Unread (resp : http.Response) (err : error)   (* draining the body failed *)
| Answered (resp : http.Response) (body : string).

(** What becomes of [req] when the transport has already been handed
    [hist]. *)
Definition exchange (env : Env) (hist : list http.Request) (req : http.Request)
  : Exchange :=
  match url_Parse env (http.URL req) with
  | Some err => NotSent err
  | None =>
      match client_Do env hist req with
      | inr err => NoAnswer err
      | inl resp =>
          match io_ReadAll (http.Body resp) with
          | (_, Some err) => Unread resp err
          | (body, None) => Answered resp body
          end
      end
  end.

(** The requests the exchange hands to the transport. *)
Definition handed (x : Exchange) (req : http.Request) : list http.Request :=
  match x with
  | NotSent _ => []
  | _ => [req]
  end.

(** What [APIClient.sendRequest] returns for an exchange. *)
Definition sendRequest_result (x : Exchange) : option string * option error :=
  match x with
  | NotSent err => (None, Some (Errorf_w "failed to create request: " err))
  | NoAnswer err => (None, Some (Errorf_w "request failed: " err))
  | Unread _ err => (None, Some (Errorf_w "failed to read response: " err))
  | Answered resp body =>
      if 400 <=? http.StatusCode resp then
        (None, Some (errorString
                 ("API error: status " +:+ fmt_d (http.StatusCode resp)
                  +:+ ", body: " +:+ body)))
      else (Some body, None)
  end.

(** What [BaseClient.SendRequest] returns for an exchange. *)
Definition SendRequest_result (x : Exchange) : option Response * option error :=
  match x with
  | NotSent err => (None, Some (Errorf_w "failed to create request: " err))
  | NoAnswer err => (None, Some (Errorf_w "request failed: " err))
  | Unread _ err => (None, Some (Errorf_w "failed to read response: " err))
  | Answered resp body =>
      let response :=
        mkResponse (http.StatusCode resp) body (http.RespHeader resp) in
      if 400 <=? http.StatusCode resp then
        (Some response,
         Some (errorString
                 ("API error: status " +:+ fmt_d (http.StatusCode resp)
                  +:+ ", body: " +:+ body)))
      else (Some response, None)
  end.

(** What an operation returns for an exchange; the same for an
    [APIClient] and a [BaseClient]. *)
Definition call_result (env : Env) (call : Call) (x : Exchange)
  : Returned * option error :=
  match call, sendRequest_result x with
  | CallGetSubscription _ _, (_, Some err) =>
      (One None, Some (Errorf_w "failed to get subscription: " err))
  | CallGetSubscriptionsByPurchase _, (_, Some err) =>
      (Many None,
       Some (Errorf_w "failed to get subscriptions by purchase: " err))
  | CallGetSubscriptionsForCustomer _, (_, Some err) =>
      (Many None,
       Some (Errorf_w "failed to get subscriptions for customer: " err))
  | CallGetSubscription _ _, (body, None) =>
      match Unmarshal_Subscription env (default "" body) with
      | inr err => (One None, Some (Errorf_w "failed to parse subscription: " err))
      | inl subscription => (One (Some subscription), None)
      end
  | _, (body, None) =>
      match Unmarshal_Subscriptions env (default "" body) with
      | inr err => (Many None, Some (Errorf_w "failed to parse subscriptions: " err))
      | inl subscriptions => (Many subscriptions, None)
      end
  end.

(** A request carries the three headers, each once, and no other. *)
Definition carries_auth (cfg : CleverbridgeConfig) (req : http.Request) : Prop :=
  http.ReqHeader req !! "Authorization"
    = Some [ "Basic " +:+ base64.EncodeToString
                            (ClientID cfg +:+ ":" +:+ ClientSecret cfg) ]
  /\ http.ReqHeader req !! "Content-Type" = Some [ "application/json" ]
  /\ http.ReqHeader req !! "Accept" = Some [ "application/json" ]
  /\ dom (http.ReqHeader req)
     = ({[ "Authorization"; "Content-Type"; "Accept" ]} : gset string).

(** The request body an optional [interface{}] marshals to, if it does. *)
Definition marshalled (body : option Marshalable) : option (option string) :=
  match body with
  | None => Some None
  | Some b =>
      match marshal b with
      | inl jsonData => Some (Some jsonData)
      | inr _ => None
      end
  end.

(** The three header calls of [APIClient.sendRequest]. *)
Definition with_auth (cfg : CleverbridgeConfig) (req : http.Request)
  : http.Request :=
  http.SetHeader
    (http.SetHeader
       (http.SetHeader req "Authorization" ("Basic " +:+ getBasicAuth cfg))
       "Content-Type" "application/json")
    "Accept" "application/json".

(** The three header calls of [CleverbridgeDoRequest]. *)
Definition with_basic_auth (cfg : CleverbridgeConfig) (req : http.Request)
  : http.Request :=
  http.SetHeader
    (http.SetHeader
       (http.SetBasicAuth req (ClientID cfg) (ClientSecret cfg))
       "Content-Type" "application/json")
    "Accept" "application/json".

(** The peer answered with a status below 400 and the JSON text [null]. *)
Definition null_answer (x : Exchange) : Prop :=
  exists resp body,
    x = Answered resp body
    /\ http.StatusCode resp < 400
    /\ json.checkValid body = inl json.Null.

(** A returned pair is never a value with an error. An operation that
    returns one subscription never returns nil with a nil error; one that
    returns a sequence does so exactly on a [null_answer]. *)
Definition value_xor_error (call : Call) (x : Exchange) (v : Returned)
    (e : option error) : Prop :=
  (e <> None -> is_nil v = true)
  /\ match call with
     | CallGetSubscription _ _ => e = None -> is_nil v = false
     | _ => (e = None /\ is_nil v = true) <-> null_answer x
     end.

(** What an operation returns beside an error. *)
Definition nil_result (call : Call) : Returned :=
  match call with
  | CallGetSubscription _ _ => One None
  | _ => Many None
  end.

(** The words an operation puts before a failure of its request and
    before a failure to decode the answer. *)
Definition request_prefix (call : Call) : string :=
  match call with
  | CallGetSubscription _ _ => "failed to get subscription: "
  | CallGetSubscriptionsByPurchase _ =>
      "failed to get subscriptions by purchase: "
  | CallGetSubscriptionsForCustomer _ =>
      "failed to get subscriptions for customer: "
  end.

Definition parse_prefix (call : Call) : string :=
  match call with
  | CallGetSubscription _ _ => "failed to parse subscription: "
  | _ => "failed to parse subscriptions: "
  end.

(** An exchange that ended before a response was read: the words
    [sendRequest] puts before the cause, and the cause. *)
Definition failed_exchange (x : Exchange) : option (string * error) :=
  match x with
  | NotSent err => Some ("failed to create request: ", err)
  | NoAnswer err => Some ("request failed: ", err)
  | Unread _ err => Some ("failed to read response: ", err)
  | Answered _ _ => None
  end.

(** One element of a JSON array decodes, from the zero value, into [x]
    without a mismatch. *)
Definition element_of (env : Env) (v : json.Value) (x : Subscription) : Prop :=
  decode.struct_value env "client.Subscription" "Subscription"
    Subscription_fields v Subscription_zero None = inl (x, None).

(** ** The program (main.go) *)

(** [NewBaseClient] (part_000); the HTTP client it makes is the
    transport of the environment. *)
Definition NewBaseClient (config : CleverbridgeConfig) : BaseClient :=
  mkBaseClient (BaseURL config) config.

(** [for i, sub := range subs { fmt.Printf(...) }], the lines numbered
    from [i + 1]. *)
Fixpoint print_each (line : Z -> Subscription -> string) (i : Z)
    (subs : list Subscription) : M unit :=
  match subs with
  | [] => ret tt
  | sub :: rest => Printf (line (i + 1) sub);; print_each line (i + 1) rest
  end.

(** The three requests of [main], in its order. *)
Definition main_calls : list Call :=
  [ CallGetSubscription "S18577447" "false";
    CallGetSubscriptionsByPurchase "P123456789";
    CallGetSubscriptionsForCustomer "CUST12345" ].

Definition main (env : Env) : M unit :=
  let config :=
    mkConfig "your_cleverbridge_client_id" "your_cleverbridge_client_secret"
      "https://rest.cleverbridge.com" true in
  let cbClient := NewBaseClient config in
  let ctx := http.Background in
  r ← BaseClient_.GetSubscription env cbClient ctx "S18577447" "false";
  match r with
  | (_, Some err) =>
      log_Printf env ("⚠️ Error getting subscription: " +:+ Error_ err)
  | (subscription, None) =>
      subscription ← deref subscription;
      Printf ("✅ Subscription: ID=" +:+ ID subscription +:+ ", Status="
              +:+ Status subscription +:+ ", Plan=" +:+ Plan subscription
              +:+ encode.newline)
  end;;
  r ← BaseClient_.GetSubscriptionsByPurchase env cbClient ctx "P123456789";
  match r with
  | (_, Some err) =>
      log_Printf env ("⚠️ Error getting subscriptions by purchase: "
                      +:+ Error_ err)
  | (purchaseSubscriptions, None) =>
      let purchaseSubscriptions := default [] purchaseSubscriptions in
      Printf ("✅ Found " +:+ fmt_d (Z.of_nat (length purchaseSubscriptions))
              +:+ " subscriptions for purchase" +:+ encode.newline);;
      print_each
        (fun i sub => "   " +:+ fmt_d i +:+ ". " +:+ ID sub +:+ " - "
                      +:+ Status sub +:+ encode.newline)
        0 purchaseSubscriptions
  end;;
  r ← BaseClient_.GetSubscriptionsForCustomer env cbClient ctx "CUST12345";
  match r with
  | (_, Some err) =>
      log_Printf env ("⚠️ Error getting subscriptions for customer: "
                      +:+ Error_ err)
  | (customerSubscriptions, None) =>
      let customerSubscriptions := default [] customerSubscriptions in
      Printf ("✅ Found " +:+ fmt_d (Z.of_nat (length customerSubscriptions))
              +:+ " subscriptions for customer" +:+ encode.newline);;
      print_each
        (fun i sub => "   " +:+ fmt_d i +:+ ". " +:+ ID sub +:+ " - "
                      +:+ Status sub +:+ " - " +:+ Plan sub +:+ encode.newline)
        0 customerSubscriptions
  end.

(** The requests among [reqs] whose URL the parser accepts. *)
Definition buildable (env : Env) (reqs : list http.Request) : list http.Request :=
  filter (fun req => url_Parse env (http.URL req) = None) reqs.

(** What is left of a literal the scanner is reading is lower-case
    letters, at least one. *)
Definition literal_pending (st : json.Step) : Prop :=
  match st with
  | json.stateLit _ _ rest => string_forallb is_lower rest = true /\ rest <> ""
  | _ => True
  end.

(** ** The lines of the logger *)

(** The order in which the keys of a map are written. *)
Definition leb_rel (a b : string) : Prop := String.leb a b = true.

(** What a sink holds of what it was given: the lines on the console, or
    the lines written through the descriptor of the file. *)
Definition received (w : Writer) (σ : World) : list string :=
  match w with
  | Stdout => stdout σ
  | FileWriter f =>
      match files σ !! fd f with
      | Some st => written st
      | None => []
      end
  end.

(** The sink takes what it is handed: the console does, a file does while
    it is open. *)
Definition accepting (w : Writer) (σ : World) : bool :=
  match w with
  | Stdout => true
  | FileWriter f =>
      match files σ !! fd f with
      | Some st => is_open st
      | None => false
      end
  end.

(** A logger on [app.log] that has been closed, and what comes of a
    [Warn], an [Error] and an [Info] on it. *)
Definition closed_logger_run (env : Env) : M Logger :=
  l ← NewLogger env true "app.log";
  Logger_.Close l;;
  Logger_.Warn l "disk almost full" [];;
  Logger_.Error l "request failed" (Some (errorString "timeout")) [];;
  Logger_.Info l "done" [];;
  ret l.

(** The line an [Error] call writes. *)
Definition error_line (msg : string) (err : option error) (fields : list any)
  : string :=
  Logger_.with_fields
    (match err with
     | Some e => ("ERROR: " +:+ msg) +:+ " - " +:+ Error_ e
     | None => "ERROR: " +:+ msg
     end) fields +:+ encode.newline.

(** [strings.HasPrefix(s, prefix)]. *)
Definition HasPrefix (s prefix : string) : Prop :=
  exists rest, s = prefix +:+ rest.

(** The world [σ'] differs from [σ] in what it was given to write by
    these lines, handed to the writer [w] one after the other. *)
Definition wrote (w : Writer) (lines : list string) (σ σ' : World) : Prop :=
  writes σ' = writes σ ++ map (fun line => (w, line)) lines.

(** How many lines an operation of an [APIClient] logs at the level of
    errors: two when its request fails, one when the answer cannot be
    decoded, none when it succeeds. *)
Definition error_count (env : Env) (call : Call) (x : Exchange) : nat :=
  match snd (sendRequest_result x), snd (call_result env call x) with
  | Some _, _ => 2
  | None, Some _ => 1
  | None, None => 0
  end.

(** ** Reading runs of [M] *)

(** [m] hands nothing to the transport, and returns when [ok] holds. *)
Definition quiet (ok : Prop) (m : M unit) : Prop :=
  forall σ, sent (m σ).2 = sent σ /\ (ok -> (m σ).1 = Some tt).


(** [wp m Q σ]: the run of [m] from [σ] ends in a result and a world that
    satisfy [Q]. *)
Definition wp {A} (m : M A) (Q : option A -> World -> Prop) (σ : World) : Prop :=
  Q (m σ).1 (m σ).2.

(** Every run of [m] hands at most [n] requests to the transport, each
    satisfying [P], and leaves the earlier ones in place. *)
Definition sends {A} (n : nat) (P : http.Request -> Prop) (m : M A) : Prop :=
  forall σ, exists new,
    sent (m σ).2 = sent σ ++ new /\ (length new <= n)%nat /\ Forall P new.

(** * Properties *)

(** ** The monad *)

Lemma wp_ret {A} (a : A) Q σ : Q (Some a) σ -> wp (ret a) Q σ.
Proof. exact (fun H => H). Qed.

Lemma wp_panic {A} (Q : option A -> World -> Prop) σ :
  Q None σ -> wp panic Q σ.
Proof. exact (fun H => H). Qed.

Lemma wp_bind {A B} (m : M A) (k : A -> M B) Q σ :
  wp m (fun r σ' => match r with
                    | Some a => wp (k a) Q σ'
                    | None => Q None σ'
                    end) σ ->
  wp (m ≫= k) Q σ.
Proof.
  unfold wp, mbind, M_bind. destruct (m σ) as [[a|] σ']; simpl; auto.
Qed.

Lemma wp_mono {A} (m : M A) (Q Q' : option A -> World -> Prop) σ :
  wp m Q σ -> (forall r σ', Q r σ' -> Q' r σ') -> wp m Q' σ.
Proof. unfold wp. auto. Qed.

Lemma wp_deref {A} (p : option A) Q σ :
  match p with Some a => Q (Some a) σ | None => Q None σ end ->
  wp (deref p) Q σ.
Proof. destruct p; exact (fun H => H). Qed.

(** ** The world under logging *)

Lemma sent_deliver w p σ : sent (deliver w p σ) = sent σ.
Proof.
  unfold deliver. destruct w as [|f]; [reflexivity|].
  destruct (files σ !! fd f) as [st|]; [|reflexivity].
  destruct (is_open st); reflexivity.
Qed.

Lemma writes_deliver w p σ : writes (deliver w p σ) = writes σ.
Proof.
  unfold deliver. destruct w as [|f]; [reflexivity|].
  destruct (files σ !! fd f) as [st|]; [|reflexivity].
  destruct (is_open st); reflexivity.
Qed.

Lemma write_run w p σ :
  exists σ', write w p σ = (Some tt, σ')
             /\ sent σ' = sent σ
             /\ writes σ' = writes σ ++ [(w, p)].
Proof.
  eexists. split; [reflexivity|].
  rewrite sent_deliver, writes_deliver. simpl. split; reflexivity.
Qed.

(** Writing to the console or to a file that is open stores the text. *)
Lemma write_stdout p σ : stdout (write Stdout p σ).2 = stdout σ ++ [p].
Proof. reflexivity. Qed.

Lemma write_open_file f p σ st :
  files σ !! fd f = Some st -> is_open st = true ->
  files (write (FileWriter f) p σ).2 !! fd f
    = Some (mkFileState true (written st ++ [p])).
Proof.
  intros Hf Ho. unfold write, modify, deliver. simpl.
  rewrite Hf, Ho. simpl. apply lookup_insert_eq.
Qed.

Lemma write_closed_file f p σ st :
  files σ !! fd f = Some st -> is_open st = false ->
  files (write (FileWriter f) p σ).2 = files σ
  /\ stdout (write (FileWriter f) p σ).2 = stdout σ.
Proof.
  intros Hf Ho. unfold write, modify, deliver. simpl.
  rewrite Hf, Ho. simpl. split; reflexivity.
Qed.

(** ** The logger *)

(** The line a logging call writes. *)
Lemma Info_run l message fields σ :
  Logger_.Info l message fields σ =
    if debug l then
      write (writer l)
        (Logger_.with_fields ("INFO: " +:+ message) fields +:+ encode.newline) σ
    else (Some tt, σ).
Proof. unfold Logger_.Info. destruct (debug l); reflexivity. Qed.

Lemma Warn_run l message fields σ :
  Logger_.Warn l message fields σ =
    write (writer l)
      (Logger_.with_fields ("WARN: " +:+ message) fields +:+ encode.newline) σ.
Proof. reflexivity. Qed.

Lemma Error_run l message err fields σ :
  Logger_.Error l message err fields σ =
    write (writer l)
      (Logger_.with_fields
         (match err with
          | Some e => ("ERROR: " +:+ message) +:+ " - " +:+ Error_ e
          | None => "ERROR: " +:+ message
          end) fields +:+ encode.newline) σ.
Proof. unfold Logger_.Error. destruct err; reflexivity. Qed.

Lemma append_cons c (a b : string) : String c a +:+ b = String c (a +:+ b).
Proof. reflexivity. Qed.

Lemma append_nil_l (a : string) : "" +:+ a = a.
Proof. reflexivity. Qed.

Lemma append_assoc (a b c : string) : (a +:+ b) +:+ c = a +:+ (b +:+ c).
Proof.
  induction a as [|x a IH]; [reflexivity|].
  rewrite !append_cons. now rewrite IH.
Qed.

Lemma append_empty_r (a : string) : a +:+ "" = a.
Proof.
  induction a as [|x a IH]; [reflexivity|].
  rewrite append_cons. now rewrite IH.
Qed.

Lemma Contains_refl s : Contains s s.
Proof. exists "", "". rewrite append_nil_l. symmetry. apply append_empty_r. Qed.

Lemma Contains_prefix pre s sub : Contains s sub -> Contains (pre +:+ s) sub.
Proof.
  intros (a & b & ->). exists (pre +:+ a), b. symmetry. apply append_assoc.
Qed.

Lemma Contains_suffix s post sub : Contains s sub -> Contains (s +:+ post) sub.
Proof.
  intros (a & b & ->). exists a, (b +:+ post).
  now rewrite !append_assoc.
Qed.

Lemma Contains_with_fields msg fields sub :
  Contains msg sub -> Contains (Logger_.with_fields msg fields) sub.
Proof.
  unfold Logger_.with_fields. destruct (0 <? Z.of_nat (length fields)); auto.
  apply Contains_suffix.
Qed.

(** A sink that accepts receives what it is handed, and goes on
    accepting. *)
Lemma write_received w p σ :
  accepting w σ = true ->
  write w p σ = (Some tt, (write w p σ).2)
  /\ received w (write w p σ).2 = received w σ ++ [p].
Proof.
  intros Hw. split; [reflexivity|].
  unfold write, modify, deliver, received, accepting in *.
  destruct w as [|f]; cbn [snd files stdout]; [reflexivity|].
  destruct (files σ !! fd f) as [st|]; [|discriminate].
  rewrite Hw. cbn [files]. rewrite lookup_insert_eq. reflexivity.
Qed.

(** A sink that does not accept keeps nothing, and nothing goes
    elsewhere. *)
Lemma write_refused w p σ :
  accepting w σ = false ->
  received w (write w p σ).2 = received w σ
  /\ stdout (write w p σ).2 = stdout σ
  /\ stderr (write w p σ).2 = stderr σ
  /\ files (write w p σ).2 = files σ.
Proof.
  intros Hw.
  unfold write, modify, deliver, received, accepting in *.
  destruct w as [|f]; [discriminate|]. cbn [snd files stdout stderr].
  destruct (files σ !! fd f) as [st|] eqn:Hf; cbn [files stdout stderr];
    [rewrite Hw; cbn [files stdout stderr]|]; rewrite ?Hf; auto.
Qed.

(** C8 as stated fails for a logger whose file has been closed: a
    [Warn], an [Error] and an [Info] with debug mode on are handed to the
    writer, which refuses them; nothing is in the file, on the console or
    on standard error afterwards. *)
Lemma C8_closed_logger_is_silent :
  exists l σ',
    closed_logger_run env_offline empty_world = (Some l, σ')
    /\ l = mkLogger true (Some (mkFile 0 "app.log"))
             (FileWriter (mkFile 0 "app.log"))
    /\ map snd (writes σ')
       = [ "WARN: disk almost full" +:+ encode.newline;
           "ERROR: request failed - timeout" +:+ encode.newline;
           "INFO: done" +:+ encode.newline ]
    /\ files σ' !! 0%nat = Some (mkFileState false [])
    /\ received (writer l) σ' = []
    /\ stdout σ' = [] /\ stderr σ' = [].
Proof.
  eexists. eexists. split; [vm_compute; reflexivity|].
  repeat split; vm_compute; reflexivity.
Qed.

(** C8, amended. Let the sink of the logger accept what it is handed: it
    is the console, or the log file while that is open. Then for every
    message and fields: [Info] leaves one line in the sink when debug mode
    is on and leaves the world untouched when it is off; [Warn] and
    [Error] leave one line in the sink whatever the debug flag; the line
    begins with the level and the message, and the line of [Error]
    carries the text of the cause when a cause is given. *)
Theorem C8_logger_levels (l : Logger) (message : string) (fields : list any)
    (err : option error) (σ : World)
    (Hsink : accepting (writer l) σ = true) :
  let out := received (writer l) in
  let info := Logger_.Info l message fields σ in
  let warn := Logger_.Warn l message fields σ in
  let error := Logger_.Error l message err fields σ in
  (info.1 = Some tt
   /\ if debug l then
        exists line,
          out info.2 = out σ ++ [line]
          /\ line = Logger_.with_fields ("INFO: " +:+ message) fields
                    +:+ encode.newline
          /\ Contains line ("INFO: " +:+ message)
      else info.2 = σ)
  /\ (warn.1 = Some tt
      /\ exists line,
           out warn.2 = out σ ++ [line]
           /\ line = Logger_.with_fields ("WARN: " +:+ message) fields
                     +:+ encode.newline
           /\ Contains line ("WARN: " +:+ message))
  /\ (error.1 = Some tt
      /\ exists line,
           out error.2 = out σ ++ [line]
           /\ line = error_line message err fields
           /\ Contains line ("ERROR: " +:+ message)
           /\ match err with
              | Some e => Contains line (" - " +:+ Error_ e)
              | None => True
              end).
Proof.
  cbv zeta. rewrite Info_run, Warn_run, Error_run.
  split; [|split].
  - destruct (debug l); [|split; reflexivity].
    destruct (write_received (writer l)
                (Logger_.with_fields ("INFO: " +:+ message) fields
                 +:+ encode.newline) σ Hsink) as [Hr Ho].
    split; [rewrite Hr; reflexivity|].
    eexists; split; [exact Ho|]. split; [reflexivity|].
    apply Contains_suffix, Contains_with_fields, Contains_refl.
  - destruct (write_received (writer l)
                (Logger_.with_fields ("WARN: " +:+ message) fields
                 +:+ encode.newline) σ Hsink) as [Hr Ho].
    split; [rewrite Hr; reflexivity|].
    eexists; split; [exact Ho|]. split; [reflexivity|].
    apply Contains_suffix, Contains_with_fields, Contains_refl.
  - match goal with
    | |- context [write ?w ?p σ] =>
        destruct (write_received w p σ Hsink) as [Hr Ho]
    end.
    split; [rewrite Hr; reflexivity|].
    eexists; split; [exact Ho|]. split; [reflexivity|].
    destruct err as [e|]; split; try exact I.
    + apply Contains_suffix, Contains_with_fields, Contains_suffix,
        Contains_refl.
    + apply Contains_suffix, Contains_with_fields.
      exists ("ERROR: " +:+ message), "".
      now rewrite append_empty_r.
    + apply Contains_suffix, Contains_with_fields, Contains_refl.
Qed.

Lemma C8_witness :
  let l := mkLogger false None Stdout in
  accepting (writer l) empty_world = true
  /\ exists line,
       stdout (Logger_.Error l "request failed"
                 (Some (errorString "timeout")) [] empty_world).2 = [line]
       /\ line = "ERROR: request failed - timeout" +:+ encode.newline.
Proof.
  intros l. split; [reflexivity|].
  destruct (C8_logger_levels l "request failed" []
              (Some (errorString "timeout")) empty_world eq_refl)
    as (_ & _ & _ & line & Hout & Hline & _).
  exists line. split; [exact Hout|]. rewrite Hline. reflexivity.
Defined.

(** What [Info] leaves on the console of a console-backed logger. *)
Lemma Info_console l message fields σ :
  writer l = Stdout ->
  stdout (Logger_.Info l message fields σ).2 =
    if debug l then
      stdout σ ++ [Logger_.with_fields ("INFO: " +:+ message) fields
                   +:+ encode.newline]
    else stdout σ.
Proof.
  intros Hw. rewrite Info_run, Hw. destruct (debug l); reflexivity.
Qed.

(** After [Close], the lines a file-backed logger writes are lost. *)
Lemma Error_after_close l f st message err fields σ :
  writer l = FileWriter f ->
  files σ !! fd f = Some st -> is_open st = false ->
  files (Logger_.Error l message err fields σ).2 = files σ
  /\ stdout (Logger_.Error l message err fields σ).2 = stdout σ.
Proof.
  intros Hw Hf Ho. rewrite Error_run, Hw.
  eapply write_closed_file; eauto.
Qed.

(** ** Closing the logger *)

Lemma Close_console l σ :
  logFile l = None -> Logger_.Close l σ = (Some None, σ).
Proof. unfold Logger_.Close. now intros ->. Qed.

Lemma Close_open_file l f st σ :
  logFile l = Some f ->
  files σ !! fd f = Some st -> is_open st = true ->
  exists σ', Logger_.Close l σ = (Some None, σ')
             /\ files σ' !! fd f = Some (mkFileState false (written st)).
Proof.
  intros Hl Hf Ho. unfold Logger_.Close, File_Close. rewrite Hl, Hf, Ho.
  eexists; split; [reflexivity|]. simpl. apply lookup_insert_eq.
Qed.

Lemma Close_closed_file l f st σ :
  logFile l = Some f ->
  files σ !! fd f = Some st -> is_open st = false ->
  Logger_.Close l σ =
    (Some (Some (externalError
                   ("close " +:+ fname f +:+ ": file already closed"))), σ).
Proof.
  intros Hl Hf Ho. unfold Logger_.Close, File_Close. now rewrite Hl, Hf, Ho.
Qed.

(** A second [Close] of a file-backed logger finds the handle still set
    and closes the file again, which the operating system refuses. *)
Lemma Close_twice_file l f st σ :
  logFile l = Some f ->
  files σ !! fd f = Some st -> is_open st = true ->
  exists σ' err,
    Logger_.Close l σ = (Some None, σ')
    /\ Logger_.Close l σ' = (Some (Some err), σ').
Proof.
  intros Hl Hf Ho.
  destruct (Close_open_file l f st σ Hl Hf Ho) as (σ' & H1 & H2).
  exists σ'. eexists. split; [exact H1|].
  eapply Close_closed_file; eauto.
Qed.

(** The logger of an [APIClient] made by [NewAPIClient] writes to the
    console, so closing the client never fails, however often. *)
Lemma NewAPIClient_Close env cfg σ :
  exists c σ', APIClient_.NewAPIClient env cfg σ = (Some c, σ')
    /\ forall σ'', APIClient_.Close c σ'' = (Some None, σ'').
Proof.
  eexists. eexists. split; [reflexivity|]. intros. reflexivity.
Qed.

(** C9. A logger opened on the file [app.log] is closed twice: the first
    [Close] returns no error, the second one returns the error of closing
    a file that is already closed. *)
Lemma C9_second_close_fails :
  ((l ← NewLogger (env_answering (respond "200 OK" 200 "")) false "app.log";
    e1 ← Logger_.Close l;
    e2 ← Logger_.Close l;
    mret (logFile l, e1, e2)) empty_world).1
  = Some (Some (mkFile 0 "app.log"), None,
          Some (externalError "close app.log: file already closed")).
Proof. vm_compute. reflexivity. Qed.

(** ** Steps that only log *)

Lemma wp_quiet ok (m : M unit) Q σ :
  quiet ok m ->
  (forall r σ', sent σ' = sent σ -> (ok -> r = Some tt) -> Q r σ') ->
  wp m Q σ.
Proof. intros Hq H. destruct (Hq σ). apply H; auto. Qed.

Lemma quiet_weaken (ok ok' : Prop) m : (ok' -> ok) -> quiet ok m -> quiet ok' m.
Proof. intros Hi Hq σ. destruct (Hq σ). auto. Qed.

Lemma quiet_ret : quiet True (ret tt).
Proof. intros σ. split; reflexivity. Qed.

Lemma quiet_write w p : quiet True (write w p).
Proof.
  intros σ. destruct (write_run w p σ) as (σ' & -> & Hs & _). auto.
Qed.

Lemma quiet_bind ok (m : M unit) (k : unit -> M unit) :
  quiet ok m -> (forall u, quiet ok (k u)) -> quiet ok (m ≫= k).
Proof.
  intros Hm Hk σ. unfold mbind, M_bind.
  destruct (Hm σ) as [Hs Hr]. destruct (m σ) as [[u|] σ']; simpl in *.
  - destruct (Hk u σ') as [Hs' Hr']. split; [congruence|auto].
  - split; [assumption|]. intros H. specialize (Hr H). discriminate.
Qed.

Lemma quiet_when b ok m : quiet ok m -> quiet ok (when b m).
Proof.
  intros H. destruct b; [exact H|]. intros σ. split; reflexivity.
Qed.

Lemma quiet_Logger_Info l msg fields : quiet True (Logger_.Info l msg fields).
Proof.
  intros σ. rewrite Info_run. destruct (debug l); [apply quiet_write|].
  split; reflexivity.
Qed.

Lemma quiet_Logger_Error l msg err fields :
  quiet True (Logger_.Error l msg err fields).
Proof. intros σ. rewrite Error_run. apply quiet_write. Qed.

Lemma quiet_Logger_Json l data : quiet True (Logger_Json l data).
Proof.
  unfold Logger_Json. destruct (debug l); [|apply quiet_ret].
  destruct (encode.MarshalIndent_map data);
    [apply quiet_write | apply quiet_Logger_Error].
Qed.

Lemma quiet_deref {A} (p : option A) (k : A -> M unit) :
  (forall a, quiet True (k a)) -> quiet (is_Some p) (deref p ≫= k).
Proof.
  intros Hk σ. destruct p as [a|]; simpl.
  - destruct (Hk a σ) as [Hs Hr]. split; [exact Hs|auto].
  - split; [reflexivity|]. intros [? ?]. discriminate.
Qed.

Lemma quiet_Info c msg fields :
  quiet (is_Some (logger c)) (APIClient_.Info c msg fields).
Proof. apply quiet_deref. intros. apply quiet_Logger_Info. Qed.

Lemma quiet_Error c msg err fields :
  quiet (is_Some (logger c)) (APIClient_.Error c msg err fields).
Proof. apply quiet_deref. intros. apply quiet_Logger_Error. Qed.

Lemma quiet_Json c data : quiet (is_Some (logger c)) (APIClient_.Json c data).
Proof. apply quiet_deref. intros. apply quiet_Logger_Json. Qed.

Lemma quiet_Printf msg : quiet True (Printf msg).
Proof. apply quiet_write. Qed.

Lemma quiet_when_Json b c data :
  quiet (is_Some (logger c)) (when b (APIClient_.Json c data)).
Proof. apply quiet_when, quiet_Json. Qed.

Lemma quiet_when_Printf b msg : quiet True (when b (Printf msg)).
Proof. apply quiet_when, quiet_Printf. Qed.

Lemma quiet_cb_Error c msg err fields :
  quiet (is_Some (cb_logger c)) (cb_Error c msg err fields).
Proof. apply quiet_deref. intros. apply quiet_Logger_Error. Qed.

Lemma quiet_Logger_Debug lines l msg fields :
  quiet True (Logger_Debug lines l msg fields).
Proof.
  unfold Logger_Debug. induction (lines l msg fields) as [|x r IH]; simpl.
  - apply quiet_ret.
  - apply quiet_bind; [apply quiet_write | intros; exact IH].
Qed.

Lemma wp_Do env req Q σ :
  Q (Some (client_Do env (sent σ) req))
    (mkWorld (writes σ) (stdout σ) (stderr σ) (files σ) (sent σ ++ [req])) ->
  wp (Do env req) Q σ.
Proof. exact (fun H => H). Qed.

(** ** The URL and the headers of a call *)

Lemma eqb_cons_empty c s : String.eqb (String c s) "" = false.
Proof. reflexivity. Qed.

Lemma encode_key_one buf k v :
  url.encode_key buf k [v] =
  (if String.eqb buf "" then buf else buf +:+ "&")
    +:+ k +:+ "=" +:+ url.QueryEscape v.
Proof. reflexivity. Qed.

(** Evaluate the lookups of a map whose keys are literals. *)
Ltac eval_lookups :=
  repeat match goal with
  | |- context [@lookup string ?V (gmap string ?V) _ ?k ?m] =>
      let v := fresh "v" in
      evar (v : option V);
      replace (@lookup string V (gmap string V) _ k m) with v
        by (subst v; vm_compute; reflexivity);
      subst v
  end.

Ltac eval_term t :=
  let v := fresh "v" in
  let T := type of t in
  evar (v : T);
  replace t with v by (subst v; vm_compute; reflexivity);
  subst v.

Lemma Encode_single (k v : string) :
  url.Encode (range_Add (map_to_list ({[ k := v ]} : gmap string string)))
  = url.QueryEscape k +:+ "=" +:+ url.QueryEscape v.
Proof.
  rewrite map_to_list_singleton. unfold range_Add. cbn [fold_left fst snd].
  unfold url.Add. rewrite lookup_empty. cbn [from_option app].
  rewrite insert_empty. unfold url.Encode. rewrite map_to_list_singleton.
  cbn [map fst url.sort_keys foldr url.insert_sorted fold_left].
  rewrite lookup_singleton_eq. cbn [from_option]. unfold Datatypes.id.
  rewrite encode_key_one. reflexivity.
Qed.

Lemma fullURL_call base call :
  fullURL_of base (call_path call) (call_params call)
  = base +:+ call_path call +:+ "?" +:+ call_query call.
Proof.
  unfold fullURL_of.
  assert (Hsize : (0 <? Z.of_nat (size (call_params call))) = true).
  { destruct call; vm_compute; reflexivity. }
  rewrite Hsize, append_assoc. do 3 f_equal.
  destruct call as [sid cur|pid|cid]; cbn [call_params call_query];
    [|rewrite Encode_single; reflexivity|rewrite Encode_single; reflexivity].
  eval_term (map_to_list ({[ "subscriptionId" := sid; "isCurrent" := cur ]}
                            : gmap string string)).
  unfold range_Add. cbn [fold_left fst snd]. unfold url.Encode.
  match goal with
  | |- context [url.sort_keys ?l] => eval_term (url.sort_keys l)
  end.
  cbn [fold_left]. eval_lookups. cbn [from_option]. unfold Datatypes.id.
  rewrite !encode_key_one.
  change (url.QueryEscape "isCurrent") with "isCurrent".
  change (url.QueryEscape "subscriptionId") with "subscriptionId".
  change (String.eqb "" "") with true. cbv iota. rewrite append_nil_l.
  change ("isCurrent" +:+ "=" +:+ url.QueryEscape cur)
    with (String "i" ("sCurrent=" +:+ url.QueryEscape cur)).
  rewrite eqb_cons_empty, !append_assoc. reflexivity.
Qed.

(** The three [Set] calls of [APIClient.sendRequest] and of
    [CleverbridgeDoRequest], and the loop of [BaseClient.SendRequest] over
    the header map, all yield the same header. *)
Lemma headers_APIClient cfg m u b ctx :
  http.SetHeader
    (http.SetHeader
       (http.SetHeader (http.mkRequest m u ∅ b ctx) "Authorization"
          ("Basic " +:+ getBasicAuth cfg))
       "Content-Type" "application/json")
    "Accept" "application/json"
  = http.mkRequest m u (auth_header_set cfg) b ctx.
Proof.
  unfold http.SetHeader. cbn [http.Method http.URL http.ReqHeader
                              http.ReqBody http.Ctx].
  f_equal; vm_compute; reflexivity.
Qed.

Lemma headers_Cleverbridge cfg m u b ctx :
  http.SetHeader
    (http.SetHeader
       (http.SetBasicAuth (http.mkRequest m u ∅ b ctx)
          (ClientID cfg) (ClientSecret cfg))
       "Content-Type" "application/json")
    "Accept" "application/json"
  = http.mkRequest m u (auth_header_set cfg) b ctx.
Proof.
  unfold http.SetHeader, http.SetBasicAuth.
  cbn [http.Method http.URL http.ReqHeader http.ReqBody http.Ctx].
  f_equal; vm_compute; reflexivity.
Qed.

Lemma headers_BaseClient c m u b ctx :
  range_Set (http.mkRequest m u ∅ b ctx)
    (map_to_list (BaseClient_.auth_headers c))
  = http.mkRequest m u (auth_header_set (config c)) b ctx.
Proof.
  eval_term (map_to_list (BaseClient_.auth_headers c)).
  unfold range_Set. cbn [fold_left fst snd]. unfold http.SetHeader.
  cbn [http.Method http.URL http.ReqHeader http.ReqBody http.Ctx].
  f_equal; vm_compute; reflexivity.
Qed.

Lemma NewRequest_GET env ctx u :
  NewRequestWithContext env ctx "GET" u None =
    match url_Parse env u with
    | Some err => inr err
    | None => inl (http.mkRequest "GET" u ∅ None ctx)
    end.
Proof. reflexivity. Qed.

Lemma wp_run {A} (m : M A) σ (r : option A) (P : World -> Prop) :
  wp m (fun r' σ' => r' = r /\ P σ') σ ->
  exists σ', m σ = (r, σ') /\ P σ'.
Proof.
  unfold wp. destruct (m σ) as [r' σ']. simpl. intros [-> H]. eauto.
Qed.

(** One step of a run: a bind, a logging step, the transport, or a case
    distinction. *)
Ltac wp_log lem :=
  eapply wp_quiet; [apply lem|];
  let r := fresh "r" in
  let σ' := fresh "σ" in
  let Hs := fresh "Hsent" in
  let Hr := fresh "Hret" in
  intros r σ' Hs Hr.

Ltac wp_step :=
  lazymatch goal with
  | |- wp (_ ≫= _) _ _ => apply wp_bind
  | |- wp (ret _) _ _ => apply wp_ret
  | |- wp (mret _) _ _ => apply wp_ret
  | |- wp (APIClient_.Info _ _ _) _ _ => wp_log quiet_Info
  | |- wp (APIClient_.Error _ _ _ _) _ _ => wp_log quiet_Error
  | |- wp (APIClient_.Json _ _) _ _ => wp_log quiet_Json
  | |- wp (when _ (APIClient_.Json _ _)) _ _ => wp_log quiet_when_Json
  | |- wp (when _ (Printf _)) _ _ => wp_log quiet_when_Printf
  | |- wp (cb_Error _ _ _ _) _ _ => wp_log quiet_cb_Error
  | |- wp (Logger_Debug _ _ _ _) _ _ => wp_log quiet_Logger_Debug
  | |- wp (Do _ _) _ _ => apply wp_Do
  | |- wp (deref _) _ _ => apply wp_deref
  | |- wp (match ?x with _ => _ end) _ _ => destruct x eqn:?
  end.

(** Run to the end when the logger is known to be there ([Hok]). *)
Ltac wp_ok Hok :=
  repeat first
    [ wp_step
    | match goal with
      | Hret : ?ok -> ?r = Some tt |- match ?r with _ => _ end =>
          rewrite (Hret Hok)
      | |- wp (let (_, _) := ?p in _) _ _ => destruct p eqn:?
      | |- wp (if ?b then _ else _) _ _ => destruct b eqn:?
      end ].

(** The requests handed over so far, through a chain of logging steps. *)
Ltac sent_chain :=
  cbn [sent] in *;
  repeat match goal with
         | H : sent ?s = _ |- context [sent ?s] => rewrite H
         end;
  rewrite ?app_nil_r; reflexivity.

Lemma sendRequest_run env c l ctx call σ :
  logger c = Some l ->
  let req := request_of (baseURL (base c)) (config (base c)) ctx call in
  let x := exchange env (sent σ) req in
  exists σ',
    APIClient_.sendRequest env c ctx "GET" (call_path call) (call_params call)
      None σ = (Some (sendRequest_result x), σ')
    /\ sent σ' = sent σ ++ handed x req.
Proof.
  intros Hl req x. apply wp_run.
  assert (Hok : is_Some (logger c)) by (rewrite Hl; eauto).
  unfold APIClient_.sendRequest. rewrite fullURL_call, NewRequest_GET.
  subst x. unfold exchange. subst req. unfold request_of at 1.
  cbn [http.URL].
  wp_step. wp_step. rewrite (Hret Hok).
  destruct (url_Parse env _) as [err|] eqn:Hu.
  - wp_ok Hok. cbn [handed sendRequest_result].
    split; [reflexivity|sent_chain].
  - rewrite headers_APIClient.
    fold (request_of (baseURL (base c)) (config (base c)) ctx call).
    wp_step. wp_step. cbn [sent]. rewrite Hsent.
    destruct (client_Do env (sent σ) _) as [resp|err] eqn:HDo.
    + destruct (io_ReadAll (http.Body resp)) as [body [err|]] eqn:Hread;
        cbn [sendRequest_result handed];
        wp_ok Hok; (split; [reflexivity|sent_chain]).
    + wp_ok Hok. cbn [handed sendRequest_result].
      split; [reflexivity|sent_chain].
Qed.

(** Without a logger the first logging call panics, before anything is
    handed to the transport. *)
Lemma sendRequest_no_logger env c ctx method path q body σ :
  logger c = None ->
  exists σ',
    APIClient_.sendRequest env c ctx method path q body σ = (None, σ')
    /\ sent σ' = sent σ.
Proof.
  intros Hl. unfold APIClient_.sendRequest, APIClient_.Info.
  rewrite Hl. eexists. split; reflexivity.
Qed.

Lemma SendRequest_run env c ctx call σ :
  let req := request_of (baseURL c) (config c) ctx call in
  let x := exchange env (sent σ) req in
  exists σ',
    BaseClient_.SendRequest env c ctx
      (mkRequest "GET" (call_path call) (call_params call)
         (BaseClient_.auth_headers c) None) σ
    = (Some (SendRequest_result x), σ')
    /\ sent σ' = sent σ ++ handed x req.
Proof.
  intros req x. apply wp_run.
  unfold BaseClient_.SendRequest. cbn [Method Path QueryParams Headers Body].
  rewrite fullURL_call, NewRequest_GET.
  subst x. unfold exchange. subst req. unfold request_of at 1.
  cbn [http.URL].
  destruct (url_Parse env _) as [err|] eqn:Hu.
  - wp_ok I. cbn [handed SendRequest_result].
    split; [reflexivity|sent_chain].
  - rewrite headers_BaseClient.
    fold (request_of (baseURL c) (config c) ctx call).
    wp_step. wp_step. rewrite (Hret I).
    wp_step. wp_step. cbn [sent]. rewrite Hsent.
    destruct (client_Do env (sent σ) _) as [resp|err] eqn:HDo.
    + destruct (io_ReadAll (http.Body resp)) as [body [err|]] eqn:Hread;
        cbn [SendRequest_result handed];
        wp_ok I; (split; [reflexivity|sent_chain]).
    + wp_ok I. cbn [handed SendRequest_result].
      split; [reflexivity|sent_chain].
Qed.


Lemma wp_of_run {A} (m : M A) σ (r : option A) (P : World -> Prop)
    (Q : option A -> World -> Prop) :
  (exists σ', m σ = (r, σ') /\ P σ') ->
  (forall σ', P σ' -> Q r σ') ->
  wp m Q σ.
Proof. intros (σ' & E & HP) H. unfold wp. rewrite E. simpl. auto. Qed.

Lemma APIClient_call_run env c l ctx call σ :
  logger c = Some l ->
  let req := request_of (baseURL (base c)) (config (base c)) ctx call in
  let x := exchange env (sent σ) req in
  exists σ',
    APIClient_call env c ctx call σ = (Some (call_result env call x), σ')
    /\ sent σ' = sent σ ++ handed x req.
Proof.
  intros Hl req x. apply wp_run.
  assert (Hok : is_Some (logger c)) by (rewrite Hl; eauto).
  destruct call as [sid cur|pid|cid];
    unfold APIClient_call, lift_one, lift_many,
      APIClient_.GetSubscription, APIClient_.GetSubscriptionsByPurchase,
      APIClient_.GetSubscriptionsForCustomer.
  - wp_step. wp_step. wp_step. rewrite (Hret Hok). wp_step.
    eapply wp_of_run;
      [exact (sendRequest_run env c l ctx (CallGetSubscription sid cur) σ0 Hl)|].
    cbv zeta. rewrite Hsent. fold req. fold x. intros σ1 Hs1.
    unfold call_result. destruct (sendRequest_result x) as [b [err|]].
    + wp_ok Hok. cbn [fst snd]. split; [reflexivity|sent_chain].
    + cbv zeta. destruct (Unmarshal_Subscription env (default "" b));
        wp_ok Hok; cbn [fst snd]; (split; [reflexivity|sent_chain]).
  - wp_step. wp_step. wp_step. rewrite (Hret Hok). wp_step.
    eapply wp_of_run;
      [exact (sendRequest_run env c l ctx (CallGetSubscriptionsByPurchase pid) σ0 Hl)|].
    cbv zeta. rewrite Hsent. fold req. fold x. intros σ1 Hs1.
    unfold call_result. destruct (sendRequest_result x) as [b [err|]].
    + wp_ok Hok. cbn [fst snd]. split; [reflexivity|sent_chain].
    + cbv zeta. destruct (Unmarshal_Subscriptions env (default "" b));
        wp_ok Hok; cbn [fst snd]; (split; [reflexivity|sent_chain]).
  - wp_step. wp_step. wp_step. rewrite (Hret Hok). wp_step.
    eapply wp_of_run;
      [exact (sendRequest_run env c l ctx (CallGetSubscriptionsForCustomer cid) σ0 Hl)|].
    cbv zeta. rewrite Hsent. fold req. fold x. intros σ1 Hs1.
    unfold call_result. destruct (sendRequest_result x) as [b [err|]].
    + wp_ok Hok. cbn [fst snd]. split; [reflexivity|sent_chain].
    + cbv zeta. destruct (Unmarshal_Subscriptions env (default "" b));
        wp_ok Hok; cbn [fst snd]; (split; [reflexivity|sent_chain]).
Qed.

Lemma APIClient_call_no_logger env c ctx call σ :
  logger c = None ->
  exists σ', APIClient_call env c ctx call σ = (None, σ') /\ sent σ' = sent σ.
Proof.
  intros Hl.
  destruct call; unfold APIClient_call, lift_one, lift_many,
    APIClient_.GetSubscription, APIClient_.GetSubscriptionsByPurchase,
    APIClient_.GetSubscriptionsForCustomer, APIClient_.Info;
    rewrite Hl; eexists; split; reflexivity.
Qed.

Lemma BaseClient_call_run env c ctx call σ :
  let req := request_of (baseURL c) (config c) ctx call in
  let x := exchange env (sent σ) req in
  exists σ',
    BaseClient_call env c ctx call σ = (Some (call_result env call x), σ')
    /\ sent σ' = sent σ ++ handed x req.
Proof.
  intros req x. apply wp_run.
  destruct call as [sid cur|pid|cid];
    unfold BaseClient_call, lift_one, lift_many,
      BaseClient_.GetSubscription, BaseClient_.GetSubscriptionsByPurchase,
      BaseClient_.GetSubscriptionsForCustomer.
  - wp_step. wp_step.
    eapply wp_of_run;
      [exact (SendRequest_run env c ctx (CallGetSubscription sid cur) σ)|].
    cbv zeta. fold req. fold x. intros σ1 Hs1.
    unfold call_result, SendRequest_result, sendRequest_result.
    destruct x as [err|err|resp err|resp body]; try (wp_ok I; cbn [fst snd]; (split; [reflexivity|sent_chain])).
    destruct (400 <=? http.StatusCode resp); cbv zeta; cbn [RespBody from_option];
      unfold Datatypes.id;
      [|destruct (Unmarshal_Subscription env body)];
      wp_ok I; cbn [fst snd]; (split; [reflexivity|sent_chain]).
  - wp_step. wp_step.
    eapply wp_of_run;
      [exact (SendRequest_run env c ctx (CallGetSubscriptionsByPurchase pid) σ)|].
    cbv zeta. fold req. fold x. intros σ1 Hs1.
    unfold call_result, SendRequest_result, sendRequest_result.
    destruct x as [err|err|resp err|resp body]; try (wp_ok I; cbn [fst snd]; (split; [reflexivity|sent_chain])).
    destruct (400 <=? http.StatusCode resp); cbv zeta; cbn [RespBody from_option];
      unfold Datatypes.id;
      [|destruct (Unmarshal_Subscriptions env body)];
      wp_ok I; cbn [fst snd]; (split; [reflexivity|sent_chain]).
  - wp_step. wp_step.
    eapply wp_of_run;
      [exact (SendRequest_run env c ctx (CallGetSubscriptionsForCustomer cid) σ)|].
    cbv zeta. fold req. fold x. intros σ1 Hs1.
    unfold call_result, SendRequest_result, sendRequest_result.
    destruct x as [err|err|resp err|resp body]; try (wp_ok I; cbn [fst snd]; (split; [reflexivity|sent_chain])).
    destruct (400 <=? http.StatusCode resp); cbv zeta; cbn [RespBody from_option];
      unfold Datatypes.id;
      [|destruct (Unmarshal_Subscriptions env body)];
      wp_ok I; cbn [fst snd]; (split; [reflexivity|sent_chain]).
Qed.

(** ** The three transports on a failed response *)

(** Run up to the transport, hand over the request and rewrite with what
    is known about the answer. *)
Ltac wp_to_Do Hok :=
  repeat first
    [ lazymatch goal with
      | |- wp (Do _ _) _ _ => fail
      | |- wp (match _ with _ => _ end) _ _ => fail
      | |- _ => wp_step
      end
    | match goal with
      | Hret : ?ok -> ?r = Some tt |- match ?r with _ => _ end =>
          rewrite (Hret Hok)
      end ];
  apply wp_Do; cbn [sent];
  repeat match goal with
         | H : sent ?s = _ |- context [sent ?s] => rewrite H
         end.

Lemma SendRequest_answered env c ctx request reqBody req0 resp body σ :
  marshalled (Body request) = Some reqBody ->
  NewRequestWithContext env ctx (Method request)
    (fullURL_of (baseURL c) (Path request) (QueryParams request)) reqBody
    = inl req0 ->
  client_Do env (sent σ) (range_Set req0 (map_to_list (Headers request)))
    = inl resp ->
  io_ReadAll (http.Body resp) = (body, None) ->
  (BaseClient_.SendRequest env c ctx request σ).1 =
    Some (Some (mkResponse (http.StatusCode resp) body (http.RespHeader resp)),
          if 400 <=? http.StatusCode resp then
            Some (errorString
                    ("API error: status " +:+ fmt_d (http.StatusCode resp)
                     +:+ ", body: " +:+ body))
          else None).
Proof.
  intros Hm Hreq HDo Hread.
  enough (H : wp (BaseClient_.SendRequest env c ctx request)
                (fun r _ => r = Some (Some (mkResponse (http.StatusCode resp) body (http.RespHeader resp)),
          if 400 <=? http.StatusCode resp then
            Some (errorString
                    ("API error: status " +:+ fmt_d (http.StatusCode resp)
                     +:+ ", body: " +:+ body))
          else None)) σ) by exact H.
  unfold BaseClient_.SendRequest, marshalled in *.
  destruct (Body request) as [b|];
    [destruct (marshal b); [|discriminate]|];
    injection Hm as <-; cbv zeta; rewrite Hreq;
    (wp_step; wp_step; rewrite (Hret I); wp_step; wp_step;
     cbn [sent]; rewrite Hsent, HDo, Hread;
     destruct (400 <=? http.StatusCode resp); wp_ok I; reflexivity).
Qed.

Lemma sendRequest_answered env c l ctx method path q body reqBody req0 resp b σ :
  logger c = Some l ->
  marshalled body = Some reqBody ->
  NewRequestWithContext env ctx method
    (fullURL_of (baseURL (base c)) path q) reqBody = inl req0 ->
  client_Do env (sent σ) (with_auth (config (base c)) req0) = inl resp ->
  io_ReadAll (http.Body resp) = (b, None) ->
  (APIClient_.sendRequest env c ctx method path q body σ).1 =
    Some (if 400 <=? http.StatusCode resp then
            (None,
             Some (errorString
                     ("API error: status " +:+ fmt_d (http.StatusCode resp)
                      +:+ ", body: " +:+ b)))
          else (Some b, None)).
Proof.
  intros Hl Hm Hreq HDo Hread.
  assert (Hok : is_Some (logger c)) by (rewrite Hl; eauto).
  match goal with
  | |- (?m σ).1 = ?r => enough (H : wp m (fun r' _ => r' = r) σ) by exact H
  end.
  unfold APIClient_.sendRequest, marshalled, with_auth in *.
  wp_step. wp_step. rewrite (Hret Hok).
  destruct body as [mb|];
    [destruct (marshal mb); [|discriminate]|];
    injection Hm as <-; cbv zeta; rewrite Hreq;
    wp_to_Do Hok; rewrite HDo, Hread;
    destruct (400 <=? http.StatusCode resp); wp_ok Hok; reflexivity.
Qed.

Section CleverbridgeRuns.
Variable Debug_lines : Logger -> string -> list any -> list string.

(** The message [CleverbridgeDoRequest] puts into its error for a
    response of status 400 or more whose body was read. *)
Lemma CleverbridgeDoRequest_failed env c l ctx method path q body reqBody
    req0 resp b σ :
  cb_logger c = Some l ->
  marshalled body = Some reqBody ->
  NewRequestWithContext env ctx method
    (fullURL_of (cb_baseURL c) path q) reqBody = inl req0 ->
  client_Do env (sent σ) (with_basic_auth (cb_config c) req0) = inl resp ->
  400 <= http.StatusCode resp ->
  io_ReadAll (http.Body resp) = (b, None) ->
  (CleverbridgeDoRequest Debug_lines env c ctx method path q body σ).1 =
    Some (None,
          Some (errorString
                  match Unmarshal_cleverbridgeError env b with
                  | inl ce =>
                      if negb (String.eqb (Error_field ce) "") then
                        "Cleverbridge API error: " +:+ Error_field ce
                          +:+ " - " +:+ Message_field ce
                      else
                        "request failed with status: " +:+ http.Status resp
                          +:+ ", response: " +:+ b
                  | inr _ =>
                      "request failed with status: " +:+ http.Status resp
                        +:+ ", response: " +:+ b
                  end)).
Proof.
  intros Hl Hm Hreq HDo Hcode Hread.
  assert (Hok : is_Some (cb_logger c)) by (rewrite Hl; eauto).
  apply Z.leb_le in Hcode.
  match goal with
  | |- (?m σ).1 = ?r => enough (H : wp m (fun r' _ => r' = r) σ) by exact H
  end.
  unfold CleverbridgeDoRequest, marshalled, with_basic_auth in *.
  destruct body as [mb|];
    [destruct (marshal mb); [|discriminate]|];
    injection Hm as <-; cbv zeta; rewrite Hreq, Hl;
    (wp_step; wp_step; wp_step; wp_step; rewrite (Hret I);
     wp_step; wp_step; cbn [sent]; rewrite Hsent, HDo, Hcode, Hread;
     destruct (Unmarshal_cleverbridgeError env b) as [ce|];
     [destruct (negb (String.eqb (Error_field ce) ""))|];
     wp_ok Hok; reflexivity).
Qed.

(** A response that could be read and has a status below 400 is handed
    back as it is. *)
Lemma CleverbridgeDoRequest_ok env c l ctx method path q body reqBody
    req0 resp σ :
  cb_logger c = Some l ->
  marshalled body = Some reqBody ->
  NewRequestWithContext env ctx method
    (fullURL_of (cb_baseURL c) path q) reqBody = inl req0 ->
  client_Do env (sent σ) (with_basic_auth (cb_config c) req0) = inl resp ->
  http.StatusCode resp < 400 ->
  (CleverbridgeDoRequest Debug_lines env c ctx method path q body σ).1 =
    Some (Some resp, None).
Proof.
  intros Hl Hm Hreq HDo Hcode.
  assert (Hok : is_Some (cb_logger c)) by (rewrite Hl; eauto).
  apply Z.leb_gt in Hcode.
  match goal with
  | |- (?m σ).1 = ?r => enough (H : wp m (fun r' _ => r' = r) σ) by exact H
  end.
  unfold CleverbridgeDoRequest, marshalled, with_basic_auth in *.
  destruct body as [mb|];
    [destruct (marshal mb); [|discriminate]|];
    injection Hm as <-; cbv zeta; rewrite Hreq, Hl;
    (wp_step; wp_step; wp_step; wp_step; rewrite (Hret I);
     wp_step; wp_step; cbn [sent]; rewrite Hsent, HDo, Hcode;
     wp_ok Hok; reflexivity).
Qed.
End CleverbridgeRuns.

(** ** The headers and the URL of every request *)

Lemma request_of_carries_auth base cfg ctx call :
  carries_auth cfg (request_of base cfg ctx call).
Proof.
  unfold carries_auth, request_of, auth_header_set.
  cbn [http.ReqHeader].
  repeat split; vm_compute; reflexivity.
Qed.

Lemma APIClient_call_sent env c ctx call σ :
  sent (APIClient_call env c ctx call σ).2 =
    sent σ ++ match logger c with
              | Some _ =>
                  let req := request_of (baseURL (base c)) (config (base c))
                               ctx call in
                  handed (exchange env (sent σ) req) req
              | None => []
              end.
Proof.
  destruct (logger c) as [l|] eqn:Hl.
  - destruct (APIClient_call_run env c l ctx call σ Hl) as (σ' & -> & Hs).
    exact Hs.
  - destruct (APIClient_call_no_logger env c ctx call σ Hl) as (σ' & -> & Hs).
    simpl. now rewrite Hs, app_nil_r.
Qed.

Lemma BaseClient_call_sent env c ctx call σ :
  let req := request_of (baseURL c) (config c) ctx call in
  sent (BaseClient_call env c ctx call σ).2 =
    sent σ ++ handed (exchange env (sent σ) req) req.
Proof.
  destruct (BaseClient_call_run env c ctx call σ) as (σ' & -> & Hs).
  exact Hs.
Qed.

(** C1. Whatever the environment, the configuration and the arguments,
    the only request an operation of an [APIClient] or of a [BaseClient]
    hands to the transport is [request_of ...]; its header holds
    [Authorization] with the value [Basic base64(clientID:clientSecret)],
    [Content-Type] and [Accept] with the value [application/json], each
    exactly once, and no other key. *)
Theorem C1_requests_carry_auth_headers (env : Env) (ctx : http.Context)
    (call : Call) (σ : World) :
  (forall c : APIClient,
      let req := request_of (baseURL (base c)) (config (base c)) ctx call in
      carries_auth (config (base c)) req
      /\ sent (APIClient_call env c ctx call σ).2 =
           sent σ ++ match logger c with
                     | Some _ => handed (exchange env (sent σ) req) req
                     | None => []
                     end)
  /\ (forall c : BaseClient,
        let req := request_of (baseURL c) (config c) ctx call in
        carries_auth (config c) req
        /\ sent (BaseClient_call env c ctx call σ).2 =
             sent σ ++ handed (exchange env (sent σ) req) req).
Proof.
  split; intros c req; (split; [apply request_of_carries_auth|]).
  - apply APIClient_call_sent.
  - apply BaseClient_call_sent.
Qed.

(** [CleverbridgeDoRequest] decorates its request with the same header. *)
Lemma with_basic_auth_carries cfg m u b ctx :
  carries_auth cfg (with_basic_auth cfg (http.mkRequest m u ∅ b ctx)).
Proof.
  unfold with_basic_auth. rewrite headers_Cleverbridge.
  apply (request_of_carries_auth "" cfg ctx (CallGetSubscriptionsByPurchase "")).
Qed.

(** The request is handed over exactly when its URL parses. *)
Lemma handed_iff env hist req :
  handed (exchange env hist req) req =
    match url_Parse env (http.URL req) with
    | None => [req]
    | Some _ => []
    end.
Proof.
  unfold exchange. destruct (url_Parse env (http.URL req)); [reflexivity|].
  destruct (client_Do env hist req) as [resp|]; [|reflexivity].
  destruct (io_ReadAll (http.Body resp)) as [b [e|]]; reflexivity.
Qed.

(** C5 as stated fails: [isCurrent] is a string, and whatever the caller
    passes goes into the query. *)
Lemma C5_isCurrent_is_any_string :
  map http.URL
    (sent (BaseClient_.GetSubscription
             (env_answering (respond "200 OK" 200 "{}")) sample_base
             http.Background "S18577447" "maybe" empty_world).2)
  = [ "https://rest.cleverbridge.com/subscription/getsubscription?isCurrent=maybe&subscriptionId=S18577447" ].
Proof. vm_compute. reflexivity. Qed.

Lemma lift_one_run (m : M (option Subscription * option error)) σ :
  (lift_one m σ).2 = (m σ).2
  /\ (lift_one m σ).1 = (fun r => (One r.1, r.2)) <$> (m σ).1.
Proof.
  unfold lift_one, mbind, M_bind. destruct (m σ) as [[[v e]|] σ']; auto.
Qed.

Lemma lift_many_run (m : M (option (list Subscription) * option error)) σ :
  (lift_many m σ).2 = (m σ).2
  /\ (lift_many m σ).1 = (fun r => (Many r.1, r.2)) <$> (m σ).1.
Proof.
  unfold lift_many, mbind, M_bind. destruct (m σ) as [[[v e]|] σ']; auto.
Qed.

(** C5, amended. [GetSubscription] takes [isCurrent] as a string. The
    request it hands to the transport has the query
    [isCurrent=<isCurrent>&subscriptionId=<subscriptionID>] with both
    values query-escaped, so both keys are present and the value of
    [isCurrent] is the caller's string; the strings [true] and [false]
    pass unchanged. *)
Theorem C5_query_of_GetSubscription (env : Env) (ctx : http.Context)
    (subscriptionID isCurrent : string) (σ : World) :
  let query := "isCurrent=" +:+ url.QueryEscape isCurrent
               +:+ "&subscriptionId=" +:+ url.QueryEscape subscriptionID in
  (forall c : APIClient,
      exists req,
        http.URL req = baseURL (base c) +:+ "/subscription/getsubscription"
                       +:+ "?" +:+ query
        /\ sent (APIClient_.GetSubscription env c ctx subscriptionID isCurrent σ).2
           = sent σ ++ match logger c, url_Parse env (http.URL req) with
                       | Some _, None => [req]
                       | _, _ => []
                       end)
  /\ (forall c : BaseClient,
        exists req,
          http.URL req = baseURL c +:+ "/subscription/getsubscription"
                         +:+ "?" +:+ query
          /\ sent (BaseClient_.GetSubscription env c ctx subscriptionID isCurrent σ).2
             = sent σ ++ match url_Parse env (http.URL req) with
                         | None => [req]
                         | Some _ => []
                         end)
  /\ url.QueryEscape "true" = "true"
  /\ url.QueryEscape "false" = "false".
Proof.
  intros query.
  pose (call := CallGetSubscription subscriptionID isCurrent).
  split; [|split; [|split; reflexivity]].
  - intros c. pose proof (APIClient_call_sent env c ctx call σ) as Hs.
    exists (request_of (baseURL (base c)) (config (base c)) ctx call).
    split; [reflexivity|].
    cbn [APIClient_call call] in Hs.
    rewrite (proj1 (lift_one_run _ _)) in Hs. rewrite Hs, handed_iff.
    destruct (logger c); [|reflexivity].
    destruct (url_Parse env _); reflexivity.
  - intros c. pose proof (BaseClient_call_sent env c ctx call σ) as Hs.
    exists (request_of (baseURL c) (config c) ctx call).
    split; [reflexivity|].
    cbn [BaseClient_call call] in Hs.
    rewrite (proj1 (lift_one_run _ _)) in Hs. rewrite Hs, handed_iff.
    reflexivity.
Qed.

(** ** What the operations return *)

Lemma APIClient_call_returns env c l ctx call σ :
  logger c = Some l ->
  (APIClient_call env c ctx call σ).1 =
    Some (call_result env call
            (exchange env (sent σ)
               (request_of (baseURL (base c)) (config (base c)) ctx call))).
Proof.
  intros Hl.
  destruct (APIClient_call_run env c l ctx call σ Hl) as (σ' & -> & _).
  reflexivity.
Qed.

Lemma BaseClient_call_returns env c ctx call σ :
  (BaseClient_call env c ctx call σ).1 =
    Some (call_result env call
            (exchange env (sent σ) (request_of (baseURL c) (config c) ctx call))).
Proof.
  destruct (BaseClient_call_run env c ctx call σ) as (σ' & -> & _).
  reflexivity.
Qed.

Lemma lift_many_inv (m : M (option (list Subscription) * option error)) σ v e :
  (lift_many m σ).1 = Some (Many v, e) -> (m σ).1 = Some (v, e).
Proof.
  rewrite (proj2 (lift_many_run m σ)).
  destruct (m σ).1 as [[v' e']|]; simpl; [|discriminate].
  intros H. injection H as <- <-. reflexivity.
Qed.

Lemma lift_one_inv (m : M (option Subscription * option error)) σ v e :
  (lift_one m σ).1 = Some (One v, e) -> (m σ).1 = Some (v, e).
Proof.
  rewrite (proj2 (lift_one_run m σ)).
  destruct (m σ).1 as [[v' e']|]; simpl; [|discriminate].
  intros H. injection H as <- <-. reflexivity.
Qed.

Lemma Unmarshal_Subscriptions_empty env body :
  json.checkValid body = inl (json.Array []) ->
  Unmarshal_Subscriptions env body = inl (Some []).
Proof.
  intros H. unfold Unmarshal_Subscriptions, decode.Unmarshal_slice.
  rewrite H. reflexivity.
Qed.

(** C6. When the response to [GetSubscriptionsByPurchase] has status 200
    and its body is the JSON text of the empty array, the operation returns
    an empty, non-nil sequence and a nil error, for an [APIClient] as for a
    [BaseClient]. *)
Theorem C6_empty_array_is_a_result (env : Env) (ctx : http.Context)
    (purchaseID : string) (σ : World) (resp : http.Response) (body : string)
    (Hstatus : http.StatusCode resp = 200)
    (Hbody : json.checkValid body = inl (json.Array [])) :
  (forall (c : APIClient) (l : Logger),
      logger c = Some l ->
      exchange env (sent σ)
        (request_of (baseURL (base c)) (config (base c)) ctx
           (CallGetSubscriptionsByPurchase purchaseID)) = Answered resp body ->
      (APIClient_.GetSubscriptionsByPurchase env c ctx purchaseID σ).1
        = Some (Some [], None))
  /\ (forall c : BaseClient,
        exchange env (sent σ)
          (request_of (baseURL c) (config c) ctx
             (CallGetSubscriptionsByPurchase purchaseID)) = Answered resp body ->
        (BaseClient_.GetSubscriptionsByPurchase env c ctx purchaseID σ).1
          = Some (Some [], None)).
Proof.
  assert (Hres : call_result env (CallGetSubscriptionsByPurchase purchaseID)
                   (Answered resp body) = (Many (Some []), None)).
  { unfold call_result, sendRequest_result. rewrite Hstatus.
    cbn [Z.leb Z.compare Pos.compare Pos.compare_cont from_option].
    unfold Datatypes.id.
    now rewrite (Unmarshal_Subscriptions_empty env body Hbody). }
  split.
  - intros c l Hl Hx. apply lift_many_inv.
    change (lift_many (APIClient_.GetSubscriptionsByPurchase env c ctx purchaseID))
      with (APIClient_call env c ctx (CallGetSubscriptionsByPurchase purchaseID)).
    rewrite (APIClient_call_returns env c l ctx _ σ Hl), Hx, Hres. reflexivity.
  - intros c Hx. apply lift_many_inv.
    change (lift_many (BaseClient_.GetSubscriptionsByPurchase env c ctx purchaseID))
      with (BaseClient_call env c ctx (CallGetSubscriptionsByPurchase purchaseID)).
    rewrite (BaseClient_call_returns env c ctx _ σ), Hx, Hres. reflexivity.
Qed.

Lemma C6_witness :
  (http.StatusCode (http.mkHTTPResponse "200 OK" 200
                      {[ "Content-Type" := [ "application/json" ] ]}
                      (http.mkBody "[]" None)) = 200
   /\ json.checkValid "[]" = inl (json.Array []))
  /\ (APIClient_.GetSubscriptionsByPurchase
        (env_answering (respond "200 OK" 200 "[]")) sample_api
        http.Background "P123456789" empty_world).1 = Some (Some [], None)
  /\ (BaseClient_.GetSubscriptionsByPurchase
        (env_answering (respond "200 OK" 200 "[]")) sample_base
        http.Background "P123456789" empty_world).1 = Some (Some [], None).
Proof.
  split; [split; reflexivity|].
  pose proof (C6_empty_array_is_a_result
                (env_answering (respond "200 OK" 200 "[]")) http.Background
                "P123456789" empty_world
                (http.mkHTTPResponse "200 OK" 200
                   {[ "Content-Type" := [ "application/json" ] ]}
                   (http.mkBody "[]" None))
                "[]" eq_refl eq_refl) as [HA HB].
  split.
  - apply (HA sample_api (mkLogger true None Stdout)); reflexivity.
  - apply (HB sample_base); reflexivity.
Defined.

Lemma Unmarshal_Subscriptions_nil env body :
  Unmarshal_Subscriptions env body = inl None <->
  json.checkValid body = inl json.Null.
Proof.
  unfold Unmarshal_Subscriptions, decode.Unmarshal_slice.
  destruct (json.checkValid body) as [v|err]; [|split; discriminate].
  destruct v; try (split; [discriminate|intros H; discriminate]).
  - split; reflexivity.
  - destruct (decode.array _ _ _ _ _ _ _) as [[xs [e|]]|e];
      split; discriminate.
Qed.

Lemma call_result_value_xor_error env call x :
  value_xor_error call x (call_result env call x).1 (call_result env call x).2.
Proof.
  unfold value_xor_error, call_result, null_answer.
  destruct (sendRequest_result x) as [b [err|]] eqn:Hres.
  - (* the transport reported an error *)
    assert (Hnot : ~ exists resp body,
               x = Answered resp body /\ http.StatusCode resp < 400
               /\ json.checkValid body = inl json.Null).
    { intros (resp & body & -> & Hlt & _). unfold sendRequest_result in Hres.
      apply Z.leb_gt in Hlt. rewrite Hlt in Hres. discriminate. }
    destruct call; cbn [fst snd is_nil];
      (split; [reflexivity|]); try discriminate;
      (split; [intros [? _]; discriminate | intros H; destruct (Hnot H)]).
  - (* the transport returned a body *)
    assert (Hx : exists resp, x = Answered resp (default "" b)
                              /\ http.StatusCode resp < 400).
    { destruct x as [?|?|? ?|resp body]; try discriminate.
      unfold sendRequest_result in Hres.
      destruct (400 <=? http.StatusCode resp) eqn:Hc; [discriminate|].
      injection Hres as <-. exists resp. split; [reflexivity|].
      now apply Z.leb_gt. }
    destruct Hx as (resp & -> & Hlt).
    destruct call; cbn [fst snd].
    + destruct (Unmarshal_Subscription env (default "" b));
        cbn [fst snd is_nil]; split; congruence.
    + destruct (Unmarshal_Subscriptions env (default "" b)) as [[xs|]|e] eqn:Hu;
        cbn [fst snd is_nil]; (split; [congruence|]).
      * split; [intros [_ ?]; discriminate|].
        intros (r' & b' & Heq & _ & Hn). injection Heq as <- <-.
        apply (Unmarshal_Subscriptions_nil env) in Hn. congruence.
      * split; [|auto]. intros _. exists resp, (default "" b).
        repeat split; auto. now apply (Unmarshal_Subscriptions_nil env).
      * split; [intros [? _]; discriminate|].
        intros (r' & b' & Heq & _ & Hn). injection Heq as <- <-.
        apply (Unmarshal_Subscriptions_nil env) in Hn. congruence.
    + destruct (Unmarshal_Subscriptions env (default "" b)) as [[xs|]|e] eqn:Hu;
        cbn [fst snd is_nil]; (split; [congruence|]).
      * split; [intros [_ ?]; discriminate|].
        intros (r' & b' & Heq & _ & Hn). injection Heq as <- <-.
        apply (Unmarshal_Subscriptions_nil env) in Hn. congruence.
      * split; [|auto]. intros _. exists resp, (default "" b).
        repeat split; auto. now apply (Unmarshal_Subscriptions_nil env).
      * split; [intros [? _]; discriminate|].
        intros (r' & b' & Heq & _ & Hn). injection Heq as <- <-.
        apply (Unmarshal_Subscriptions_nil env) in Hn. congruence.
Qed.

(** C10 as stated fails: on the body [null] a sequence-returning operation
    returns a nil sequence and a nil error. *)
Lemma C10_null_body_gives_nil_nil :
  (BaseClient_.GetSubscriptionsByPurchase
     (env_answering (respond "200 OK" 200 "null")) sample_base
     http.Background "P123456789" empty_world).1 = Some (None, None)
  /\ (APIClient_.GetSubscriptionsForCustomer
        (env_answering (respond "200 OK" 200 "null")) sample_api
        http.Background "CUST12345" empty_world).1 = Some (None, None).
Proof. split; vm_compute; reflexivity. Qed.

(** C10, amended. Every operation returns, and what it returns is never a
    value together with an error. [GetSubscription] returns exactly one of
    the two. The two operations that return a sequence return a nil
    sequence with a nil error exactly when the response has a status below
    400 and the JSON body [null]; otherwise exactly one of the two is
    nil. *)
Theorem C10_value_xor_error (env : Env) (ctx : http.Context) (call : Call)
    (σ : World) :
  (forall (c : APIClient) (l : Logger),
      logger c = Some l ->
      exists v e,
        (APIClient_call env c ctx call σ).1 = Some (v, e)
        /\ value_xor_error call
             (exchange env (sent σ)
                (request_of (baseURL (base c)) (config (base c)) ctx call))
             v e)
  /\ (forall c : BaseClient,
        exists v e,
          (BaseClient_call env c ctx call σ).1 = Some (v, e)
          /\ value_xor_error call
               (exchange env (sent σ)
                  (request_of (baseURL c) (config c) ctx call))
               v e).
Proof.
  split.
  - intros c l Hl. rewrite (APIClient_call_returns env c l ctx call σ Hl).
    eexists _, _. split; [f_equal; apply surjective_pairing|].
    apply call_result_value_xor_error.
  - intros c. rewrite (BaseClient_call_returns env c ctx call σ).
    eexists _, _. split; [f_equal; apply surjective_pairing|].
    apply call_result_value_xor_error.
Qed.

Lemma C10_witness :
  logger sample_api = Some (mkLogger true None Stdout)
  /\ exists v e,
       (APIClient_call (env_answering (respond "200 OK" 200 "[]")) sample_api
          http.Background (CallGetSubscriptionsByPurchase "P123456789")
          empty_world).1 = Some (v, e)
       /\ value_xor_error (CallGetSubscriptionsByPurchase "P123456789")
            (exchange (env_answering (respond "200 OK" 200 "[]"))
               (sent empty_world)
               (request_of (baseURL (base sample_api))
                  (config (base sample_api)) http.Background
                  (CallGetSubscriptionsByPurchase "P123456789")))
            v e.
Proof.
  split; [reflexivity|].
  exact (proj1 (C10_value_xor_error
                  (env_answering (respond "200 OK" 200 "[]")) http.Background
                  (CallGetSubscriptionsByPurchase "P123456789") empty_world)
           sample_api (mkLogger true None Stdout) eq_refl).
Defined.

(** ** C2: what the transports return for a failed response *)

Lemma Contains_here pre sub post : Contains (pre +:+ sub +:+ post) sub.
Proof. exists pre, post. reflexivity. Qed.

Lemma Contains_end pre sub : Contains (pre +:+ sub) sub.
Proof. exists pre, "". now rewrite append_empty_r. Qed.

Ltac contains :=
  solve [ repeat first [ apply Contains_refl | apply Contains_here
                       | apply Contains_end | apply Contains_prefix ] ].

(** A body that is the object of an [error] and a [message] string decodes
    to the two texts. *)
Lemma Unmarshal_error_object env body re rm e m :
  json.checkValid body =
    inl (json.Object [("error", json.String_ re); ("message", json.String_ rm)]) ->
  json.unquote re = Some e -> json.unquote rm = Some m ->
  Unmarshal_cleverbridgeError env body = inl (mkCleverbridgeError e m).
Proof.
  intros Hv He Hm.
  unfold Unmarshal_cleverbridgeError, decode.Unmarshal_struct.
  rewrite Hv. cbn [decode.struct_value decode.object].
  change (json.unquote "error") with (Some "error").
  change (json.unquote "message") with (Some "message").
  cbv iota beta.
  change (decode.find_field cleverbridgeError_fields "error")
    with (Some (decode.StringField "error"
                  (fun v s => mkCleverbridgeError v (Message_field s)))).
  change (decode.find_field cleverbridgeError_fields "message")
    with (Some (decode.StringField "message"
                  (fun v s => mkCleverbridgeError (Error_field s) v))).
  cbn [decode.store decode.store_string]. rewrite He. cbv iota beta.
  rewrite Hm. reflexivity.
Qed.

(** C2 as stated fails for two of the three transports: on a 404
    [APIClient.sendRequest] returns a nil body and
    [CleverbridgeDoRequest] a nil response, each with the error alone. *)
Lemma C2_nil_with_the_error :
  (APIClient_.sendRequest
     (env_answering (respond "404 Not Found" 404 "nope")) sample_api
     http.Background "GET" "/subscription/getsubscription" ∅ None
     empty_world).1
  = Some (None, Some (errorString "API error: status 404, body: nope"))
  /\ (CleverbridgeDoRequest sample_Debug
        (env_answering (respond "404 Not Found" 404 "nope")) sample_cb
        http.Background "GET" "/subscription/getsubscription" ∅ None
        empty_world).1
     = Some (None,
             Some (errorString
                     "request failed with status: 404 Not Found, response: nope")).
Proof. split; vm_compute; reflexivity. Qed.

(** Which of its two messages [CleverbridgeDoRequest] chooses, by the
    body. *)
Lemma failed_report_cases env resp b :
  let msg :=
    match Unmarshal_cleverbridgeError env b with
    | inl ce =>
        if negb (String.eqb (Error_field ce) "") then
          "Cleverbridge API error: " +:+ Error_field ce
            +:+ " - " +:+ Message_field ce
        else
          "request failed with status: " +:+ http.Status resp
            +:+ ", response: " +:+ b
    | inr _ =>
        "request failed with status: " +:+ http.Status resp
          +:+ ", response: " +:+ b
    end in
  (forall e m,
      error_object b e m -> e <> "" -> msg = structured_report e m)
  /\ (forall m, error_object b "" m -> msg = raw_report resp b)
  /\ (forall v,
        json.checkValid b = inl v -> (forall ms, v <> json.Object ms) ->
        msg = raw_report resp b)
  /\ (forall err, json.checkValid b = inr err -> msg = raw_report resp b)
  /\ ((forall ce, Unmarshal_cleverbridgeError env b = inl ce ->
                  Error_field ce = "") ->
      msg = raw_report resp b)
  /\ (msg = raw_report resp b
      \/ exists ce,
           Unmarshal_cleverbridgeError env b = inl ce
           /\ Error_field ce <> ""
           /\ msg = structured_report (Error_field ce) (Message_field ce)).
Proof.
  cbv zeta. repeat split.
  - intros e m (re & rm & Hv & He & Hm) Hne.
    rewrite (Unmarshal_error_object env b re rm e m Hv He Hm).
    cbn [Error_field Message_field].
    destruct (String.eqb e "") eqn:Heq; [|reflexivity].
    apply String.eqb_eq in Heq. contradiction.
  - intros m (re & rm & Hv & He & Hm).
    rewrite (Unmarshal_error_object env b re rm "" m Hv He Hm). reflexivity.
  - intros v Hv Hobj.
    unfold Unmarshal_cleverbridgeError, decode.Unmarshal_struct. rewrite Hv.
    destruct v; try reflexivity. exfalso. eapply Hobj. reflexivity.
  - intros err Hv.
    unfold Unmarshal_cleverbridgeError, decode.Unmarshal_struct. rewrite Hv.
    reflexivity.
  - intros Hempty.
    destruct (Unmarshal_cleverbridgeError env b) as [ce|]; [|reflexivity].
    rewrite (Hempty ce eq_refl). reflexivity.
  - destruct (Unmarshal_cleverbridgeError env b) as [ce|]; [|left; reflexivity].
    destruct (String.eqb (Error_field ce) "") eqn:Heq; cbn [negb].
    + left. reflexivity.
    + right. exists ce. repeat split.
      intros Hce. rewrite Hce in Heq. discriminate.
Qed.

Lemma raw_report_contains resp b :
  Contains (raw_report resp b) (http.Status resp)
  /\ Contains (raw_report resp b) b.
Proof. unfold raw_report. split; contains. Qed.

Lemma structured_report_contains e m :
  Contains (structured_report e m) e /\ Contains (structured_report e m) m.
Proof. unfold structured_report. split; contains. Qed.

(** C2, amended. For a response of status 400 or more whose body [b] was
    read: [BaseClient.SendRequest] returns the response descriptor (status
    code, the whole body, the headers) together with the API error.
    [APIClient.sendRequest] and [CleverbridgeDoRequest] return nil
    together with an error, so the caller sees of the response only what
    the message of the error holds. That message is [API error: status
    <code>, body: <b>] for [APIClient.sendRequest]. For
    [CleverbridgeDoRequest] it is [request failed with status: <status>,
    response: <b>], which holds the status line and the body, unless [b]
    decodes to an error object whose [error] text is not empty: then it is
    [Cleverbridge API error: <error> - <message>], and the status and the
    rest of the body are not in it. *)
Theorem C2_failed_response (env : Env) (ctx : http.Context)
    (resp : http.Response) (b : string)
    (Hcode : 400 <= http.StatusCode resp)
    (Hread : io_ReadAll (http.Body resp) = (b, None)) :
  (forall (c : BaseClient) (request : Request) reqBody req0 σ,
      marshalled (Body request) = Some reqBody ->
      NewRequestWithContext env ctx (Method request)
        (fullURL_of (baseURL c) (Path request) (QueryParams request)) reqBody
        = inl req0 ->
      client_Do env (sent σ) (range_Set req0 (map_to_list (Headers request)))
        = inl resp ->
      (BaseClient_.SendRequest env c ctx request σ).1 =
        Some (Some (mkResponse (http.StatusCode resp) b (http.RespHeader resp)),
              Some (errorString
                      ("API error: status " +:+ fmt_d (http.StatusCode resp)
                       +:+ ", body: " +:+ b))))
  /\ (forall (c : APIClient) l method path q body reqBody req0 σ,
        logger c = Some l ->
        marshalled body = Some reqBody ->
        NewRequestWithContext env ctx method
          (fullURL_of (baseURL (base c)) path q) reqBody = inl req0 ->
        client_Do env (sent σ) (with_auth (config (base c)) req0) = inl resp ->
        (APIClient_.sendRequest env c ctx method path q body σ).1 =
          Some (None,
                Some (errorString
                        ("API error: status " +:+ fmt_d (http.StatusCode resp)
                         +:+ ", body: " +:+ b))))
  /\ (forall Debug_lines (c : CleverbridgeClient) l method path q body reqBody
             req0 σ,
        cb_logger c = Some l ->
        marshalled body = Some reqBody ->
        NewRequestWithContext env ctx method
          (fullURL_of (cb_baseURL c) path q) reqBody = inl req0 ->
        client_Do env (sent σ) (with_basic_auth (cb_config c) req0) = inl resp ->
        exists msg,
          (CleverbridgeDoRequest Debug_lines env c ctx method path q body σ).1 =
            Some (None, Some (errorString msg))
          /\ (msg = raw_report resp b
              /\ Contains msg (http.Status resp) /\ Contains msg b
              \/ exists ce,
                   Unmarshal_cleverbridgeError env b = inl ce
                   /\ Error_field ce <> ""
                   /\ msg = structured_report (Error_field ce)
                              (Message_field ce))
          /\ (forall e m,
                error_object b e m -> e <> "" -> msg = structured_report e m)
          /\ ((forall ce, Unmarshal_cleverbridgeError env b = inl ce ->
                          Error_field ce = "") ->
              msg = raw_report resp b)).
Proof.
  assert (Hc : (400 <=? http.StatusCode resp) = true) by now apply Z.leb_le.
  split; [|split].
  - intros c request reqBody req0 σ Hm Hreq HDo.
    rewrite (SendRequest_answered env c ctx request reqBody req0 resp b σ
               Hm Hreq HDo Hread), Hc. reflexivity.
  - intros c l method path q body reqBody req0 σ Hl Hm Hreq HDo.
    rewrite (sendRequest_answered env c l ctx method path q body reqBody req0
               resp b σ Hl Hm Hreq HDo Hread), Hc. reflexivity.
  - intros Debug_lines c l method path q body reqBody req0 σ Hl Hm Hreq HDo.
    eexists. split.
    { apply (CleverbridgeDoRequest_failed Debug_lines env c l ctx method path q
               body reqBody req0 resp b σ Hl Hm Hreq HDo Hcode Hread). }
    destruct (failed_report_cases env resp b)
      as (Hstruct & _ & _ & _ & Hempty & [Hraw|Hce]).
    + split; [left; rewrite Hraw; split; [reflexivity|];
              apply raw_report_contains|].
      split; [exact Hstruct|exact Hempty].
    + split; [right; exact Hce|]. split; [exact Hstruct|exact Hempty].
Qed.

Lemma C2_witness :
  (400 <= 404
   /\ io_ReadAll (http.mkBody "nope" None) = ("nope", None))
  /\ (BaseClient_.SendRequest
        (env_answering (respond "404 Not Found" 404 "nope")) sample_base
        http.Background
        (mkRequest "GET" "/subscription/getsubscription"
           {[ "subscriptionId" := "S18577447"; "isCurrent" := "false" ]}
           (BaseClient_.auth_headers sample_base) None)
        empty_world).1
     = Some (Some (mkResponse 404 "nope"
                     {[ "Content-Type" := [ "application/json" ] ]}),
             Some (errorString "API error: status 404, body: nope")).
Proof.
  split; [split; [lia|reflexivity]|].
  refine (proj1 (C2_failed_response
                   (env_answering (respond "404 Not Found" 404 "nope"))
                   http.Background
                   (http.mkHTTPResponse "404 Not Found" 404
                      {[ "Content-Type" := [ "application/json" ] ]}
                      (http.mkBody "nope" None))
                   "nope" _ eq_refl)
            sample_base
            (mkRequest "GET" "/subscription/getsubscription"
               {[ "subscriptionId" := "S18577447"; "isCurrent" := "false" ]}
               (BaseClient_.auth_headers sample_base) None)
            None
            (http.mkRequest "GET"
               "https://rest.cleverbridge.com/subscription/getsubscription?isCurrent=false&subscriptionId=S18577447"
               ∅ None http.Background)
            empty_world eq_refl _ eq_refl).
  - simpl. lia.
  - vm_compute. reflexivity.
Defined.

(** ** Strings the scanner accepts can be unquoted *)

Lemma wf_raw_app a b : wf_raw a -> wf_raw b -> wf_raw (a ++ b).
Proof.
  induction 1; intros Hb; simpl; auto using wf_raw.
Qed.

Lemma byte_val_range c : 0 <= byte_val c < 256.
Proof.
  unfold byte_val. pose proof (N_ascii_bounded c). lia.
Qed.

(** A high byte at the head of such a text is a plain byte. *)
Lemma wf_raw_high c r : 128 <= byte_val c -> wf_raw (c :: r) -> wf_raw r.
Proof.
  intros Hc H. inversion H; subst; auto.
  - exfalso. change (byte_val backslash) with 92 in Hc. lia.
  - exfalso. change (byte_val backslash) with 92 in Hc. lia.
Qed.

Lemma wf_raw_skip_high k r : high_prefix k r -> wf_raw r -> wf_raw (skipn k r).
Proof.
  revert r. induction k as [|k IH]; intros r Hh Hw; [exact Hw|].
  destruct r as [|c r]; [destruct Hh|]. destruct Hh as [Hc Hh].
  simpl. apply IH; [exact Hh|]. eapply wf_raw_high; eauto.
Qed.

Lemma high_prefix_length k r : high_prefix k r -> (k <= length r)%nat.
Proof.
  revert r. induction k as [|k IH]; intros r H; [simpl; lia|].
  destruct r as [|c r]; [destruct H|]. destruct H as [_ H].
  specialize (IH r H). simpl. lia.
Qed.

Lemma DecodeRune_size c r :
  exists k, (json.DecodeRune (map byte_val (c :: r))).2 = S k
            /\ high_prefix k r.
Proof.
  unfold json.DecodeRune, json.is_cont. cbn [map].
  repeat match goal with
         | |- context [if ?b then _ else _] => destruct b eqn:?
         | |- context [match map byte_val ?l with _ => _ end] =>
             destruct l; cbn [map]
         | |- exists k, (_, ?n).2 = S k /\ _ =>
             match n with
             | 1%nat => exists 0%nat
             | 2%nat => exists 1%nat
             | 3%nat => exists 2%nat
             | 4%nat => exists 3%nat
             end; split; [reflexivity|]
         end; cbn [high_prefix]; repeat split; try lia.
Qed.

Lemma hexval_some h : json.is_hex h = true -> exists v, json.hexval h = Some v /\ 0 <= v < 16.
Proof.
  unfold json.is_hex, json.hexval, is_digit, in_range.
  change (byte_val "0") with 48. change (byte_val "9") with 57.
  change (byte_val "a") with 97. change (byte_val "f") with 102.
  change (byte_val "A") with 65. change (byte_val "F") with 70.
  intros H.
  destruct ((48 <=? byte_val h) && (byte_val h <=? 57)) eqn:H1;
    [eexists; split; [reflexivity|lia]|].
  destruct ((97 <=? byte_val h) && (byte_val h <=? 102)) eqn:H2;
    [eexists; split; [reflexivity|lia]|].
  destruct ((65 <=? byte_val h) && (byte_val h <=? 70)) eqn:H3;
    [eexists; split; [reflexivity|lia]|].
  discriminate.
Qed.

Lemma getu4_escape h1 h2 h3 h4 r :
  json.is_hex h1 = true -> json.is_hex h2 = true ->
  json.is_hex h3 = true -> json.is_hex h4 = true ->
  0 <= json.getu4 (backslash :: "u"%char :: h1 :: h2 :: h3 :: h4 :: r).
Proof.
  intros H1 H2 H3 H4.
  destruct (hexval_some h1 H1) as (a & Ea & Ha).
  destruct (hexval_some h2 H2) as (b & Eb & Hb).
  destruct (hexval_some h3 H3) as (c & Ec & Hc).
  destruct (hexval_some h4 H4) as (d & Ed & Hd).
  unfold json.getu4.
  change (Ascii.eqb backslash backslash && Ascii.eqb "u" "u") with true.
  cbv iota. rewrite Ea, Eb, Ec, Ed. lia.
Qed.

(** When [getu4] finds an escape, the text starts with one. *)
Lemma getu4_nonneg_inv s :
  0 <= json.getu4 s ->
  exists h1 h2 h3 h4 r, s = backslash :: "u"%char :: h1 :: h2 :: h3 :: h4 :: r.
Proof.
  unfold json.getu4.
  destruct s as [|b [|u [|h1 [|h2 [|h3 [|h4 r]]]]]]; try lia.
  destruct (Ascii.eqb b backslash) eqn:Hb; [|simpl; lia].
  destruct (Ascii.eqb u "u") eqn:Hu; [|simpl; lia].
  apply Ascii.eqb_eq in Hb, Hu. subst. intros _. eauto 6.
Qed.

Lemma wf_raw_after_escape h1 h2 h3 h4 r :
  wf_raw (backslash :: "u"%char :: h1 :: h2 :: h3 :: h4 :: r) -> wf_raw r.
Proof.
  intros H. inversion H; subst; auto.
  - discriminate.
  - discriminate.
Qed.

Lemma utf16_pair_second r1 r2 :
  json.utf16_DecodeRune r1 r2 <> json.RuneError -> 0 <= r2.
Proof.
  unfold json.utf16_DecodeRune.
  destruct ((55296 <=? r1) && (r1 <? 56320) && (56320 <=? r2) && (r2 <? 57344))
    eqn:H; [lia|congruence].
Qed.

Lemma unquote_loop_total n s :
  (length s <= n)%nat -> wf_raw s -> is_Some (json.unquote_loop n s).
Proof.
  revert s. induction n as [|n IH]; intros s Hn Hw.
  - destruct s; [eexists; reflexivity|simpl in Hn; lia].
  - destruct Hw as [|c r Hc Hr|e r He Hr|h1 h2 h3 h4 r H1 H2 H3 H4 Hr].
    + eexists; reflexivity.
    + (* a plain byte *)
      unfold plain in Hc.
      apply andb_true_iff in Hc as [Hc H32].
      apply andb_true_iff in Hc as [Hq Hb].
      apply negb_true_iff in Hq, Hb. apply Z.leb_le in H32.
      cbn [json.unquote_loop]. rewrite Hb, Hq.
      replace (byte_val c <? 32) with false by (symmetry; apply Z.ltb_ge; lia).
      cbn [orb].
      destruct (byte_val c <? 128) eqn:H128.
      * destruct (IH r) as [x Hx]; [simpl in Hn; lia|exact Hr|].
        rewrite Hx. eexists; reflexivity.
      * destruct (DecodeRune_size c r) as (k & Hk & Hh).
        destruct (json.DecodeRune (map byte_val (c :: r))) as [rr size].
        cbn [snd] in Hk. subst size. cbn [skipn].
        destruct (IH (skipn k r)) as [x Hx].
        { rewrite length_skipn. simpl in Hn. lia. }
        { now apply wf_raw_skip_high. }
        rewrite Hx. eexists; reflexivity.
    + (* a two-byte escape *)
      cbn [json.unquote_loop].
      change (Ascii.eqb backslash backslash) with true. cbv iota.
      destruct (IH r) as [x Hx]; [simpl in Hn; lia|exact Hr|].
      unfold simple_escape in He. cbn [existsb] in He.
      repeat (apply orb_true_iff in He as [He|He];
              [apply Ascii.eqb_eq in He; subst e; cbn; rewrite Hx;
               eexists; reflexivity|]).
      discriminate.
    + (* a u escape *)
      pose proof (getu4_escape h1 h2 h3 h4 r H1 H2 H3 H4) as Hu.
      remember (backslash :: "u"%char :: h1 :: h2 :: h3 :: h4 :: r) as s eqn:Es.
      assert (Hstep : json.unquote_loop (S n) s =
        let rr := json.getu4 s in
        if rr <? 0 then None
        else
          if json.is_surrogate rr then
            let dec := json.utf16_DecodeRune rr (json.getu4 r) in
            if negb (dec =? json.RuneError) then
              (json.EncodeRune dec ++.) <$> json.unquote_loop n (skipn 6 r)
            else (json.EncodeRune json.RuneError ++.) <$> json.unquote_loop n r
          else (json.EncodeRune rr ++.) <$> json.unquote_loop n r).
      { subst s. reflexivity. }
      rewrite Hstep. cbv zeta. clear Hstep.
      replace (json.getu4 s <? 0) with false by (symmetry; apply Z.ltb_ge; lia).
      assert (Hlen : (length r <= n)%nat) by (subst s; simpl in Hn; lia).
      destruct (IH r Hlen Hr) as [x Hx].
      destruct (json.is_surrogate (json.getu4 s)); [|rewrite Hx; eexists; reflexivity].
      destruct (json.utf16_DecodeRune (json.getu4 s) (json.getu4 r) =? json.RuneError)
        eqn:Hdec; cbn [negb]; [rewrite Hx; eexists; reflexivity|].
      apply Z.eqb_neq in Hdec. apply utf16_pair_second in Hdec.
      destruct (getu4_nonneg_inv r Hdec) as (g1 & g2 & g3 & g4 & r' & ->).
      change (skipn 6 (backslash :: "u"%char :: g1 :: g2 :: g3 :: g4 :: r'))
        with r'.
      destruct (IH r') as [y Hy].
      { simpl in Hlen. lia. }
      { eapply wf_raw_after_escape; eauto. }
      rewrite Hy. eexists; reflexivity.
Qed.

Lemma unquote_total raw : wf_string raw -> is_Some (json.unquote raw).
Proof.
  intros H. unfold json.unquote.
  destruct (unquote_loop_total (String.length raw) (list_ascii_of_string raw))
    as [x Hx]; [|exact H|rewrite Hx; eexists; reflexivity].
  clear H. induction raw; simpl; lia.
Qed.

(** ** What the scanner returns is well formed *)

Lemma value_wf_Array l : value_wf (json.Array l) <-> Forall value_wf l.
Proof.
  induction l as [|x r IH]; cbn [value_wf].
  - split; auto.
  - cbn [value_wf] in IH. rewrite Forall_cons. tauto.
Qed.

Lemma value_wf_Object m : value_wf (json.Object m) <-> Forall member_wf m.
Proof.
  induction m as [|[k x] r IH]; cbn [value_wf].
  - split; auto.
  - cbn [value_wf] in IH. rewrite Forall_cons. unfold member_wf at 1.
    cbn [fst snd]. tauto.
Qed.

Lemma complete_wf v ps :
  value_wf v -> Forall frame_wf ps -> scanner_wf (json.complete v ps).
Proof.
  intros Hv Hps. unfold json.complete, scanner_wf.
  destruct ps as [|[done key|done [k|]|done] r]; cbn [json.step json.parseState json.top step_wf].
  - repeat split; auto.
  - destruct v; cbn [json.step json.parseState json.top step_wf];
      repeat split; auto.
    apply Forall_cons in Hps as [[Hd _] Hr].
    constructor; [split; auto|exact Hr].
  - apply Forall_cons in Hps as [[Hd Hk] Hr].
    repeat split; auto. constructor; [|exact Hr].
    split; [|exact I]. constructor; [split; assumption|exact Hd].
  - repeat split; auto.
  - apply Forall_cons in Hps as [Hd Hr].
    repeat split; auto. constructor; [|exact Hr].
    constructor; assumption.
Qed.

Lemma do_stateEndValue_wf s c s' :
  scanner_wf s -> json.do_stateEndValue s c = inl s' -> scanner_wf s'.
Proof.
  intros (Hst & Hps & Htop) H. unfold json.do_stateEndValue in H.
  destruct (json.parseState s) as [|f r] eqn:Eps.
  - destruct (json.isSpace c); [|discriminate]. injection H as <-.
    repeat split; auto. now rewrite Eps.
  - apply Forall_cons in Hps as [Hf Hr].
    destruct (json.isSpace c).
    { injection H as <-. repeat split; cbn; auto; repeat (constructor; cbn; auto). }
    destruct f as [done key|done key|done]; cbn [frame_wf] in Hf.
    + destruct (Ascii.eqb c ":"); [|discriminate]. injection H as <-.
      repeat split; cbn; auto; repeat (constructor; cbn; auto).
    + destruct (Ascii.eqb c ",").
      { injection H as <-. destruct Hf as [Hd _]. repeat split; cbn; auto; repeat (constructor; cbn; auto). }
      destruct (Ascii.eqb c "}"); [|discriminate]. injection H as <-.
      apply complete_wf; [|exact Hr].
      apply value_wf_Object, Forall_rev, Hf.
    + destruct (Ascii.eqb c ",").
      { injection H as <-. repeat split; cbn; auto; repeat (constructor; cbn; auto). }
      destruct (Ascii.eqb c "]"); [|discriminate]. injection H as <-.
      apply complete_wf; [|exact Hr].
      apply value_wf_Array, Forall_rev, Hf.
Qed.

Lemma end_number_wf acc ps c s' :
  Forall frame_wf ps -> json.end_number acc ps c = inl s' -> scanner_wf s'.
Proof.
  intros Hps H. unfold json.end_number in H.
  eapply do_stateEndValue_wf; [|exact H].
  apply complete_wf; [exact I|exact Hps].
Qed.

Lemma plain_step_wf ps st :
  Forall frame_wf ps -> step_wf st -> scanner_wf (json.mkScanner st ps None).
Proof. intros. repeat split; assumption. Qed.

Lemma push_wf c f next ps s' :
  Forall frame_wf ps -> frame_wf f -> step_wf next ->
  json.push c f next ps = inl s' -> scanner_wf s'.
Proof.
  intros Hps Hf Hn H. unfold json.push in H.
  destruct (_ <=? _); [|discriminate]. injection H as <-.
  repeat split; cbn; auto.
Qed.

Lemma do_stateBeginValue_wf ps c s' :
  Forall frame_wf ps -> json.do_stateBeginValue ps c = inl s' -> scanner_wf s'.
Proof.
  intros Hps H. unfold json.do_stateBeginValue in H.
  repeat match type of H with
         | (if ?b then _ else _) = _ => destruct b
         | inl _ = inl _ => injection H as <-
         | inr _ = inl _ => discriminate
         end;
    lazymatch goal with
    | H : json.push _ _ _ _ = inl _ |- _ =>
        eapply push_wf; [..|exact H]; cbn; auto
    | |- scanner_wf (json.mkScanner _ _ _) =>
        apply plain_step_wf; [exact Hps|cbn; auto using wf_raw]
    end.
Qed.

Lemma do_stateBeginString_wf ps c s' :
  Forall frame_wf ps -> json.do_stateBeginString ps c = inl s' -> scanner_wf s'.
Proof.
  intros Hps H. unfold json.do_stateBeginString in H.
  repeat match type of H with
         | (if ?b then _ else _) = _ => destruct b
         | inl _ = inl _ => injection H as <-
         | inr _ = inl _ => discriminate
         end;
    (apply plain_step_wf; [exact Hps|cbn; auto using wf_raw]).
Qed.

Lemma do_state0_wf acc ps c s' :
  Forall frame_wf ps -> json.do_state0 acc ps c = inl s' -> scanner_wf s'.
Proof.
  intros Hps H. unfold json.do_state0 in H.
  repeat match type of H with
         | (if ?b then _ else _) = _ => destruct b
         | inl _ = inl _ => injection H as <-
         end;
    try (apply plain_step_wf; [exact Hps|exact I]).
  eapply end_number_wf; eauto.
Qed.

Lemma do_stateESign_wf acc ps c s' :
  Forall frame_wf ps -> json.do_stateESign acc ps c = inl s' -> scanner_wf s'.
Proof.
  intros Hps H. unfold json.do_stateESign in H.
  destruct (is_digit c); [|discriminate]. injection H as <-.
  apply plain_step_wf; [exact Hps|exact I].
Qed.

Lemma wf_raw_snoc_plain acc c :
  wf_raw (rev acc) -> plain c = true -> wf_raw (rev (c :: acc)).
Proof.
  intros Ha Hc. cbn [rev]. apply wf_raw_app; [exact Ha|].
  constructor; [exact Hc|constructor].
Qed.

Lemma do_step_wf s c s' :
  scanner_wf s -> json.do_step s c = inl s' -> scanner_wf s'.
Proof.
  intros Hs H. pose proof Hs as (Hst & Hps & Htop).
  unfold json.do_step in H.
  destruct (json.step s) eqn:Est; cbn [step_wf] in Hst.
  - (* stateBeginValueOrEmpty *)
    destruct (json.isSpace c); [injection H as <-; exact Hs|].
    destruct (Ascii.eqb c "]");
      [eapply do_stateEndValue_wf; eauto
      |eapply do_stateBeginValue_wf; eauto].
  - eapply do_stateBeginValue_wf; eauto.
  - (* stateBeginStringOrEmpty *)
    destruct (json.isSpace c); [injection H as <-; exact Hs|].
    destruct (Ascii.eqb c "}"); [|eapply do_stateBeginString_wf; eauto].
    destruct (json.parseState s) as [|[done key|done key|done] r] eqn:Eps;
      try (eapply do_stateEndValue_wf; [exact Hs|exact H]).
    eapply do_stateEndValue_wf; [|exact H].
    apply Forall_cons in Hps as [Hf Hr].
    repeat split; cbn; auto.
  - eapply do_stateBeginString_wf; eauto.
  - eapply do_stateEndValue_wf; eauto.
  - (* stateInString *)
    destruct (Ascii.eqb c dquote) eqn:Hq.
    { injection H as <-. apply complete_wf; [|exact Hps].
      cbn [value_wf]. unfold wf_string, json.lit_of.
      now rewrite list_ascii_of_string_of_list_ascii. }
    destruct (Ascii.eqb c backslash) eqn:Hb.
    { injection H as <-. apply Ascii.eqb_eq in Hb. subst c.
      apply plain_step_wf; [exact Hps|]. cbn. eauto. }
    destruct (byte_val c <? 32) eqn:H32; [discriminate|].
    injection H as <-. apply plain_step_wf; [exact Hps|].
    cbn [step_wf]. apply wf_raw_snoc_plain; [exact Hst|].
    unfold plain. rewrite Hq, Hb. apply Z.ltb_ge in H32.
    apply Z.leb_le in H32. now rewrite H32.
  - (* stateInStringEsc *)
    destruct Hst as (acc' & -> & Ha).
    destruct (existsb _ _) eqn:He.
    { injection H as <-. apply plain_step_wf; [exact Hps|].
      cbn [step_wf rev]. rewrite <- app_assoc. apply wf_raw_app; [exact Ha|].
      cbn [app]. apply wf_esc; [exact He|constructor]. }
    destruct (Ascii.eqb c "u") eqn:Hu; [|discriminate].
    injection H as <-. apply Ascii.eqb_eq in Hu. subst c.
    apply plain_step_wf; [exact Hps|]. cbn [step_wf].
    exists [], acc'. repeat split; auto; lia.
  - (* stateInStringEscU *)
    destruct Hst as (hs & acc' & -> & Hlen & Hle & Hhex & Ha).
    destruct (json.is_hex c) eqn:Hc; [|discriminate].
    destruct (seen =? 3)%nat eqn:H3.
    + injection H as <-. apply Nat.eqb_eq in H3. subst seen.
      apply plain_step_wf; [exact Hps|]. cbn [step_wf].
      destruct hs as [|x3 [|x2 [|x1 [|? ?]]]]; try discriminate.
      apply Forall_cons in Hhex as [Hx3 Hhex].
      apply Forall_cons in Hhex as [Hx2 Hhex].
      apply Forall_cons in Hhex as [Hx1 _].
      cbn [app rev]. rewrite <- !app_assoc. apply wf_raw_app; [exact Ha|].
      cbn [app]. apply wf_u; auto. constructor.
    + injection H as <-. apply Nat.eqb_neq in H3.
      apply plain_step_wf; [exact Hps|]. cbn [step_wf].
      exists (c :: hs), acc'. repeat split; cbn; auto; lia.
  - (* stateNeg *)
    repeat match type of H with
           | (if ?b then _ else _) = _ => destruct b
           | inl _ = inl _ => injection H as <-
           | inr _ = inl _ => discriminate
           end; apply plain_step_wf; auto; exact I.
  - destruct (is_digit c);
      [injection H as <-; apply plain_step_wf; auto; exact I
      |eapply do_state0_wf; eauto].
  - eapply do_state0_wf; eauto.
  - destruct (is_digit c); [|discriminate].
    injection H as <-; apply plain_step_wf; auto; exact I.
  - destruct (is_digit c);
      [injection H as <-; apply plain_step_wf; auto; exact I|].
    destruct (_ || _);
      [injection H as <-; apply plain_step_wf; auto; exact I
      |eapply end_number_wf; eauto].
  - destruct (_ || _);
      [injection H as <-; apply plain_step_wf; auto; exact I
      |eapply do_stateESign_wf; eauto].
  - eapply do_stateESign_wf; eauto.
  - destruct (is_digit c);
      [injection H as <-; apply plain_step_wf; auto; exact I
      |eapply end_number_wf; eauto].
  - (* stateLit *)
    destruct rest as [|e [|e' rest']].
    + injection H as <-. now apply complete_wf.
    + destruct (Ascii.eqb c e); [|discriminate]. injection H as <-.
      now apply complete_wf.
    + destruct (Ascii.eqb c e); [|discriminate]. injection H as <-.
      apply plain_step_wf; auto.
Qed.

Lemma run_wf data s s' :
  scanner_wf s -> json.run s data = inl s' -> scanner_wf s'.
Proof.
  revert s. induction data as [|c data IH]; intros s Hs H; cbn [json.run] in H.
  - now injection H as <-.
  - destruct (json.do_step s c) as [s1|] eqn:E; [|discriminate].
    eapply IH; [|exact H]. eapply do_step_wf; eauto.
Qed.

Lemma endTop_wf s v : scanner_wf s -> json.endTop s = Some v -> value_wf v.
Proof.
  intros (_ & _ & Htop) H. unfold json.endTop in H.
  destruct (json.step s); try discriminate.
  destruct (json.parseState s); try discriminate.
  now rewrite H in Htop.
Qed.

(** Every string and key of a value the scanner returns can be
    unquoted. *)
Lemma checkValid_wf data v : json.checkValid data = inl v -> value_wf v.
Proof.
  unfold json.checkValid. intros H.
  destruct (json.run _ data) as [s|] eqn:Hrun; [|discriminate].
  assert (Hs : scanner_wf s).
  { eapply run_wf; [|exact Hrun]. repeat split; cbn; auto. }
  unfold json.eof in H.
  destruct (json.endTop s) as [v0|] eqn:Ht.
  - injection H as <-. eapply endTop_wf; eauto.
  - destruct (json.do_step s " ") as [s1|] eqn:E; [|discriminate].
    destruct (json.endTop s1) as [v1|] eqn:Ht1; [|discriminate].
    injection H as <-. eapply endTop_wf; [|exact Ht1].
    eapply do_step_wf; eauto.
Qed.

(** ** What [json.Unmarshal] accepts for a struct *)

Lemma store_Ok_iff {S} env struct (f : decode.Field S) v s :
  value_wf v ->
  (exists s', decode.store env struct f v s = decode.Ok s') <->
  fits env (kind f) v.
Proof.
  intros Hwf. destruct f as [n set|n set|n set];
    cbn [decode.store kind];
    unfold decode.store_string, decode.store_float64, decode.store_time, fits;
    destruct v as [|b|lit|raw|l|m];
    try (split; [intros [? ?]; discriminate|intros []]);
    try (split; eauto).
  - intros _. destruct (unquote_total raw Hwf) as [x Hx]. rewrite Hx. eauto.
  - intros [s' H]. destruct (strconv.ParseFloat lit); [eauto|discriminate].
  - intros [x Hx]. rewrite Hx. eauto.
  - intros [s' H]. destruct (time_Parse env raw); [eauto|discriminate].
  - intros [t Ht]. rewrite Ht. eauto.
Qed.

Lemma object_saved {S} env struct (fields : list (decode.Field S))
    members s e s' saved' :
  decode.object env struct fields members s (Some e) = inl (s', saved') ->
  saved' = Some e.
Proof.
  revert s. induction members as [|[k v] rest IH]; intros s H;
    cbn [decode.object] in H.
  - now injection H as _ <-.
  - destruct (json.unquote k); [|discriminate].
    destruct (decode.find_field fields s0); [|eauto].
    destruct (decode.store env struct f v s); eauto. discriminate.
Qed.

Lemma object_ok_iff {S} env struct (fields : list (decode.Field S)) members s :
  Forall member_wf members ->
  (exists s', decode.object env struct fields members s None = inl (s', None))
  <-> Forall (member_fits env fields) members.
Proof.
  intros Hwf. revert s. induction Hwf as [|[k v] rest [Hk Hv] Hrest IH];
    intros s; cbn [decode.object].
  - split; eauto.
  - cbn [fst snd] in Hk, Hv.
    destruct (unquote_total k Hk) as [key Hkey]. rewrite Hkey.
    rewrite Forall_cons. unfold member_fits at 1. cbn [fst snd].
    destruct (decode.find_field fields key) as [f|] eqn:Hf.
    + pose proof (store_Ok_iff env struct f v s Hv) as Hst.
      destruct (decode.store env struct f v s) as [s1|e s1|e] eqn:Hs.
      * rewrite IH. split.
        -- intros H. split; [|exact H]. intros key' f' Hk' Hf'.
           rewrite Hkey in Hk'. injection Hk' as <-. rewrite Hf in Hf'.
           injection Hf' as <-. apply Hst. eauto.
        -- tauto.
      * split.
        -- intros [s' H]. apply object_saved in H. discriminate.
        -- intros [H _]. specialize (H key f Hkey Hf).
           apply Hst in H as [? ?]. discriminate.
      * split.
        -- intros [s' H]. discriminate.
        -- intros [H _]. specialize (H key f Hkey Hf).
           apply Hst in H as [? ?]. discriminate.
    + rewrite IH. split; [|tauto].
      intros H. split; [|exact H]. intros key' f' Hk' Hf'.
      rewrite Hkey in Hk'. injection Hk' as <-. rewrite Hf in Hf'. discriminate.
Qed.

(** [json.Unmarshal] into a struct succeeds exactly on the texts that
    [decodes] describes. *)
Lemma Unmarshal_struct_iff {S} env typ struct (fields : list (decode.Field S))
    data s :
  (exists s', decode.Unmarshal_struct env typ struct fields data s = inl s')
  <-> decodes env fields data.
Proof.
  unfold decode.Unmarshal_struct, decodes.
  destruct (json.checkValid data) as [v|err] eqn:Hv.
  - pose proof (checkValid_wf data v Hv) as Hwf.
    destruct v as [|b|lit|raw|l|m]; cbn [decode.struct_value].
    + split; eauto.
    + split; [intros [? ?]; discriminate|intros (v' & E & F)].
      injection E as <-. destruct F.
    + split; [intros [? ?]; discriminate|intros (v' & E & F)].
      injection E as <-. destruct F.
    + split; [intros [? ?]; discriminate|intros (v' & E & F)].
      injection E as <-. destruct F.
    + split; [intros [? ?]; discriminate|intros (v' & E & F)].
      injection E as <-. destruct F.
    + apply value_wf_Object in Hwf.
      pose proof (object_ok_iff env struct fields m s Hwf) as Hiff.
      split.
      * intros [s' H]. exists (json.Object m). split; [reflexivity|].
        apply Hiff.
        destruct (decode.object env struct fields m s None) as [[s1 [e|]]|e];
          try discriminate. eauto.
      * intros (v' & E & F). injection E as <-.
        apply Hiff in F as [s' ->]. eauto.
  - split; [intros [? ?]; discriminate|intros (v & E & _); discriminate].
Qed.

Lemma Unmarshal_Subscription_empty_object env body :
  json.checkValid body = inl (json.Object []) ->
  Unmarshal_Subscription env body = inl Subscription_zero.
Proof.
  intros H. unfold Unmarshal_Subscription, decode.Unmarshal_struct.
  rewrite H. reflexivity.
Qed.

(** ** C4: when [GetSubscription] fails to decode *)

Lemma One_call_result env sid cur resp body :
  http.StatusCode resp = 200 ->
  call_result env (CallGetSubscription sid cur) (Answered resp body) =
    match Unmarshal_Subscription env body with
    | inr err => (One None, Some (Errorf_w "failed to parse subscription: " err))
    | inl subscription => (One (Some subscription), None)
    end.
Proof.
  intros Hs. unfold call_result, sendRequest_result. rewrite Hs. reflexivity.
Qed.

Lemma GetSubscription_decoding env sid cur resp body
    (m : M (option Subscription * option error)) σ :
  http.StatusCode resp = 200 ->
  (lift_one m σ).1 =
    Some (call_result env (CallGetSubscription sid cur) (Answered resp body)) ->
  match (m σ).1 with
  | Some (Some s, None) =>
      decodes env Subscription_fields body
      /\ Unmarshal_Subscription env body = inl s
  | Some (None, Some e) =>
      ~ decodes env Subscription_fields body
      /\ exists err,
           Unmarshal_Subscription env body = inr err
           /\ e = Errorf_w "failed to parse subscription: " err
  | _ => False
  end.
Proof.
  intros Hs H. rewrite (One_call_result env sid cur resp body Hs) in H.
  pose proof (Unmarshal_struct_iff env "client.Subscription" "Subscription"
                Subscription_fields body Subscription_zero) as Hiff.
  fold (Unmarshal_Subscription env body) in Hiff.
  destruct (Unmarshal_Subscription env body) as [s|err] eqn:Hu.
  - apply lift_one_inv in H. rewrite H. split; [|reflexivity].
    apply Hiff. eauto.
  - apply lift_one_inv in H. rewrite H. split; [|eauto].
    intros Hd. apply Hiff in Hd as [s' Hs']. discriminate.
Qed.

(** C4 as stated fails: an object that omits schema fields, or all of
    them, is decoded, and the fields it omits are left at their zero
    values. *)
Lemma C4_missing_fields_are_defaulted :
  (APIClient_.GetSubscription
     (env_answering (respond "200 OK" 200 "{}")) sample_api
     http.Background "S18577447" "false" empty_world).1
  = Some (Some Subscription_zero, None)
  /\ (BaseClient_.GetSubscription
        (env_answering
           (respond "200 OK" 200 (js "{'id':'S18577447','unknown':[1,2]}")))
        sample_base http.Background "S18577447" "false" empty_world).1
     = Some (Some (set_ID "S18577447" Subscription_zero), None).
Proof. split; vm_compute; reflexivity. Qed.

(** C4, amended. For a response with status 200 and body [body],
    [GetSubscription] returns either a subscription and no error, or nil
    and the wrapped error of [json.Unmarshal]; it returns the error exactly
    when [body] is not JSON, or is a JSON value other than [null] and an
    object, or is an object with a member that names a field of
    [Subscription] (by its [json] name, in any letter case) and holds a
    value that does not fit the field: [null] fits every field, a string
    fits a [string] field, a number within the range of [float64] fits
    [amount], a string the time parser accepts fits a timestamp. Members
    that name no field are skipped, and an object that omits fields is
    decoded with those fields left at their zero values. *)
Theorem C4_decode_error_iff (env : Env) (ctx : http.Context)
    (subscriptionID isCurrent : string) (σ : World)
    (resp : http.Response) (body : string)
    (Hstatus : http.StatusCode resp = 200) :
  let outcome (r : option (option Subscription * option error)) : Prop :=
    match r with
    | Some (Some s, None) =>
        decodes env Subscription_fields body
        /\ Unmarshal_Subscription env body = inl s
    | Some (None, Some e) =>
        ~ decodes env Subscription_fields body
        /\ exists err,
             Unmarshal_Subscription env body = inr err
             /\ e = Errorf_w "failed to parse subscription: " err
    | _ => False
    end in
  (forall (c : APIClient) (l : Logger),
      logger c = Some l ->
      exchange env (sent σ)
        (request_of (baseURL (base c)) (config (base c)) ctx
           (CallGetSubscription subscriptionID isCurrent))
        = Answered resp body ->
      outcome (APIClient_.GetSubscription env c ctx subscriptionID isCurrent σ).1)
  /\ (forall c : BaseClient,
        exchange env (sent σ)
          (request_of (baseURL c) (config c) ctx
             (CallGetSubscription subscriptionID isCurrent))
          = Answered resp body ->
        outcome (BaseClient_.GetSubscription env c ctx subscriptionID isCurrent σ).1)
  /\ (json.checkValid body = inl (json.Object []) ->
      Unmarshal_Subscription env body = inl Subscription_zero).
Proof.
  intros outcome. split; [|split].
  - intros c l Hl Hx.
    apply (GetSubscription_decoding env subscriptionID isCurrent resp body
             _ σ Hstatus).
    change (lift_one (APIClient_.GetSubscription env c ctx subscriptionID isCurrent))
      with (APIClient_call env c ctx (CallGetSubscription subscriptionID isCurrent)).
    now rewrite (APIClient_call_returns env c l ctx _ σ Hl), Hx.
  - intros c Hx.
    apply (GetSubscription_decoding env subscriptionID isCurrent resp body
             _ σ Hstatus).
    change (lift_one (BaseClient_.GetSubscription env c ctx subscriptionID isCurrent))
      with (BaseClient_call env c ctx (CallGetSubscription subscriptionID isCurrent)).
    now rewrite (BaseClient_call_returns env c ctx _ σ), Hx.
  - apply Unmarshal_Subscription_empty_object.
Qed.

Lemma C4_witness :
  http.StatusCode (http.mkHTTPResponse "200 OK" 200
                     {[ "Content-Type" := [ "application/json" ] ]}
                     (http.mkBody (js "{'amount':'12.5'}") None)) = 200
  /\ ~ decodes (env_answering (respond "200 OK" 200 (js "{'amount':'12.5'}")))
         Subscription_fields (js "{'amount':'12.5'}")
  /\ (BaseClient_.GetSubscription
        (env_answering (respond "200 OK" 200 (js "{'amount':'12.5'}")))
        sample_base http.Background "S18577447" "false" empty_world).1
     = Some (None,
             Some (Errorf_w "failed to parse subscription: "
                     (UnmarshalTypeError "string" "float64"
                        "Subscription.amount"))).
Proof.
  split; [reflexivity|].
  pose proof (proj1 (proj2 (C4_decode_error_iff
                (env_answering (respond "200 OK" 200 (js "{'amount':'12.5'}")))
                http.Background "S18577447" "false" empty_world
                (http.mkHTTPResponse "200 OK" 200
                   {[ "Content-Type" := [ "application/json" ] ]}
                   (http.mkBody (js "{'amount':'12.5'}") None))
                (js "{'amount':'12.5'}") eq_refl))
              sample_base eq_refl) as H.
  assert (E : (BaseClient_.GetSubscription
        (env_answering (respond "200 OK" 200 (js "{'amount':'12.5'}")))
        sample_base http.Background "S18577447" "false" empty_world).1
     = Some (None,
             Some (Errorf_w "failed to parse subscription: "
                     (UnmarshalTypeError "string" "float64"
                        "Subscription.amount")))) by (vm_compute; reflexivity).
  rewrite E in H. split; [exact (proj1 H)|exact E].
Defined.

(** ** UTF-8: encoding a decoded rune gives its bytes back *)

Lemma lor_add x b k :
  0 <= k -> x mod 2 ^ k = 0 -> 0 <= b < 2 ^ k -> Z.lor x b = x + b.
Proof.
  intros Hk Hx Hb. symmetry. apply Z.add_nocarry_lor.
  apply Z.bits_inj'. intros n Hn. rewrite Z.land_spec, Z.bits_0.
  destruct (Z.lt_ge_cases n k).
  - rewrite <- (Z.mod_pow2_bits_low x k n) by lia. rewrite Hx, Z.bits_0.
    reflexivity.
  - rewrite <- (Z.mod_small b (2 ^ k)) by lia.
    rewrite Z.mod_pow2_bits_high by lia. apply andb_false_r.
Qed.

Lemma land_mask a k : 0 <= k -> Z.land a (2 ^ k - 1) = a mod 2 ^ k.
Proof.
  intros. rewrite <- Z.land_ones by lia. rewrite Z.ones_equiv.
  f_equal.
Qed.

Lemma land_63 a : Z.land a 63 = a mod 64.
Proof. apply (land_mask a 6). lia. Qed.
Lemma land_31 a : Z.land a 31 = a mod 32.
Proof. apply (land_mask a 5). lia. Qed.
Lemma land_15 a : Z.land a 15 = a mod 16.
Proof. apply (land_mask a 4). lia. Qed.
Lemma land_7 a : Z.land a 7 = a mod 8.
Proof. apply (land_mask a 3). lia. Qed.
Lemma shiftl_6 a : Z.shiftl a 6 = a * 64.
Proof. apply (Z.shiftl_mul_pow2 a 6). lia. Qed.
Lemma shiftl_12 a : Z.shiftl a 12 = a * 4096.
Proof. apply (Z.shiftl_mul_pow2 a 12). lia. Qed.
Lemma shiftl_18 a : Z.shiftl a 18 = a * 262144.
Proof. apply (Z.shiftl_mul_pow2 a 18). lia. Qed.
Lemma shiftr_6 a : Z.shiftr a 6 = a / 64.
Proof. apply (Z.shiftr_div_pow2 a 6). lia. Qed.
Lemma shiftr_12 a : Z.shiftr a 12 = a / 4096.
Proof. apply (Z.shiftr_div_pow2 a 12). lia. Qed.
Lemma shiftr_18 a : Z.shiftr a 18 = a / 262144.
Proof. apply (Z.shiftr_div_pow2 a 18). lia. Qed.

Ltac bits_to_arith :=
  rewrite ?land_63, ?land_31, ?land_15, ?land_7, ?shiftl_6, ?shiftl_12,
    ?shiftl_18, ?shiftr_6, ?shiftr_12, ?shiftr_18.

Ltac lor_to_add x k :=
  rewrite (lor_add x _ k);
  [ | lia | simpl (2 ^ k); Z.div_mod_to_equations; lia
    | simpl (2 ^ k); Z.div_mod_to_equations; lia ].

Lemma decode2 p0 b1 :
  194 <= p0 < 224 -> 128 <= b1 <= 191 ->
  Z.lor (Z.shiftl (Z.land p0 31) 6) (Z.land b1 63) = (p0 - 192) * 64 + (b1 - 128).
Proof.
  intros. bits_to_arith. lor_to_add (p0 mod 32 * 64) 6.
  Z.div_mod_to_equations. lia.
Qed.

Lemma decode3 p0 b1 b2 :
  224 <= p0 < 240 -> 128 <= b1 <= 191 -> 128 <= b2 <= 191 ->
  Z.lor (Z.lor (Z.shiftl (Z.land p0 15) 12) (Z.shiftl (Z.land b1 63) 6))
        (Z.land b2 63)
  = (p0 - 224) * 4096 + (b1 - 128) * 64 + (b2 - 128).
Proof.
  intros. bits_to_arith. lor_to_add (p0 mod 16 * 4096) 12.
  lor_to_add (p0 mod 16 * 4096 + b1 mod 64 * 64) 6.
  Z.div_mod_to_equations. lia.
Qed.

Lemma decode4 p0 b1 b2 b3 :
  240 <= p0 < 248 -> 128 <= b1 <= 191 -> 128 <= b2 <= 191 -> 128 <= b3 <= 191 ->
  Z.lor (Z.lor (Z.lor (Z.shiftl (Z.land p0 7) 18) (Z.shiftl (Z.land b1 63) 12))
               (Z.shiftl (Z.land b2 63) 6))
        (Z.land b3 63)
  = (p0 - 240) * 262144 + (b1 - 128) * 4096 + (b2 - 128) * 64 + (b3 - 128).
Proof.
  intros. bits_to_arith. lor_to_add (p0 mod 8 * 262144) 18.
  lor_to_add (p0 mod 8 * 262144 + b1 mod 64 * 4096) 12.
  lor_to_add (p0 mod 8 * 262144 + b1 mod 64 * 4096 + b2 mod 64 * 64) 6.
  Z.div_mod_to_equations. lia.
Qed.


Lemma EncodeRune_2 r :
  128 <= r <= 2047 ->
  json.EncodeRune r = [192 + r / 64; 128 + r mod 64].
Proof.
  intros. unfold json.EncodeRune, json.MaxRune, json.is_surrogate, json.RuneError.
  replace ((r <? 0) || (1114111 <? r) || (55296 <=? r) && (r <? 57344))
    with false by lia.
  replace (r <=? 127) with false by lia. replace (r <=? 2047) with true by lia.
  bits_to_arith.
  rewrite (lor_add 192 (r / 64) 6), (lor_add 128 (r mod 64) 6);
    first [ reflexivity | lia | simpl (2 ^ 6); Z.div_mod_to_equations; lia ].
Qed.

Lemma EncodeRune_3 r :
  2048 <= r <= 65535 -> ~ (55296 <= r < 57344) ->
  json.EncodeRune r = [224 + r / 4096; 128 + r / 64 mod 64; 128 + r mod 64].
Proof.
  intros. unfold json.EncodeRune, json.MaxRune, json.is_surrogate, json.RuneError.
  replace ((r <? 0) || (1114111 <? r) || (55296 <=? r) && (r <? 57344))
    with false by lia.
  replace (r <=? 127) with false by lia. replace (r <=? 2047) with false by lia.
  replace (r <=? 65535) with true by lia.
  bits_to_arith.
  rewrite (lor_add 224 (r / 4096) 5), (lor_add 128 (r / 64 mod 64) 6),
    (lor_add 128 (r mod 64) 6);
    first [ reflexivity | lia | simpl (2 ^ _); Z.div_mod_to_equations; lia ].
Qed.

Lemma EncodeRune_4 r :
  65536 <= r <= 1114111 ->
  json.EncodeRune r
  = [240 + r / 262144; 128 + r / 4096 mod 64; 128 + r / 64 mod 64;
     128 + r mod 64].
Proof.
  intros. unfold json.EncodeRune, json.MaxRune, json.is_surrogate, json.RuneError.
  replace ((r <? 0) || (1114111 <? r) || (55296 <=? r) && (r <? 57344))
    with false by lia.
  replace (r <=? 127) with false by lia. replace (r <=? 2047) with false by lia.
  replace (r <=? 65535) with false by lia.
  bits_to_arith.
  rewrite (lor_add 240 (r / 262144) 4), (lor_add 128 (r / 4096 mod 64) 6),
    (lor_add 128 (r / 64 mod 64) 6), (lor_add 128 (r mod 64) 6);
    first [ reflexivity | lia | simpl (2 ^ _); Z.div_mod_to_equations; lia ].
Qed.

(** A well-formed rune at the head of [p]: encoding it gives the first
    [size] bytes of [p], whatever follows them. *)
Lemma DecodeRune_valid p c size :
  json.DecodeRune p = (c, size) -> (2 <= size)%nat ->
  json.EncodeRune c = firstn size p
  /\ (size <= length p)%nat
  /\ Forall (fun b => 128 <= b < 256) (firstn size p)
  /\ (forall q, json.DecodeRune (firstn size p ++ q) = (c, size)).
Proof.
  unfold json.DecodeRune, json.is_cont.
  destruct p as [|p0 r]; [intros [= <- <-]; lia|].
  destruct (Z.ltb_spec p0 128); [intros [= <- <-]; lia|].
  destruct (Z.ltb_spec p0 194); [intros [= <- <-]; lia|].
  destruct (Z.ltb_spec 244 p0); [intros [= <- <-]; lia|]. cbn [orb].
  destruct r as [|b1 r1]; [intros [= <- <-]; lia|].
  set (lo := if p0 =? 224 then _ else _). set (hi := if p0 =? 237 then _ else _).
  destruct (Z.ltb_spec b1 lo); [intros [= <- <-]; lia|].
  destruct (Z.ltb_spec hi b1); [intros [= <- <-]; lia|]. cbn [orb].
  assert (Hlo : 128 <= lo) by (subst lo; repeat case_match; lia).
  assert (Hhi : hi <= 191) by (subst hi; repeat case_match; lia).
  destruct (Z.ltb_spec p0 224).
  { cbn [Z.eqb Pos.eqb]. intros [= <- <-] _. rewrite decode2 by lia.
    rewrite EncodeRune_2 by lia. cbn [firstn app length].
    split; [f_equal; [|f_equal]; Z.div_mod_to_equations; lia|].
    split; [lia|]. split; [repeat constructor; lia|].
    intros q. replace (p0 <? 128) with false by lia.
    replace (p0 <? 194) with false by lia. replace (244 <? p0) with false by lia.
    replace (p0 <? 224) with true by lia. cbn [orb]. fold lo hi.
    replace (b1 <? lo) with false by lia. replace (hi <? b1) with false by lia.
    cbn [orb Z.eqb Pos.eqb]. rewrite decode2 by lia. reflexivity. }
  destruct r1 as [|b2 r2];
    [destruct (p0 <? 240); cbn [Z.eqb Pos.eqb]; intros [= <- <-]; lia|].
  destruct (Z.leb_spec 128 b2); cbn [andb negb];
    [|destruct (p0 <? 240); cbn [Z.eqb Pos.eqb]; intros [= <- <-]; lia].
  destruct (Z.leb_spec b2 191); cbn [andb negb];
    [|destruct (p0 <? 240); cbn [Z.eqb Pos.eqb]; intros [= <- <-]; lia].
  destruct (Z.ltb_spec p0 240).
  { cbn [Z.eqb Pos.eqb]. intros [= <- <-] _. rewrite decode3 by lia.
    assert (p0 = 224 -> 160 <= b1) by (subst lo; intros ->; cbn in *; lia).
    assert (p0 = 237 -> b1 <= 159) by (subst hi; intros ->; cbn in *; lia).
    rewrite EncodeRune_3 by lia. cbn [firstn app length].
    split; [f_equal; [|f_equal; [|f_equal]]; Z.div_mod_to_equations; lia|].
    split; [lia|]. split; [repeat constructor; lia|].
    intros q. replace (p0 <? 128) with false by lia.
    replace (p0 <? 194) with false by lia. replace (244 <? p0) with false by lia.
    replace (p0 <? 224) with false by lia. replace (p0 <? 240) with true by lia.
    cbn [orb]. fold lo hi.
    replace (b1 <? lo) with false by lia. replace (hi <? b1) with false by lia.
    replace (128 <=? b2) with true by lia. replace (b2 <=? 191) with true by lia.
    cbn [orb andb negb Z.eqb Pos.eqb]. rewrite decode3 by lia. reflexivity. }
  cbn [Z.eqb Pos.eqb].
  destruct r2 as [|b3 r3]; [intros [= <- <-]; lia|].
  destruct (Z.leb_spec 128 b3); cbn [andb negb]; [|intros [= <- <-]; lia].
  destruct (Z.leb_spec b3 191); cbn [andb negb]; [|intros [= <- <-]; lia].
  intros [= <- <-] _. rewrite decode4 by lia.
  assert (p0 = 240 -> 144 <= b1) by (subst lo; intros ->; cbn in *; lia).
  assert (p0 = 244 -> b1 <= 143) by (subst hi; intros ->; cbn in *; lia).
  rewrite EncodeRune_4 by lia. cbn [firstn app length].
  split; [f_equal; [|f_equal; [|f_equal; [|f_equal]]];
          Z.div_mod_to_equations; lia|].
  split; [lia|]. split; [repeat constructor; lia|].
  intros q. replace (p0 <? 128) with false by lia.
  replace (p0 <? 194) with false by lia. replace (244 <? p0) with false by lia.
  replace (p0 <? 224) with false by lia. replace (p0 <? 240) with false by lia.
  cbn [orb]. fold lo hi.
  replace (b1 <? lo) with false by lia. replace (hi <? b1) with false by lia.
  replace (128 <=? b2) with true by lia. replace (b2 <=? 191) with true by lia.
  replace (128 <=? b3) with true by lia. replace (b3 <=? 191) with true by lia.
  cbn [orb andb negb Z.eqb Pos.eqb]. rewrite decode4 by lia. reflexivity.
Qed.

(** ** Strings: what [appendString] writes, [unquote] reads back *)

Lemma byte_val_chr b : 0 <= b < 256 -> byte_val (byte_chr b) = b.
Proof.
  intros. unfold byte_val, byte_chr. rewrite N_ascii_embedding; lia.
Qed.

Lemma byte_chr_val c : byte_chr (byte_val c) = c.
Proof.
  unfold byte_val, byte_chr. rewrite N2Z.id. apply ascii_N_embedding.
Qed.

Lemma bytes_of_range s : Forall (fun b => 0 <= b < 256) (json.bytes_of s).
Proof.
  unfold json.bytes_of. apply Forall_map, Forall_forall.
  intros c _. apply byte_val_range.
Qed.

Lemma string_of_bytes_of s : json.string_of (json.bytes_of s) = s.
Proof.
  unfold json.string_of, json.bytes_of. rewrite map_map.
  rewrite (map_ext _ (fun c => c)) by apply byte_chr_val.
  rewrite map_id. apply string_of_list_ascii_of_string.
Qed.

Lemma eqb_by_val c d : byte_val c <> byte_val d -> Ascii.eqb c d = false.
Proof.
  intros H. apply Ascii.eqb_neq. congruence.
Qed.

Lemma DecodeRune_firstn p : json.DecodeRune (firstn 4 p) = json.DecodeRune p.
Proof.
  destruct p as [|a [|b [|c [|d r]]]]; reflexivity.
Qed.

Lemma unquote_escape_ascii b m R :
  0 <= b < 128 ->
  json.unquote_loop (S m) (encode.escape_ascii b ++ R)
  = (b ::.) <$> json.unquote_loop m R.
Proof.
  intros Hb. replace b with (Z.of_nat (Z.to_nat b)) by lia.
  assert (Hn : (Z.to_nat b < 128)%nat) by lia.
  generalize dependent (Z.to_nat b). clear. intros n Hn.
  do 128 (destruct n as [|n]; [reflexivity|]). lia.
Qed.

Lemma escape_ascii_length b : (1 <= length (encode.escape_ascii b))%nat.
Proof.
  unfold encode.escape_ascii. repeat case_match; simpl; lia.
Qed.

Lemma unquote_u202 c m R :
  c = 8232 \/ c = 8233 ->
  json.unquote_loop (S m)
    (backslash :: encode.chars "u202"
       ++ [nth_char json.lowerhex (Z.land c 15)] ++ R)
  = (json.EncodeRune c ++.) <$> json.unquote_loop m R.
Proof.
  intros [-> | ->]; reflexivity.
Qed.

Lemma unquote_high s m :
  (exists c r, s = c :: r /\ 128 <= byte_val c) ->
  json.unquote_loop (S m) s
  = (json.EncodeRune (json.DecodeRune (map byte_val s)).1 ++.)
      <$> json.unquote_loop m (skipn (json.DecodeRune (map byte_val s)).2 s).
Proof.
  intros (c & r & -> & Hc). cbn [json.unquote_loop].
  rewrite (eqb_by_val c backslash) by (vm_compute (byte_val backslash); lia).
  rewrite (eqb_by_val c dquote) by (vm_compute (byte_val dquote); lia).
  replace (byte_val c <? 32) with false by lia.
  replace (byte_val c <? 128) with false by lia. cbn [orb].
  destruct (json.DecodeRune (map byte_val (c :: r))); reflexivity.
Qed.

Lemma map_val_chr l :
  Forall (fun b => 0 <= b < 256) l -> map byte_val (map byte_chr l) = l.
Proof.
  induction 1; cbn [map]; [reflexivity|].
  rewrite byte_val_chr by assumption. congruence.
Qed.

Lemma unquote_escape_loop fuel :
  forall src, Forall (fun b => 0 <= b < 256) src ->
  json.Valid_loop fuel src = true ->
  forall m, (length (encode.escape_loop fuel src) <= m)%nat ->
  json.unquote_loop m (encode.escape_loop fuel src) = Some src.
Proof.
  induction fuel as [|fuel IH]; intros src Hsrc Hvalid m Hm.
  { destruct src; [destruct m; reflexivity | discriminate]. }
  destruct src as [|b r]; [destruct m; reflexivity|].
  cbn [json.Valid_loop encode.escape_loop] in *.
  pose proof (Forall_inv Hsrc) as Hb. pose proof (Forall_inv_tail Hsrc) as Hr.
  cbn beta in Hb. destruct (Z.ltb_spec b 128).
  - rewrite length_app in Hm. pose proof (escape_ascii_length b).
    destruct m as [|m]; [lia|].
    rewrite unquote_escape_ascii by lia. rewrite IH by (assumption || lia).
    reflexivity.
  - rewrite DecodeRune_firstn in *.
    destruct (json.DecodeRune (b :: r)) as [c size] eqn:Hdec.
    destruct (Nat.eqb_spec size 1); [discriminate|].
    assert (Hsize : (2 <= size)%nat).
    { destruct size as [|[|size]]; [|lia|lia].
      revert Hdec. unfold json.DecodeRune.
      repeat case_match; intros [= ]; lia. }
    destruct (DecodeRune_valid _ _ _ Hdec Hsize) as (Henc & Hlen & Hhigh & Hpre).
    rewrite andb_false_r in *.
    assert (Hrest : Forall (fun b => 0 <= b < 256) (skipn size (b :: r)))
      by (apply Forall_drop; assumption).
    destruct ((c =? 8232) || (c =? 8233)) eqn:Hsep.
    + destruct m as [|m]; [cbn [length] in Hm; lia|].
      rewrite unquote_u202 by lia.
      cbn [length] in Hm. rewrite !length_app in Hm. cbn [length] in Hm.
      rewrite IH by (assumption || lia). cbn [fmap option_fmap option_map].
      rewrite Henc, firstn_skipn. reflexivity.
    + rewrite length_app, length_map, firstn_length_le in Hm by assumption.
      destruct m as [|m]; [lia|].
      rewrite unquote_high.
      2:{ destruct size as [|size']; [lia|].
          exists (byte_chr b), (map byte_chr (firstn size' r)
                    ++ encode.escape_loop fuel (skipn (S size') (b :: r))).
          split; [reflexivity|]. rewrite byte_val_chr; lia. }
      rewrite map_app, map_val_chr.
      2:{ eapply Forall_impl; [exact Hhigh|]. cbn. lia. }
      rewrite Hpre. cbn [fst snd].
      rewrite drop_app_length' by (rewrite length_map, firstn_length_le; lia).
      rewrite IH by (assumption || lia). cbn [fmap option_fmap option_map].
      rewrite Henc, firstn_skipn. reflexivity.
Qed.

Lemma length_string_of_list (l : list ascii) :
  String.length (string_of_list_ascii l) = length l.
Proof. induction l; cbn; congruence. Qed.

Lemma list_of_append (a b : string) :
  list_ascii_of_string (a +:+ b)
  = list_ascii_of_string a ++ list_ascii_of_string b.
Proof.
  induction a as [|c a IH]; [reflexivity|].
  rewrite append_cons. cbn. congruence.
Qed.

Lemma string_of_app (a b : list ascii) :
  string_of_list_ascii (a ++ b)
  = string_of_list_ascii a +:+ string_of_list_ascii b.
Proof.
  induction a as [|c a IH]; [reflexivity|].
  cbn [app string_of_list_ascii]. rewrite append_cons. congruence.
Qed.

Lemma unquote_escape s :
  json.ValidString s = true -> json.unquote (encode.escape s) = Some s.
Proof.
  intros Hvalid. unfold json.unquote, encode.escape.
  rewrite list_ascii_of_string_of_list_ascii, length_string_of_list.
  rewrite unquote_escape_loop.
  - cbn. rewrite string_of_bytes_of. reflexivity.
  - apply bytes_of_range.
  - exact Hvalid.
  - lia.
Qed.

(** ** The scanner on what the encoder writes *)

Lemma run_app s a b :
  json.run s (a +:+ b)
  = match json.run s a with inl s' => json.run s' b | inr e => inr e end.
Proof.
  revert s. induction a as [|c a IH]; intros s; [reflexivity|].
  rewrite append_cons. cbn [json.run].
  destruct (json.do_step s c); [apply IH | reflexivity].
Qed.

Lemma step_complete v ps : json.step (json.complete v ps) = json.stateEndValue.
Proof.
  destruct ps as [|[done key|done [key|]|done] r]; try reflexivity.
  destruct v; reflexivity.
Qed.

Lemma run_complete v ps c rest :
  json.run (json.complete v ps) (String c rest)
  = match json.do_stateEndValue (json.complete v ps) c with
    | inl s' => json.run s' rest
    | inr e => inr e
    end.
Proof.
  cbn [json.run]. unfold json.do_step. rewrite step_complete. reflexivity.
Qed.

(** A string: the text between the quotes is read as it stands. *)
Lemma run_string t :
  wf_raw t ->
  forall acc ps rest,
    json.run (json.mkScanner (json.stateInString acc) ps None)
      (string_of_list_ascii t +:+ String dquote rest)
    = json.run (json.complete (json.String_ (json.lit_of (rev t ++ acc))) ps)
        rest.
Proof.
  induction 1 as [|c r Hc _ IH|e r He _ IH|h1 h2 h3 h4 r H1 H2 H3 H4 _ IH];
    intros acc ps rest; cbn [string_of_list_ascii]; rewrite ?append_cons.
  - reflexivity.
  - cbn [json.run json.do_step json.step json.parseState].
    unfold plain in Hc. apply andb_prop in Hc as [Hc Hc3].
    apply andb_prop in Hc as [Hc1 Hc2].
    apply negb_true_iff in Hc1, Hc2. rewrite Hc1, Hc2.
    replace (byte_val c <? 32) with false by lia.
    rewrite IH. cbn [rev]. rewrite <- app_assoc. reflexivity.
  - cbn [json.run json.do_step json.step json.parseState].
    change (Ascii.eqb backslash dquote) with false.
    change (Ascii.eqb backslash backslash) with true. cbn iota.
    cbn [json.run json.do_step json.step json.parseState].
    unfold simple_escape in He. rewrite He.
    rewrite IH. cbn [rev]. rewrite <- !app_assoc. reflexivity.
  - cbn [json.run json.do_step json.step json.parseState].
    change (Ascii.eqb backslash dquote) with false.
    change (Ascii.eqb backslash backslash) with true. cbn iota.
    cbn [json.run json.do_step json.step json.parseState].
    change (existsb _ _) with false. change (Ascii.eqb "u" "u") with true.
    cbn iota. cbn [json.run json.do_step json.step json.parseState].
    rewrite H1. cbn [Nat.eqb json.run json.do_step json.step json.parseState].
    rewrite H2. cbn [Nat.eqb json.run json.do_step json.step json.parseState].
    rewrite H3. cbn [Nat.eqb json.run json.do_step json.step json.parseState].
    rewrite H4. cbn [Nat.eqb].
    rewrite IH. cbn [rev]. rewrite <- !app_assoc. reflexivity.
Qed.

Lemma wf_raw_plain l : forallb plain l = true -> wf_raw l.
Proof.
  induction l as [|c l IH]; cbn [forallb]; [constructor|].
  intros [Hc Hl]%andb_prop. apply wf_plain; auto.
Qed.

Lemma escape_ascii_wf b R :
  0 <= b < 128 -> wf_raw R -> wf_raw (encode.escape_ascii b ++ R).
Proof.
  intros Hb HR. replace b with (Z.of_nat (Z.to_nat b)) by lia.
  assert (Hn : (Z.to_nat b < 128)%nat) by lia.
  generalize dependent (Z.to_nat b). clear Hb. intros n Hn.
  do 128 (destruct n as [|n];
          [first [ apply wf_plain; [reflexivity|exact HR]
                 | apply wf_esc; [reflexivity|exact HR]
                 | apply wf_u; [reflexivity..|exact HR] ]|]).
  lia.
Qed.

Lemma DecodeRune_one b r c :
  128 <= b -> json.DecodeRune (b :: r) = (c, 1%nat) -> c = json.RuneError.
Proof.
  unfold json.DecodeRune. intros Hb.
  replace (b <? 128) with false by lia.
  repeat case_match; intros [= ]; congruence.
Qed.

Lemma DecodeRune_pos b r : (json.DecodeRune (b :: r)).2 <> 0%nat.
Proof.
  unfold json.DecodeRune. repeat case_match; cbn; lia.
Qed.

(** Whatever the bytes, the encoder writes a text the scanner accepts. *)
Lemma escape_loop_wf fuel :
  forall src, Forall (fun b => 0 <= b < 256) src ->
  wf_raw (encode.escape_loop fuel src).
Proof.
  induction fuel as [|fuel IH]; intros src Hsrc; [constructor|].
  destruct src as [|b r]; [constructor|]. cbn [encode.escape_loop].
  pose proof (Forall_inv Hsrc) as Hb. pose proof (Forall_inv_tail Hsrc) as Hr.
  cbn beta in Hb. destruct (Z.ltb_spec b 128).
  { apply escape_ascii_wf; [lia | apply IH, Hr]. }
  rewrite DecodeRune_firstn.
  destruct (json.DecodeRune (b :: r)) as [c size] eqn:Hdec.
  assert (Hrest : wf_raw (encode.escape_loop fuel (skipn size (b :: r))))
    by (apply IH, Forall_drop, Hsrc).
  destruct ((c =? json.RuneError) && (size =? 1)%nat) eqn:Hbad.
  { apply wf_u; [reflexivity..| apply IH, Hr]. }
  destruct ((c =? 8232) || (c =? 8233)) eqn:Hsep.
  { apply orb_prop in Hsep as [->%Z.eqb_eq | ->%Z.eqb_eq];
      (apply wf_u; [reflexivity..| exact Hrest]). }
  assert (Hsize : (2 <= size)%nat).
  { pose proof (DecodeRune_pos b r) as Hpos. rewrite Hdec in Hpos. cbn in Hpos.
    destruct (Nat.eq_dec size 1%nat) as [->|]; [|lia].
    apply DecodeRune_one in Hdec as ->; [|lia]. discriminate. }
  destruct (DecodeRune_valid _ _ _ Hdec Hsize) as (_ & _ & Hhigh & _).
  apply wf_raw_app; [|exact Hrest]. apply wf_raw_plain.
  apply forallb_forall. intros x (y & <- & Hy)%in_map_iff.
  apply (proj1 (List.Forall_forall _ _)) with (x := y) in Hhigh; [|exact Hy].
  cbn beta in Hhigh.
  unfold plain. rewrite byte_val_chr by lia.
  rewrite (eqb_by_val _ dquote), (eqb_by_val _ backslash)
    by (rewrite byte_val_chr by lia; vm_compute; lia).
  cbn. lia.
Qed.

Lemma escape_wf s : wf_raw (list_ascii_of_string (encode.escape s)).
Proof.
  unfold encode.escape. rewrite list_ascii_of_string_of_list_ascii.
  apply escape_loop_wf, bytes_of_range.
Qed.

Lemma begin_quote ps :
  json.do_stateBeginValue ps dquote
  = inl (json.mkScanner (json.stateInString []) ps None).
Proof. reflexivity. Qed.

Lemma scans_quoted raw :
  wf_string raw ->
  scans_as (String dquote raw +:+ String dquote EmptyString) (json.String_ raw).
Proof.
  intros Hwf ps c rest _.
  rewrite append_assoc, append_cons.
  cbn [json.run json.do_step json.step json.parseState].
  rewrite begin_quote.
  change (String dquote "" +:+ String c rest) with (String dquote (String c rest)).
  rewrite <- (string_of_list_ascii_of_string raw) at 1.
  rewrite run_string by exact Hwf.
  rewrite app_nil_r. unfold json.lit_of. rewrite rev_involutive.
  rewrite string_of_list_ascii_of_string. apply run_complete.
Qed.

Lemma scans_string s : scans_as (encode.quote s) (json.String_ (encode.escape s)).
Proof. apply scans_quoted, escape_wf. Qed.

(** A number: the scanner takes the same steps under any stack. *)
Lemma number_step st c s' acc' :
  st = json.stateBeginValue \/ is_Some (number_acc st) ->
  json.do_step (json.mkScanner st [] None) c = inl s' ->
  number_acc (json.step s') = Some acc' ->
  forall ps,
    json.do_step (json.mkScanner st ps None) c
    = inl (json.mkScanner (json.step s') ps None)
    /\ acc' = c :: default [] (number_acc st).
Proof.
  intros Hst Hstep Hacc ps.
  destruct st; (destruct Hst as [?|[? ?]]; try discriminate);
    revert Hstep;
    unfold json.do_step, json.do_stateBeginValue, json.do_state0,
      json.do_stateESign, json.end_number, json.do_stateEndValue, json.push;
    cbn [json.step json.parseState json.complete];
    repeat case_match; intros [= <-]; cbn in Hacc; try discriminate;
    injection Hacc as <-; split; reflexivity.
Qed.

Lemma scan_number_run l :
  forall st st',
    st = json.stateBeginValue \/ is_Some (number_acc st) ->
    scan_number st l = Some st' ->
    forall ps rest,
      json.run (json.mkScanner st ps None) (string_of_list_ascii l +:+ rest)
      = json.run (json.mkScanner st' ps None) rest
      /\ (l = [] /\ st' = st
          \/ number_acc st' = Some (rev l ++ default [] (number_acc st))).
Proof.
  induction l as [|c l IH]; intros st st' Hst Hscan ps rest.
  { injection Hscan as <-. split; [reflexivity | left; auto]. }
  cbn [scan_number] in Hscan.
  destruct (json.do_step (json.mkScanner st [] None) c) as [s1|] eqn:Hstep;
    [|discriminate].
  destruct (number_acc (json.step s1)) as [acc1|] eqn:Hacc; [|discriminate].
  destruct (number_step _ _ _ _ Hst Hstep Hacc ps) as [Hps ->].
  cbn [string_of_list_ascii]. rewrite append_cons. cbn [json.run].
  rewrite Hps.
  destruct (IH _ _ (or_intror (ex_intro _ _ Hacc)) Hscan ps rest) as [Hrun Hend].
  split; [exact Hrun|]. right.
  destruct Hend as [[-> ->] | ->].
  - rewrite Hacc. reflexivity.
  - rewrite Hacc. cbn [default from_option rev]. unfold Datatypes.id.
    rewrite <- app_assoc. reflexivity.
Qed.

Lemma scans_number lit : number_literal lit = true -> scans_as lit (json.Number lit).
Proof.
  unfold number_literal. intros Hlit ps c rest Hc.
  destruct (scan_number json.stateBeginValue (list_ascii_of_string lit))
    as [st'|] eqn:Hscan; [|discriminate].
  destruct (scan_number_run _ _ _ (or_introl eq_refl) Hscan ps (String c rest))
    as [Hrun Hend].
  rewrite string_of_list_ascii_of_string in Hrun. rewrite Hrun.
  destruct Hend as [[_ ->] | Hacc]; [discriminate|].
  cbn [number_acc default from_option] in Hacc. rewrite app_nil_r in Hacc.
  assert (Hlit_of : forall acc, number_acc st' = Some acc -> json.lit_of acc = lit).
  { intros acc Heq. rewrite Heq in Hacc. injection Hacc as ->.
    unfold json.lit_of. rewrite rev_involutive.
    apply string_of_list_ascii_of_string. }
  destruct st'; try discriminate; cbn [number_acc] in Hlit_of;
    rewrite <- (Hlit_of _ eq_refl); destruct Hc as [-> | ->]; reflexivity.
Qed.

(** One member of an object, and the byte that follows it. *)
Lemma scan_member st done r k t v c rest :
  st = json.stateBeginString \/ st = json.stateBeginStringOrEmpty ->
  scans_as t v ->
  c = ","%char \/ c = "}"%char ->
  json.run (json.mkScanner st (json.parseObjectKey done None :: r) None)
    ((encode.quote k +:+ ":" +:+ t) +:+ String c rest)
  = match
      json.do_stateEndValue
        (json.mkScanner json.stateEndValue
           (json.parseObjectValue ((encode.escape k, v) :: done) None :: r)
           None) c
    with
    | inl s' => json.run s' rest
    | inr e => inr e
    end.
Proof.
  intros Hst Ht Hc. unfold encode.quote.
  rewrite !append_assoc, append_cons.
  assert (Hq : json.do_step
                 (json.mkScanner st (json.parseObjectKey done None :: r) None)
                 dquote
               = inl (json.mkScanner (json.stateInString [])
                        (json.parseObjectKey done None :: r) None))
    by (destruct Hst as [-> | ->]; reflexivity).
  cbn [json.run]. rewrite Hq.
  rewrite <- (string_of_list_ascii_of_string (encode.escape k)) at 1.
  rewrite append_cons, append_nil_l.
  rewrite run_string by apply escape_wf.
  rewrite app_nil_r. unfold json.lit_of. rewrite rev_involutive.
  rewrite string_of_list_ascii_of_string.
  rewrite append_cons, append_nil_l.
  cbn [json.complete json.run json.do_step json.step json.parseState
       json.do_stateEndValue].
  change (json.isSpace ":") with false. change (Ascii.eqb ":" ":") with true.
  cbn iota. rewrite (Ht _ c rest Hc). reflexivity.
Qed.

Lemma scan_members ms vs :
  Forall2 (fun m v => scans_as m.2 v) ms vs -> ms <> [] ->
  forall st done r rest,
    st = json.stateBeginString \/ st = json.stateBeginStringOrEmpty ->
    json.run (json.mkScanner st (json.parseObjectKey done None :: r) None)
      (join "," (map member_text ms) +:+ String "}" rest)
    = json.run
        (json.complete
           (json.Object (rev done ++ zip_with member_value ms vs)) r)
        rest.
Proof.
  induction 1 as [|[k t] v ms vs Hv Hrest IH]; [congruence|].
  intros _ st done r rest Hst. cbn [map zip_with].
  destruct ms as [|m ms].
  - inversion Hrest; subst. cbn [join map zip_with].
    unfold member_text at 1. cbn [fst snd].
    rewrite (scan_member st done r k t v "}" rest Hst Hv) by auto.
    cbn [json.do_stateEndValue json.parseState].
    change (json.isSpace "}") with false. change (Ascii.eqb "}" ",") with false.
    change (Ascii.eqb "}" "}") with true. cbn iota. cbn [rev].
    reflexivity.
  - change (join "," (member_text (k, t) :: map member_text (m :: ms)))
      with (member_text (k, t) +:+ "," +:+ join "," (map member_text (m :: ms))).
    rewrite append_assoc. rewrite (append_assoc ","). rewrite append_cons, append_nil_l.
    unfold member_text at 1. cbn [fst snd].
    rewrite (scan_member st done r k t v "," _ Hst Hv) by auto.
    cbn [json.do_stateEndValue json.parseState].
    change (json.isSpace ",") with false. change (Ascii.eqb "," ",") with true.
    cbn iota.
    rewrite IH by (congruence || auto). cbn [rev].
    rewrite <- app_assoc. reflexivity.
Qed.

(** An encoded struct is read as the object of its members. *)
Lemma checkValid_struct ms vs :
  Forall2 (fun m v => scans_as m.2 v) ms vs -> ms <> [] ->
  json.checkValid ("{" +:+ join "," (map member_text ms) +:+ "}")
  = inl (json.Object (zip_with member_value ms vs)).
Proof.
  intros Hms Hne. unfold json.checkValid.
  rewrite append_cons, append_nil_l. cbn [json.run].
  change (json.do_step (json.mkScanner json.stateBeginValue [] None) "{")
    with (inl (B := error)
            (json.mkScanner json.stateBeginStringOrEmpty
               [json.parseObjectKey [] None] None)).
  cbn iota. rewrite (scan_members ms vs Hms Hne) by auto.
  reflexivity.
Qed.


(** ** The text of a timestamp *)

Lemma forallb_chars_append p (a b : string) :
  forallb p (list_ascii_of_string (a +:+ b))
  = forallb p (list_ascii_of_string a) && forallb p (list_ascii_of_string b).
Proof. rewrite list_of_append. apply forallb_app. Qed.

Lemma plain_uint u :
  forallb plain (list_ascii_of_string (NilEmpty.string_of_uint u)) = true.
Proof.
  induction u; cbn [list_ascii_of_string forallb NilEmpty.string_of_uint];
    rewrite ?IHu; reflexivity.
Qed.

Lemma plain_fmt_d n : forallb plain (list_ascii_of_string (fmt_d n)) = true.
Proof.
  unfold fmt_d, NilZero.string_of_int, NilZero.string_of_uint.
  destruct (Z.to_int n) as [u|u]; destruct u;
    cbn [list_ascii_of_string forallb NilEmpty.string_of_uint];
    rewrite ?plain_uint; reflexivity.
Qed.

Lemma plain_zeros n :
  forallb plain (list_ascii_of_string (string_of_list_ascii (repeat "0"%char n)))
  = true.
Proof.
  rewrite list_ascii_of_string_of_list_ascii. induction n; cbn; auto.
Qed.

Lemma plain_appendInt x w :
  forallb plain (list_ascii_of_string (time.appendInt x w)) = true.
Proof.
  unfold time.appendInt. rewrite !forallb_chars_append, plain_zeros, plain_fmt_d.
  destruct (x <? 0); reflexivity.
Qed.

Lemma plain_appendFormatRFC3339 t :
  forallb plain (list_ascii_of_string (time.appendFormatRFC3339 t)) = true.
Proof.
  unfold time.appendFormatRFC3339, time.appendNano.
  destruct (time.civil_from_days _) as [[year month] day].
  rewrite !forallb_chars_append, !plain_appendInt.
  destruct (time.nsec t =? 0), (time.zoneOffset t =? 0);
    try destruct (time.trim_zeros _ _ _);
    rewrite ?forallb_chars_append, ?plain_appendInt;
    try destruct (_ <? 0); reflexivity.
Qed.

Lemma scans_time b t :
  time.appendStrictRFC3339 t = inl b ->
  scans_as (String dquote b +:+ String dquote EmptyString) (json.String_ b).
Proof.
  intros Hb. apply scans_quoted, wf_raw_plain.
  revert Hb. unfold time.appendStrictRFC3339.
  repeat case_match; intros [= <-]. apply plain_appendFormatRFC3339.
Qed.

(** ** Reading an encoded struct back *)

Lemma object_member {S} env struct (fields : list (decode.Field S))
    k v rest s saved f s' :
  json.unquote (encode.escape k) = Some k ->
  decode.find_field fields k = Some f ->
  decode.store env struct f v s = decode.Ok s' ->
  decode.object env struct fields ((encode.escape k, v) :: rest) s saved
  = decode.object env struct fields rest s' saved.
Proof.
  intros Hk Hf Hs. cbn [decode.object]. rewrite Hk, Hf, Hs. reflexivity.
Qed.

Lemma store_string_back {S} env struct n (set : string -> S -> S) str s :
  json.ValidString str = true ->
  decode.store env struct (decode.StringField n set)
    (json.String_ (encode.escape str)) s
  = decode.Ok (set str s).
Proof.
  intros Hv. cbn [decode.store decode.store_string].
  rewrite unquote_escape by exact Hv. reflexivity.
Qed.

Lemma store_time_back {S} env struct n (set : time.Time -> S -> S) b t s :
  time_Parse env b = inl t ->
  decode.store env struct (decode.TimeField n set) (json.String_ b) s
  = decode.Ok (set t s).
Proof.
  intros Ht. cbn [decode.store decode.store_time]. rewrite Ht. reflexivity.
Qed.

Lemma store_float64_back {S} env struct n (set : strconv.float64 -> S -> S)
    lit f s :
  strconv.ParseFloat lit = Some f ->
  decode.store env struct (decode.Float64Field n set) (json.Number lit) s
  = decode.Ok (set f s).
Proof.
  intros Hf. cbn [decode.store decode.store_float64]. rewrite Hf. reflexivity.
Qed.

Lemma time_read_back_inv env t :
  time_read_back env t = inl t ->
  exists b, time.appendStrictRFC3339 t = inl b /\ time_Parse env b = inl t.
Proof.
  unfold time_read_back.
  destruct (time.appendStrictRFC3339 t) as [b|]; [eauto | discriminate].
Qed.

Lemma float_read_back_inv f :
  float_read_back f = Some f ->
  exists lit, strconv.FormatFloat_json f = Some lit
              /\ number_literal lit = true /\ strconv.ParseFloat lit = Some f.
Proof.
  unfold float_read_back.
  destruct (strconv.FormatFloat_json f) as [lit|]; [|discriminate].
  destruct (number_literal lit) eqn:Hlit; [eauto | discriminate].
Qed.

Lemma encode_time_text t b :
  time.appendStrictRFC3339 t = inl b ->
  encode.encode_time t = inl (String dquote b +:+ String dquote EmptyString).
Proof.
  intros Hb. unfold encode.encode_time, time.MarshalJSON. rewrite Hb.
  reflexivity.
Qed.

Lemma encode_float64_text f lit :
  strconv.FormatFloat_json f = Some lit -> encode.encode_float64 f = inl lit.
Proof. intros Hf. unfold encode.encode_float64. rewrite Hf. reflexivity. Qed.

Ltac read_member :=
  erewrite object_member;
  [ | vm_compute; reflexivity | reflexivity
    | first [ apply store_string_back; assumption
            | apply store_time_back; eassumption
            | apply store_float64_back; eassumption ] ].

Lemma Marshal_then_Unmarshal env s :
  valid_strings s ->
  float_read_back (Amount s) = Some (Amount s) ->
  time_read_back env (CreatedAt s) = inl (CreatedAt s) ->
  time_read_back env (NextBillingDate s) = inl (NextBillingDate s) ->
  time_read_back env (CurrentPeriodEnd s) = inl (CurrentPeriodEnd s) ->
  exists data,
    encode.Marshal_Subscription s = inl data
    /\ Unmarshal_Subscription env data = inl s.
Proof.
  intros (Hid & Hstatus & Hplan & Hcust & Hprod & Hcur & Hcycle & Hpurchase)
    (lit & Hfmt & Hlit & Hparse)%float_read_back_inv
    (b1 & Hb1 & Ht1)%time_read_back_inv
    (b2 & Hb2 & Ht2)%time_read_back_inv
    (b3 & Hb3 & Ht3)%time_read_back_inv.
  unfold encode.Marshal_Subscription, encode.Marshal_struct, encode.encode_string.
  rewrite (encode_time_text _ _ Hb1), (encode_time_text _ _ Hb2),
    (encode_time_text _ _ Hb3), (encode_float64_text _ _ Hfmt).
  cbn [encode.members]. eexists. split; [reflexivity|].
  unfold Unmarshal_Subscription, decode.Unmarshal_struct.
  set (q b := String dquote b +:+ String dquote EmptyString).
  pose (ms := [ ("id", encode.quote (ID s)); ("status", encode.quote (Status s));
                ("plan", encode.quote (Plan s)); ("created_at", q b1);
                ("customer_id", encode.quote (CustomerID s));
                ("product_id", encode.quote (ProductID s));
                ("next_billing_date", q b2); ("current_period_end", q b3);
                ("amount", lit); ("currency", encode.quote (Currency s));
                ("billing_cycle", encode.quote (BillingCycle s));
                ("purchase_id", encode.quote (PurchaseID s)) ]
              : list (string * string)).
  pose (vs := [ json.String_ (encode.escape (ID s));
                json.String_ (encode.escape (Status s));
                json.String_ (encode.escape (Plan s)); json.String_ b1;
                json.String_ (encode.escape (CustomerID s));
                json.String_ (encode.escape (ProductID s));
                json.String_ b2; json.String_ b3; json.Number lit;
                json.String_ (encode.escape (Currency s));
                json.String_ (encode.escape (BillingCycle s));
                json.String_ (encode.escape (PurchaseID s)) ]).
  change (json.checkValid _)
    with (json.checkValid ("{" +:+ join "," (map member_text ms) +:+ "}")).
  rewrite (checkValid_struct ms vs).
  2:{ subst ms vs q. repeat constructor; cbn [snd];
        first [ apply scans_string | eapply scans_time; eassumption
              | apply scans_number; assumption ]. }
  2:{ discriminate. }
  subst ms vs. cbn [zip_with member_value fst snd decode.struct_value].
  unfold member_value. cbn [fst snd]. do 12 read_member. cbn [decode.object].
  destruct s; reflexivity.
Qed.




(** ** C3: the message for a failed response *)

(** The object of an error and a message, as [json.Marshal] writes it, is
    read as that object, whatever the two texts. *)
Lemma error_body_object e m :
  json.ValidString e = true -> json.ValidString m = true ->
  error_object (error_body e m) e m.
Proof.
  intros He Hm. exists (encode.escape e), (encode.escape m).
  split; [|split; apply unquote_escape; assumption].
  unfold error_body.
  pose (ms := [("error", encode.quote e); ("message", encode.quote m)]
              : list (string * string)).
  pose (vs := [json.String_ (encode.escape e); json.String_ (encode.escape m)]).
  replace ("{" +:+ encode.quote "error" +:+ ":" +:+ encode.quote e +:+ ","
           +:+ encode.quote "message" +:+ ":" +:+ encode.quote m +:+ "}")
    with ("{" +:+ join "," (map member_text ms) +:+ "}")
    by (subst ms; cbn [map join member_text fst snd];
        rewrite !append_assoc; reflexivity).
  rewrite (checkValid_struct ms vs).
  - reflexivity.
  - subst ms vs. repeat constructor; apply scans_string.
  - discriminate.
Qed.



(** The cases of the specification, run: a structured error; an empty
    [error] with a message; a body that is not JSON. *)
Example C3_structured_error :
  (CleverbridgeDoRequest sample_Debug
     (env_answering
        (respond "404 Not Found" 404
           (js "{'error':'invalid_id','message':'not found'}")))
     sample_cb http.Background "GET" "/subscription/getsubscription" ∅ None
     empty_world).1
  = Some (None,
          Some (errorString "Cleverbridge API error: invalid_id - not found")).
Proof. vm_compute. reflexivity. Qed.

Example C3_empty_error_with_message :
  (CleverbridgeDoRequest sample_Debug
     (env_answering
        (respond "404 Not Found" 404
           (js "{'error':'','message':'not found'}")))
     sample_cb http.Background "GET" "/subscription/getsubscription" ∅ None
     empty_world).1
  = Some (None,
          Some (errorString
                  ("request failed with status: 404 Not Found, response: "
                   +:+ js "{'error':'','message':'not found'}"))).
Proof. vm_compute. reflexivity. Qed.

Example C3_raw_body :
  (CleverbridgeDoRequest sample_Debug
     (env_answering
        (respond "500 Internal Server Error" 500 "internal error"))
     sample_cb http.Background "GET" "/subscription/getsubscription" ∅ None
     empty_world).1
  = Some (None,
          Some (errorString
                  "request failed with status: 500 Internal Server Error, response: internal error")).
Proof. vm_compute. reflexivity. Qed.

(** ** Query strings *)

Lemma string_forallb_append p (a b : string) :
  string_forallb p (a +:+ b) = string_forallb p a && string_forallb p b.
Proof.
  induction a as [|c a IH]; [reflexivity|].
  rewrite append_cons. cbn [string_forallb]. rewrite IH. apply andb_assoc.
Qed.

Lemma count_char_append c (a b : string) :
  count_char c (a +:+ b) = (count_char c a + count_char c b)%nat.
Proof.
  induction a as [|x a IH]; [reflexivity|].
  rewrite append_cons. cbn [count_char]. rewrite IH. lia.
Qed.

Lemma escape_byte_safe c : string_forallb query_safe (url.escape_byte c) = true.
Proof. destruct c as [[] [] [] [] [] [] [] []]; reflexivity. Qed.

Lemma QueryEscape_safe s : string_forallb query_safe (url.QueryEscape s) = true.
Proof.
  induction s as [|c s IH]; [reflexivity|]. cbn [url.QueryEscape].
  rewrite string_forallb_append, escape_byte_safe, IH. reflexivity.
Qed.

Lemma count_char_unsafe c s :
  query_safe c = false -> string_forallb query_safe s = true ->
  count_char c s = 0%nat.
Proof.
  intros Hc. induction s as [|x s IH]; [reflexivity|].
  cbn [string_forallb count_char]. intros [Hx Hs]%andb_prop.
  destruct (Ascii.eqb_spec x c) as [->|]; [congruence|]. auto.
Qed.

(** X1. The URL of every operation is the base URL, the path of the
    operation, a question mark and a query. Whatever the arguments, the
    query consists of unreserved characters, [+], [%], [=] and [&] only,
    and holds exactly one [=] for each parameter and one [&] between two
    parameters: an argument cannot add a parameter, end the query or
    start a fragment. *)
Theorem X1_query_cannot_be_injected (base : string) (call : Call) :
  exists q,
    fullURL_of base (call_path call) (call_params call)
    = base +:+ call_path call +:+ "?" +:+ q
    /\ string_forallb
         (fun c => query_safe c || Ascii.eqb c "=" || Ascii.eqb c "&") q = true
    /\ count_char "=" q = call_arity call
    /\ count_char "&" q = (call_arity call - 1)%nat.
Proof.
  exists (call_query call). split; [apply fullURL_call|].
  assert (Hweak : forall s, string_forallb query_safe s = true ->
            string_forallb
              (fun c => query_safe c || Ascii.eqb c "=" || Ascii.eqb c "&") s = true).
  { induction s as [|x s IH]; [reflexivity|]. cbn [string_forallb].
    intros [-> Hs]%andb_prop. rewrite IH by exact Hs. reflexivity. }
  pose proof (fun c H s => count_char_unsafe c (url.QueryEscape s) H
                              (QueryEscape_safe s)) as Hcount.
  destruct call as [sid cur|pid|cid]; cbn [call_query call_arity];
    rewrite ?string_forallb_append, ?count_char_append,
      ?(Hcount "="%char eq_refl), ?(Hcount "&"%char eq_refl),
      ?(Hweak _ (QueryEscape_safe _));
    repeat split; reflexivity.
Qed.

(** ** Base64 *)

Lemma decodeMap_enc v : 0 <= v < 64 -> decodeMap (base64.enc v) = v.
Proof.
  intros Hv. replace v with (Z.of_nat (Z.to_nat v)) by lia.
  assert (Hn : (Z.to_nat v < 64)%nat) by lia.
  generalize dependent (Z.to_nat v). clear Hv. intros n Hn.
  do 64 (destruct n as [|n]; [reflexivity|]). lia.
Qed.

Lemma decodeMap_padding : decodeMap base64.StdPadding = 255.
Proof. reflexivity. Qed.

Lemma decodeMap_enc_any v : decodeMap (base64.enc v) = v mod 64.
Proof.
  rewrite <- (decodeMap_enc (v mod 64)) by (apply Z.mod_pos_bound; lia).
  unfold base64.enc. rewrite !land_63, Z.mod_mod by lia. reflexivity.
Qed.

Lemma enc_eq v w : base64.enc v = base64.enc w -> v mod 64 = w mod 64.
Proof. intros H. rewrite <- !decodeMap_enc_any, H. reflexivity. Qed.

Lemma enc_not_padding v : base64.enc v <> base64.StdPadding.
Proof.
  intros H. apply (f_equal decodeMap) in H.
  rewrite decodeMap_enc_any, decodeMap_padding in H.
  pose proof (Z.mod_pos_bound v 64). lia.
Qed.

Lemma group3 a b c :
  0 <= a < 256 -> 0 <= b < 256 -> 0 <= c < 256 ->
  Z.lor (Z.lor (Z.shiftl a 16) (Z.shiftl b 8)) c = a * 65536 + b * 256 + c.
Proof.
  intros. rewrite (Z.shiftl_mul_pow2 a 16), (Z.shiftl_mul_pow2 b 8) by lia.
  change (2 ^ 16) with 65536. change (2 ^ 8) with 256.
  rewrite (lor_add (a * 65536) (b * 256) 16);
    [|lia | change (2 ^ 16) with 65536; Z.div_mod_to_equations; lia
     | change (2 ^ 16) with 65536; lia].
  rewrite (lor_add _ c 8);
    [reflexivity | lia | change (2 ^ 8) with 256; Z.div_mod_to_equations; lia
     | change (2 ^ 8) with 256; lia].
Qed.

Lemma group2 a b :
  0 <= a < 256 -> 0 <= b < 256 ->
  Z.lor (Z.shiftl a 16) (Z.shiftl b 8) = a * 65536 + b * 256.
Proof.
  intros. rewrite (Z.shiftl_mul_pow2 a 16), (Z.shiftl_mul_pow2 b 8) by lia.
  change (2 ^ 16) with 65536. change (2 ^ 8) with 256.
  rewrite (lor_add (a * 65536) (b * 256) 16);
    [reflexivity | lia | change (2 ^ 16) with 65536; Z.div_mod_to_equations; lia
     | change (2 ^ 16) with 65536; lia].
Qed.

Lemma shiftr_div a k : 0 <= k -> Z.shiftr a k = a / 2 ^ k.
Proof. apply Z.shiftr_div_pow2. Qed.

Lemma String_inj c s c' s' : String c s = String c' s' -> c = c' /\ s = s'.
Proof. intros [= -> ->]. auto. Qed.

Ltac split_strings :=
  repeat match goal with
    | H : String _ _ = String _ _ |- _ =>
        let H1 := fresh in let H2 := fresh in
        apply String_inj in H as [H1 H2]
    | H : String _ _ = EmptyString |- _ => discriminate H
    | H : EmptyString = String _ _ |- _ => discriminate H
    end.

Ltac enc_facts :=
  repeat match goal with
    | H : base64.enc _ = base64.enc _ |- _ => apply enc_eq in H
    | H : base64.enc _ = base64.StdPadding |- _ =>
        exfalso; exact (enc_not_padding _ H)
    | H : base64.StdPadding = base64.enc _ |- _ =>
        exfalso; symmetry in H; exact (enc_not_padding _ H)
    end.

Lemma Encode_inj n :
  forall l l',
    (length l <= n)%nat ->
    Forall (fun b => 0 <= b < 256) l -> Forall (fun b => 0 <= b < 256) l' ->
    base64.Encode l = base64.Encode l' -> l = l'.
Proof.
  induction n as [|n IH]; intros l l' Hlen Hl Hl' Heq.
  { destruct l; [|cbn in Hlen; lia].
    destruct l' as [|a [|b [|c r]]]; [reflexivity|discriminate..]. }
  destruct l as [|a [|b [|c r]]]; destruct l' as [|a' [|b' [|c' r']]];
    try reflexivity; try discriminate;
    repeat match goal with
      | H : Forall _ (_ :: _) |- _ =>
          let H1 := fresh in
          pose proof (Forall_inv H) as H1; cbn beta in H1;
          apply Forall_inv_tail in H
      end;
    cbn [base64.Encode] in Heq; split_strings; enc_facts.
  - (* one byte each *)
    rewrite !shiftr_div, !(Z.shiftl_mul_pow2 _ 16) in * by lia.
    change (2 ^ 16) with 65536 in *. change (2 ^ 18) with 262144 in *.
    change (2 ^ 12) with 4096 in *.
    f_equal. Z.div_mod_to_equations. lia.
  - (* two bytes each *)
    rewrite !group2 in * by lia. rewrite !shiftr_div in * by lia.
    change (2 ^ 18) with 262144 in *. change (2 ^ 12) with 4096 in *.
    change (2 ^ 6) with 64 in *.
    assert (a = a' /\ b = b') as [-> ->] by (Z.div_mod_to_equations; lia).
    reflexivity.
  - (* three bytes and more *)
    rewrite !group3 in * by lia. rewrite !shiftr_div in * by lia.
    change (2 ^ 18) with 262144 in *. change (2 ^ 12) with 4096 in *.
    change (2 ^ 6) with 64 in *.
    assert (a = a' /\ b = b' /\ c = c') as (-> & -> & ->)
      by (Z.div_mod_to_equations; lia).
    do 3 f_equal. apply IH; [cbn in Hlen; lia|assumption..].
Qed.

Lemma byte_val_inj x y : byte_val x = byte_val y -> x = y.
Proof.
  unfold byte_val. intros H%N2Z.inj.
  rewrite <- (ascii_N_embedding x), <- (ascii_N_embedding y). congruence.
Qed.

Lemma map_byte_val_inj (l l' : list ascii) :
  map byte_val l = map byte_val l' -> l = l'.
Proof.
  revert l'. induction l as [|x l IH]; intros [|y l'] H; try discriminate;
    [reflexivity|].
  cbn [map] in H. injection H as Hxy Hl. f_equal; [apply byte_val_inj|]; auto.
Qed.

Lemma EncodeToString_inj s s' :
  base64.EncodeToString s = base64.EncodeToString s' -> s = s'.
Proof.
  unfold base64.EncodeToString. intros H.
  apply (Encode_inj _ _ _ (le_n _)) in H;
    [|apply Forall_map, Forall_forall; intros; apply byte_val_range..].
  apply map_byte_val_inj in H.
  rewrite <- (string_of_list_ascii_of_string s),
    <- (string_of_list_ascii_of_string s'). congruence.
Qed.

Lemma Encode_length l :
  Z.of_nat (String.length (base64.Encode l)) = 4 * ((Z.of_nat (length l) + 2) / 3).
Proof.
  assert (H : forall n l, (length l <= n)%nat ->
            Z.of_nat (String.length (base64.Encode l))
            = 4 * ((Z.of_nat (length l) + 2) / 3)).
  { clear l. induction n as [|n IH]; intros l Hlen.
    - destruct l; [reflexivity|cbn in Hlen; lia].
    - destruct l as [|a [|b [|c r]]]; try reflexivity.
      cbn [base64.Encode String.length length].
      specialize (IH r ltac:(cbn in Hlen; lia)).
      rewrite !Nat2Z.inj_succ, IH. Z.div_mod_to_equations. lia. }
  apply (H _ _ (le_n _)).
Qed.

(** X2. The value [getBasicAuth] returns determines the text
    [ClientID:ClientSecret] it encodes: two configurations get the same
    value exactly when these texts are equal. Its length is four
    characters for every three bytes of the text, rounded up. *)
Theorem X2_getBasicAuth_is_injective (cfg cfg' : CleverbridgeConfig) :
  (getBasicAuth cfg = getBasicAuth cfg' <-> userinfo cfg = userinfo cfg')
  /\ Z.of_nat (String.length (getBasicAuth cfg))
     = 4 * ((Z.of_nat (String.length (userinfo cfg)) + 2) / 3).
Proof.
  split.
  - split; [apply EncodeToString_inj|]. unfold getBasicAuth, userinfo.
    intros ->. reflexivity.
  - unfold getBasicAuth. fold (userinfo cfg). unfold base64.EncodeToString.
    rewrite Encode_length, length_map. do 4 f_equal.
    clear. induction (userinfo cfg) as [|c s IH]; cbn; congruence.
Qed.

(** ** Failures and their causes *)

Lemma call_result_failed env call x stage err :
  failed_exchange x = Some (stage, err) ->
  call_result env call x
  = (nil_result call,
     Some (Errorf_w (request_prefix call) (Errorf_w stage err))).
Proof.
  destruct x; intros [= <- <-]; destruct call; reflexivity.
Qed.

(** X3. When the request of an operation cannot be built, or the
    transport fails, or the body of the response cannot be read, the
    operation returns nil and an error whose message is the words of the
    operation, the words of the failed step and the message of the cause,
    and from which the cause is reached by unwrapping twice. *)
Theorem X3_failures_wrap_their_cause (env : Env) (ctx : http.Context)
    (call : Call) (σ : World) (stage : string) (err : error) :
  let wrapped (r : option (Returned * option error)) : Prop :=
    exists e,
      r = Some (nil_result call, Some e)
      /\ Error_ e = request_prefix call +:+ stage +:+ Error_ err
      /\ Unwrap e ≫= Unwrap = Some err in
  (forall (c : APIClient) (l : Logger),
      logger c = Some l ->
      failed_exchange
        (exchange env (sent σ)
           (request_of (baseURL (base c)) (config (base c)) ctx call))
        = Some (stage, err) ->
      wrapped (APIClient_call env c ctx call σ).1)
  /\ (forall c : BaseClient,
        failed_exchange
          (exchange env (sent σ) (request_of (baseURL c) (config c) ctx call))
          = Some (stage, err) ->
        wrapped (BaseClient_call env c ctx call σ).1).
Proof.
  intros wrapped.
  assert (Hw : forall x, failed_exchange x = Some (stage, err) ->
                 wrapped (Some (call_result env call x))).
  { intros x Hx. rewrite (call_result_failed env call x stage err Hx).
    eexists. split; [reflexivity|]. split; [|reflexivity].
    unfold Errorf_w. cbn [Error_]. reflexivity. }
  split.
  - intros c l Hl Hx. rewrite (APIClient_call_returns env c l ctx call σ Hl).
    apply Hw, Hx.
  - intros c Hx. rewrite (BaseClient_call_returns env c ctx call σ).
    apply Hw, Hx.
Qed.

Lemma X3_witness :
  failed_exchange
    (exchange (env_answering (inr (externalError "dial tcp: i/o timeout")))
       (sent empty_world)
       (request_of (baseURL sample_base) (config sample_base) http.Background
          (CallGetSubscriptionsByPurchase "P123456789")))
  = Some ("request failed: ", externalError "dial tcp: i/o timeout")
  /\ exists e,
       (BaseClient_call (env_answering (inr (externalError "dial tcp: i/o timeout")))
          sample_base http.Background
          (CallGetSubscriptionsByPurchase "P123456789") empty_world).1
       = Some (Many None, Some e)
       /\ Error_ e = "failed to get subscriptions by purchase: "
                     +:+ "request failed: " +:+ "dial tcp: i/o timeout"
       /\ Unwrap e ≫= Unwrap = Some (externalError "dial tcp: i/o timeout").
Proof.
  split; [reflexivity|].
  exact (proj2 (X3_failures_wrap_their_cause
                  (env_answering (inr (externalError "dial tcp: i/o timeout")))
                  http.Background (CallGetSubscriptionsByPurchase "P123456789")
                  empty_world "request failed: "
                  (externalError "dial tcp: i/o timeout"))
           sample_base eq_refl).
Defined.

(** ** A body without a value *)

Lemma run_blank st ps body :
  st = json.stateBeginValue ->
  string_forallb json.isSpace body = true ->
  json.run (json.mkScanner st ps None) body = inl (json.mkScanner st ps None).
Proof.
  intros ->. induction body as [|c body IH]; [reflexivity|].
  cbn [string_forallb]. intros [Hc Hb]%andb_prop.
  cbn [json.run json.do_step json.step json.parseState].
  unfold json.do_stateBeginValue. rewrite Hc. auto.
Qed.

Lemma checkValid_blank body :
  string_forallb json.isSpace body = true ->
  json.checkValid body = inr (SyntaxError "unexpected end of JSON input").
Proof.
  intros Hb. unfold json.checkValid.
  rewrite (run_blank _ [] body eq_refl Hb). reflexivity.
Qed.

Lemma call_result_blank env call resp body :
  http.StatusCode resp < 400 ->
  string_forallb json.isSpace body = true ->
  call_result env call (Answered resp body)
  = (nil_result call,
     Some (Errorf_w (parse_prefix call)
             (SyntaxError "unexpected end of JSON input"))).
Proof.
  intros Hs Hb. unfold call_result, sendRequest_result.
  replace (400 <=? http.StatusCode resp) with false by lia.
  cbn [default from_option]. unfold Datatypes.id.
  unfold Unmarshal_Subscription, Unmarshal_Subscriptions,
    decode.Unmarshal_struct, decode.Unmarshal_slice.
  rewrite (checkValid_blank body Hb). destruct call; reflexivity.
Qed.

(** X4. A response with a status below 400 whose body is empty, or holds
    blanks, tabs and line ends only, as a 204 has it, is a failure of
    every operation: it returns nil and the error of decoding,
    [unexpected end of JSON input], behind the words of the operation. *)
Theorem X4_blank_body_is_an_error (env : Env) (ctx : http.Context)
    (call : Call) (σ : World) (resp : http.Response) (body : string)
    (Hstatus : http.StatusCode resp < 400)
    (Hblank : string_forallb json.isSpace body = true) :
  let outcome : option (Returned * option error) :=
    Some (nil_result call,
          Some (Errorf_w (parse_prefix call)
                  (SyntaxError "unexpected end of JSON input"))) in
  (forall (c : APIClient) (l : Logger),
      logger c = Some l ->
      exchange env (sent σ)
        (request_of (baseURL (base c)) (config (base c)) ctx call)
        = Answered resp body ->
      (APIClient_call env c ctx call σ).1 = outcome)
  /\ (forall c : BaseClient,
        exchange env (sent σ) (request_of (baseURL c) (config c) ctx call)
        = Answered resp body ->
        (BaseClient_call env c ctx call σ).1 = outcome).
Proof.
  intros outcome. split.
  - intros c l Hl Hx. rewrite (APIClient_call_returns env c l ctx call σ Hl), Hx.
    unfold outcome. f_equal. apply call_result_blank; assumption.
  - intros c Hx. rewrite (BaseClient_call_returns env c ctx call σ), Hx.
    unfold outcome. f_equal. apply call_result_blank; assumption.
Qed.

Lemma X4_witness :
  (APIClient_call (env_answering (respond "204 No Content" 204 "")) sample_api
     http.Background (CallGetSubscription "S18577447" "false") empty_world).1
  = Some (One None,
          Some (Errorf_w "failed to parse subscription: "
                  (SyntaxError "unexpected end of JSON input"))).
Proof.
  refine (proj1 (X4_blank_body_is_an_error
                  (env_answering (respond "204 No Content" 204 ""))
                  http.Background (CallGetSubscription "S18577447" "false")
                  empty_world
                  (http.mkHTTPResponse "204 No Content" 204
                     {[ "Content-Type" := [ "application/json" ] ]}
                     (http.mkBody "" None))
                  "" _ eq_refl)
           sample_api _ eq_refl eq_refl).
  simpl. lia.
Defined.

(** ** Arrays of subscriptions *)

Lemma struct_value_saved {S} env typ struct (fields : list (decode.Field S))
    v s e s' saved' :
  decode.struct_value env typ struct fields v s (Some e) = inl (s', saved') ->
  saved' = Some e.
Proof.
  destruct v; cbn [decode.struct_value]; try (intros [= _ <-]; reflexivity).
  apply object_saved.
Qed.

Lemma struct_value_unsaved {S} env typ struct (fields : list (decode.Field S))
    v s saved s' :
  decode.struct_value env typ struct fields v s saved = inl (s', None) ->
  saved = None.
Proof.
  destruct saved as [e|]; [|reflexivity].
  intros H%struct_value_saved. discriminate.
Qed.

Lemma array_elements env elems :
  forall saved xs,
    decode.array env "client.Subscription" "Subscription" Subscription_fields
      Subscription_zero elems saved = inl (xs, None)
    <-> saved = None /\ Forall2 (element_of env) elems xs.
Proof.
  induction elems as [|v elems IH]; intros saved xs; cbn [decode.array].
  - split.
    + intros [= <- ->]. split; [reflexivity|constructor].
    + intros [-> H]. inversion H. reflexivity.
  - destruct (decode.struct_value env "client.Subscription" "Subscription"
                Subscription_fields v Subscription_zero saved)
      as [[x saved']|e] eqn:Hv.
    + destruct (decode.array env "client.Subscription" "Subscription"
                  Subscription_fields Subscription_zero elems saved')
        as [[xs' saved'']|e] eqn:Hrest.
      * split.
        -- intros [= <- ->]. apply IH in Hrest as [-> Hall].
           pose proof (struct_value_unsaved _ _ _ _ _ _ _ _ Hv) as ->.
           split; [reflexivity|]. constructor; assumption.
        -- intros [-> Hall]. inversion Hall as [|? x0 ? xs0 Hx Hxs]; subst.
           unfold element_of in Hx. rewrite Hx in Hv. injection Hv as <- <-.
           pose proof (proj2 (IH None xs0) (conj eq_refl Hxs)) as Hrest'.
           rewrite Hrest' in Hrest. injection Hrest as <- <-. reflexivity.
      * split; [discriminate|].
        intros [-> Hall]. inversion Hall as [|? x0 ? xs0 Hx Hxs]; subst.
        unfold element_of in Hx. rewrite Hx in Hv. injection Hv as <- <-.
        pose proof (proj2 (IH None xs0) (conj eq_refl Hxs)) as Hrest'.
        rewrite Hrest' in Hrest. discriminate.
    + split; [discriminate|].
      intros [-> Hall]. inversion Hall as [|? x0 ? xs0 Hx Hxs]; subst.
      unfold element_of in Hx. rewrite Hx in Hv. discriminate.
Qed.

Lemma Unmarshal_Subscriptions_elements env body xs :
  Unmarshal_Subscriptions env body = inl (Some xs)
  <-> exists elems,
        json.checkValid body = inl (json.Array elems)
        /\ Forall2 (element_of env) elems xs.
Proof.
  unfold Unmarshal_Subscriptions, decode.Unmarshal_slice.
  destruct (json.checkValid body) as [v|e].
  2:{ split; [discriminate|]. intros (elems & [=] & _). }
  destruct v as [| | | |elems|];
    try (split; [discriminate | intros (elems' & [=] & _)]).
  pose proof (array_elements env elems None) as Harr.
  destruct (decode.array env "client.Subscription" "Subscription"
              Subscription_fields Subscription_zero elems None)
    as [[ys [e|]]|e] eqn:Ha.
  - split; [discriminate|]. intros (elems' & [= <-] & Hall).
    pose proof (proj2 (Harr xs) (conj eq_refl Hall)). discriminate.
  - split.
    + intros [= <-]. exists elems. split; [reflexivity|].
      apply (Harr ys). reflexivity.
    + intros (elems' & [= <-] & Hall).
      pose proof (proj2 (Harr xs) (conj eq_refl Hall)) as H.
      injection H as <-. reflexivity.
  - split; [discriminate|]. intros (elems' & [= <-] & Hall).
    pose proof (proj2 (Harr xs) (conj eq_refl Hall)). discriminate.
Qed.

Lemma element_of_null env : element_of env json.Null Subscription_zero.
Proof. reflexivity. Qed.

Lemma Many_call_result env call resp body :
  call_arity call = 1%nat ->
  http.StatusCode resp < 400 ->
  call_result env call (Answered resp body)
  = match Unmarshal_Subscriptions env body with
    | inr err => (Many None, Some (Errorf_w "failed to parse subscriptions: " err))
    | inl subscriptions => (Many subscriptions, None)
    end.
Proof.
  intros Hc Hs. unfold call_result, sendRequest_result.
  replace (400 <=? http.StatusCode resp) with false by lia.
  destruct call; [discriminate|reflexivity..].
Qed.

(** X5. For a response with a status below 400, an operation that
    returns a list returns the subscriptions [xs] and no error exactly
    when the body is a JSON array with one element for each of [xs], in
    the same order, and each element decodes on its own, from the zero
    value, into the subscription at its place; a [null] element gives the
    zero subscription. Nothing is dropped, added or carried over from one
    element to the next. *)
Theorem X5_lists_decode_element_by_element (env : Env) (ctx : http.Context)
    (call : Call) (σ : World) (resp : http.Response) (body : string)
    (xs : list Subscription)
    (Hlist : call_arity call = 1%nat)
    (Hstatus : http.StatusCode resp < 400) :
  let listed : Prop :=
    exists elems,
      json.checkValid body = inl (json.Array elems)
      /\ length xs = length elems
      /\ Forall2 (element_of env) elems xs in
  (forall (c : APIClient) (l : Logger),
      logger c = Some l ->
      exchange env (sent σ)
        (request_of (baseURL (base c)) (config (base c)) ctx call)
        = Answered resp body ->
      (APIClient_call env c ctx call σ).1 = Some (Many (Some xs), None)
      <-> listed)
  /\ (forall c : BaseClient,
        exchange env (sent σ) (request_of (baseURL c) (config c) ctx call)
        = Answered resp body ->
        (BaseClient_call env c ctx call σ).1 = Some (Many (Some xs), None)
        <-> listed)
  /\ element_of env json.Null Subscription_zero.
Proof.
  intros listed.
  assert (Hr : call_result env call (Answered resp body)
               = (Many (Some xs), None) <-> listed).
  { rewrite (Many_call_result env call resp body Hlist Hstatus).
    transitivity (Unmarshal_Subscriptions env body = inl (Some xs)).
    - destruct (Unmarshal_Subscriptions env body) as [[ys|]|e];
        split; intros [=]; subst; reflexivity.
    - rewrite (Unmarshal_Subscriptions_elements env body xs). unfold listed.
      split.
      + intros (elems & Hv & Hall). exists elems.
        split; [exact Hv|]. split; [|exact Hall].
        symmetry. apply (Forall2_length _ _ _ Hall).
      + intros (elems & Hv & _ & Hall). eauto. }
  split; [|split].
  - intros c l Hl Hx. rewrite (APIClient_call_returns env c l ctx call σ Hl), Hx.
    rewrite <- Hr. split; [intros [=]; congruence | intros ->; reflexivity].
  - intros c Hx. rewrite (BaseClient_call_returns env c ctx call σ), Hx.
    rewrite <- Hr. split; [intros [=]; congruence | intros ->; reflexivity].
  - apply element_of_null.
Qed.

Lemma X5_witness :
  (BaseClient_call
     (env_answering (respond "200 OK" 200 (js "[{'id':'S1'},null,{'plan':'pro'}]")))
     sample_base http.Background (CallGetSubscriptionsForCustomer "CUST12345")
     empty_world).1
  = Some (Many (Some [set_ID "S1" Subscription_zero; Subscription_zero;
                      set_Plan "pro" Subscription_zero]), None).
Proof.
  refine (proj2 (proj1 (proj2 (X5_lists_decode_element_by_element
            (env_answering
               (respond "200 OK" 200 (js "[{'id':'S1'},null,{'plan':'pro'}]")))
            http.Background (CallGetSubscriptionsForCustomer "CUST12345")
            empty_world
            (http.mkHTTPResponse "200 OK" 200
               {[ "Content-Type" := [ "application/json" ] ]}
               (http.mkBody (js "[{'id':'S1'},null,{'plan':'pro'}]") None))
            (js "[{'id':'S1'},null,{'plan':'pro'}]")
            [set_ID "S1" Subscription_zero; Subscription_zero;
             set_Plan "pro" Subscription_zero]
            eq_refl _)) sample_base eq_refl) _).
  - simpl. lia.
  - eexists. split; [vm_compute; reflexivity|].
    split; [reflexivity|]. repeat constructor.
Defined.

(** ** A client without a logger *)

(** X6. An [APIClient] whose logger is nil panics in every operation at
    its first log call: nothing has been written and no request has been
    handed to the transport. [Close] on such a client returns nil. *)
Theorem X6_nil_logger_panics (env : Env) (ctx : http.Context) (call : Call)
    (σ : World) (c : APIClient) (Hnil : logger c = None) :
  APIClient_call env c ctx call σ = (None, σ)
  /\ APIClient_.Close c σ = (Some None, σ).
Proof.
  split.
  - destruct call; unfold APIClient_call, lift_one, lift_many,
      APIClient_.GetSubscription, APIClient_.GetSubscriptionsByPurchase,
      APIClient_.GetSubscriptionsForCustomer, APIClient_.Info;
      rewrite Hnil; reflexivity.
  - unfold APIClient_.Close. rewrite Hnil. reflexivity.
Qed.

Lemma X6_witness :
  APIClient_call (env_answering (respond "200 OK" 200 "{}"))
    (mkAPIClient sample_base None) http.Background
    (CallGetSubscription "S18577447" "false") empty_world
  = (None, empty_world).
Proof.
  exact (proj1 (X6_nil_logger_panics (env_answering (respond "200 OK" 200 "{}"))
                  http.Background (CallGetSubscription "S18577447" "false")
                  empty_world (mkAPIClient sample_base None) eq_refl)).
Defined.

(** ** Opening a logger *)

Lemma eqb_empty_false s : String.eqb s "" = false -> s <> "".
Proof. intros H ->. discriminate. Qed.

(** X7. [NewLogger] keeps the debug flag and always returns a logger.
    With an empty file name it touches nothing and logs to the console.
    When the file cannot be opened it says so in one line on standard
    error, naming the file and the cause, and logs to the console, holding
    no file. When the file opens, the logger holds a descriptor that was
    not in use, open, with nothing written through it yet, and writes to
    it. In no case is anything written to the console or handed to the
    transport. *)
Theorem X7_NewLogger_falls_back_to_console (env : Env) (debug_ : bool)
    (name : string) (σ : World) :
  exists l σ',
    NewLogger env debug_ name σ = (Some l, σ')
    /\ debug l = debug_
    /\ writes σ' = writes σ /\ stdout σ' = stdout σ /\ sent σ' = sent σ
    /\ if String.eqb name "" then
         l = mkLogger debug_ None Stdout /\ σ' = σ
       else
         match os_OpenFile env name with
         | Some err =>
             l = mkLogger debug_ None Stdout
             /\ files σ' = files σ
             /\ stderr σ' =
                  stderr σ ++
                    [log_stamp env +:+ " "
                     +:+ ("Failed to open log file " +:+ name +:+ ": "
                          +:+ Error_ err +:+ ", using stdout")
                     +:+ encode.newline]
         | None =>
             exists f,
               l = mkLogger debug_ (Some f) (FileWriter f)
               /\ fname f = name
               /\ files σ !! fd f = None
               /\ files σ' = <[fd f := mkFileState true []]> (files σ)
               /\ stderr σ' = stderr σ
         end.
Proof.
  unfold NewLogger, OpenFile.
  destruct (String.eqb name "") eqn:Hname; cbn [negb].
  { eexists. eexists. split; [reflexivity|]. repeat split; destruct σ; reflexivity. }
  destruct (os_OpenFile env name) as [err|] eqn:Hopen.
  - eexists. eexists. split; [reflexivity|]. cbn. repeat split; reflexivity.
  - eexists. eexists. split; [reflexivity|]. cbn. repeat split; try reflexivity.
    eexists. repeat split; try reflexivity. cbn [fd].
    apply not_elem_of_dom, is_fresh.
Qed.

(** X8. What a file-backed logger is given before [Close] has gone to
    its file: when the file opens, a [Warn] and an [Error] between
    [NewLogger] and the first [Close] have their two lines, in this
    order, written through the descriptor, which is closed afterwards;
    the [Close] returns nil, and the console has received nothing. *)
Theorem X8_lines_reach_the_file (env : Env) (debug_ : bool) (name : string)
    (σ : World) (m1 m2 : string) (err : option error)
    (Hname : String.eqb name "" = false)
    (Hopen : os_OpenFile env name = None) :
  let session : M (option error) :=
    l ← NewLogger env debug_ name;
    Logger_.Warn l m1 [];; Logger_.Error l m2 err [];; Logger_.Close l in
  exists σ',
    session σ = (Some None, σ')
    /\ files σ' !! fresh (dom (files σ))
       = Some (mkFileState false
                 [ "WARN: " +:+ m1 +:+ encode.newline;
                   match err with
                   | Some e => "ERROR: " +:+ m2 +:+ " - " +:+ Error_ e
                   | None => "ERROR: " +:+ m2
                   end +:+ encode.newline ])
    /\ stdout σ' = stdout σ /\ stderr σ' = stderr σ.
Proof.
  intros session. unfold session, NewLogger, OpenFile.
  rewrite Hname, Hopen. cbn [negb].
  unfold Logger_.Warn, Logger_.Error, Logger_.Close, Logger_.with_fields,
    Fprintln, write, modify, deliver, File_Close, ret, mret, mbind, M_bind,
    M_ret.
  cbn [length Z.of_nat Z.ltb Z.compare writer logFile files fd writes stdout
       stderr sent].
  rewrite !lookup_insert_eq. cbn [is_open written app files fd].
  rewrite !lookup_insert_eq. cbn [is_open written app files fd].
  rewrite !lookup_insert_eq. cbn [is_open written app files fd].
  eexists. split; [reflexivity|]. cbn [files stdout stderr].
  rewrite lookup_insert_eq. repeat split.
Qed.

Lemma X8_witness :
  exists σ',
    (l ← NewLogger (env_answering (respond "200 OK" 200 "{}")) false "app.log";
     Logger_.Warn l "disk almost full" [];;
     Logger_.Error l "request failed" (Some (externalError "timeout")) [];;
     Logger_.Close l) empty_world = (Some None, σ')
    /\ files σ' !! fresh (dom (files empty_world))
       = Some (mkFileState false
                 [ "WARN: disk almost full" +:+ encode.newline;
                   "ERROR: request failed - timeout" +:+ encode.newline ]).
Proof.
  destruct (X8_lines_reach_the_file (env_answering (respond "200 OK" 200 "{}"))
              false "app.log" empty_world "disk almost full" "request failed"
              (Some (externalError "timeout")) eq_refl eq_refl)
    as (σ' & H1 & H2 & _).
  exists σ'. split; [exact H1|exact H2].
Defined.

(** ** What a [BaseClient] prints *)

Lemma bind_run {A B} (m : M A) (k : A -> M B) σ :
  (m ≫= k) σ = match m σ with
               | (Some a, σ') => k a σ'
               | (None, σ') => (None, σ')
               end.
Proof. reflexivity. Qed.

Lemma SendRequest_world env c ctx call σ :
  let req := request_of (baseURL c) (config c) ctx call in
  (BaseClient_.SendRequest env c ctx
     (mkRequest "GET" (call_path call) (call_params call)
        (BaseClient_.auth_headers c) None) σ).2
  = match url_Parse env (http.URL req) with
    | Some _ => σ
    | None =>
        (Do env req
           (when (Debug (config c))
              (Printf ("🔧 Sending " +:+ "GET" +:+ " request to: "
                       +:+ http.URL req +:+ encode.newline)) σ).2).2
    end.
Proof.
  intros req. unfold BaseClient_.SendRequest.
  cbn [Method Path QueryParams Headers Body].
  rewrite fullURL_call, NewRequest_GET. subst req. unfold request_of at 1 2.
  cbn [http.URL].
  destruct (url_Parse env _) as [err|] eqn:Hu; [reflexivity|].
  rewrite headers_BaseClient.
  fold (request_of (baseURL c) (config c) ctx call).
  rewrite bind_run.
  destruct (Debug (config c)); cbn [when]; unfold Printf, write, modify, ret;
    cbn [mret M_ret]; rewrite bind_run; unfold Do;
    destruct (client_Do env _ _) as [resp|err];
    try reflexivity;
    destruct (io_ReadAll (http.Body resp)) as [body [err|]]; try reflexivity;
    destruct (400 <=? http.StatusCode resp); reflexivity.
Qed.

Lemma BaseClient_call_world env c ctx call σ :
  (BaseClient_call env c ctx call σ).2
  = (BaseClient_.SendRequest env c ctx
       (mkRequest "GET" (call_path call) (call_params call)
          (BaseClient_.auth_headers c) None) σ).2.
Proof.
  destruct call as [sid cur|pid|cid];
    unfold BaseClient_call, lift_one, lift_many, BaseClient_.GetSubscription,
      BaseClient_.GetSubscriptionsByPurchase,
      BaseClient_.GetSubscriptionsForCustomer;
    cbn [call_path call_params]; rewrite !bind_run;
    match goal with
    | |- context [BaseClient_.SendRequest ?e ?c ?x ?r ?s] =>
        destruct (BaseClient_.SendRequest e c x r s) as [[[[resp|] [err|]]|] σ']
    end; try reflexivity;
    cbn [snd];
    repeat match goal with
      | |- context [match ?u with inl _ => _ | inr _ => _ end] => destruct u
      end; reflexivity.
Qed.

(** X9. An operation of a [BaseClient] prints nothing unless [Debug] is
    set; with [Debug] set it prints, when the request could be built, the
    one line that names the method and the URL, before the request goes
    out. Neither the answer nor a failure is printed; standard error and
    the files are left alone. *)
Theorem X9_BaseClient_prints_one_line (env : Env) (ctx : http.Context)
    (call : Call) (σ : World) (c : BaseClient) :
  let req := request_of (baseURL c) (config c) ctx call in
  let σ' := (BaseClient_call env c ctx call σ).2 in
  let lines :=
    match url_Parse env (http.URL req) with
    | None =>
        if Debug (config c) then
          [ "🔧 Sending GET request to: " +:+ http.URL req +:+ encode.newline ]
        else []
    | Some _ => []
    end in
  stdout σ' = stdout σ ++ lines
  /\ writes σ' = writes σ ++ map (fun line => (Stdout, line)) lines
  /\ stderr σ' = stderr σ
  /\ files σ' = files σ.
Proof.
  intros req σ' lines. subst σ' lines.
  rewrite BaseClient_call_world, SendRequest_world. fold req.
  destruct (url_Parse env (http.URL req)).
  { rewrite !app_nil_r. repeat split. }
  destruct (Debug (config c)); cbn; rewrite ?app_nil_r; repeat split.
Qed.

(** ** The Cleverbridge transport *)

Lemma NewRequest_empty_header env ctx method u body req :
  NewRequestWithContext env ctx method u body = inl req ->
  exists m, req = http.mkRequest m u ∅ body ctx.
Proof.
  unfold NewRequestWithContext.
  destruct (negb _); [discriminate|].
  destruct (url_Parse env u); [discriminate|]. intros [= <-]. eauto.
Qed.

Ltac sent_done new :=
  exists new; cbn [sent] in *;
  repeat match goal with
         | H : sent ?s = _ |- context [sent ?s] => rewrite H
         end;
  rewrite ?app_nil_r;
  split; [reflexivity|]; split; [cbn; lia|].

(** X10. Whatever its arguments and whatever the peer does,
    [CleverbridgeDoRequest] hands at most one request to the transport,
    after the earlier ones, and that request carries the [Authorization]
    header of HTTP Basic for the client's credentials, [Content-Type] and
    [Accept], each once, and no other header. When the body cannot be
    marshalled or the request cannot be built, nothing is sent. *)
Theorem X10_Cleverbridge_sends_one_request
    (Debug_lines : Logger -> string -> list any -> list string)
    (env : Env) (c : CleverbridgeClient) (l : Logger) (ctx : http.Context)
    (method path : string) (q : gmap string string)
    (body : option Marshalable)
    (Hl : cb_logger c = Some l) :
  sends 1 (carries_auth (cb_config c))
    (CleverbridgeDoRequest Debug_lines env c ctx method path q body)
  /\ forall σ,
       (marshalled body = None
        \/ exists reqBody err,
             marshalled body = Some reqBody
             /\ NewRequestWithContext env ctx method
                  (fullURL_of (cb_baseURL c) path q) reqBody = inr err) ->
       sent (CleverbridgeDoRequest Debug_lines env c ctx method path q body σ).2
       = sent σ.
Proof.
  assert (Hok : is_Some (cb_logger c)) by (rewrite Hl; eauto).
  split.
  - intros σ.
    change (wp (CleverbridgeDoRequest Debug_lines env c ctx method path q body)
              (fun _ σ' => exists new,
                   sent σ' = sent σ ++ new /\ (length new <= 1)%nat
                   /\ Forall (carries_auth (cb_config c)) new) σ).
    unfold CleverbridgeDoRequest.
    destruct body as [mb|]; [destruct (marshal mb) as [jsonData|err]|];
      cbv zeta;
      try (destruct (NewRequestWithContext env ctx method _ _) as [req|err]
             eqn:Hreq);
      try (wp_ok Hok; sent_done (@nil http.Request); constructor).
    all: apply NewRequest_empty_header in Hreq as [m ->].
    all: rewrite Hl.
    all: wp_step; wp_step; wp_step; wp_step; rewrite (Hret I).
    all: wp_step; wp_step.
    all: match goal with
         | |- context [Do _ ?r] => set (req := r) in *
         | |- context [client_Do _ _ ?r] => set (req := r) in *
         end.
    all: destruct (client_Do env _ _) as [resp|err] eqn:HDo.
    all: try destruct (400 <=? http.StatusCode resp) eqn:Hcode.
    all: try destruct (io_ReadAll (http.Body resp)) as [b [err|]] eqn:Hread.
    all: try destruct (Unmarshal_cleverbridgeError env b) as [ce|].
    all: try destruct (negb (String.eqb (Error_field ce) "")).
    all: wp_ok Hok; sent_done [req]; repeat constructor;
      apply (with_basic_auth_carries (cb_config c)).
  - intros σ Hfail.
    change (wp (CleverbridgeDoRequest Debug_lines env c ctx method path q body)
              (fun _ σ' => sent σ' = sent σ) σ).
    unfold CleverbridgeDoRequest, marshalled in *.
    destruct body as [mb|]; [destruct (marshal mb) as [jsonData|err]|]; cbv zeta.
    + destruct Hfail as [[=]|(reqBody & err & [= <-] & ->)].
      wp_ok Hok. sent_chain.
    + wp_ok Hok. sent_chain.
    + destruct Hfail as [[=]|(reqBody & err & [= <-] & ->)].
      wp_ok Hok. sent_chain.
Qed.

Lemma X10_witness :
  cb_logger sample_cb = Some (mkLogger false None Stdout)
  /\ sends 1 (carries_auth (cb_config sample_cb))
       (CleverbridgeDoRequest sample_Debug env_offline sample_cb
          http.Background "GET" "/subscription/getsubscription"
          {[ "subscriptionId" := "S18577447" ]} None).
Proof.
  split; [reflexivity|].
  exact (proj1 (X10_Cleverbridge_sends_one_request sample_Debug env_offline
                  sample_cb (mkLogger false None Stdout) http.Background
                  "GET" "/subscription/getsubscription"
                  {[ "subscriptionId" := "S18577447" ]} None eq_refl)).
Defined.

(** ** The program *)

Lemma quiet_log_Printf env msg : quiet True (log_Printf env msg).
Proof. intros σ. split; [reflexivity|]. intros _. reflexivity. Qed.

Lemma quiet_print_each line i subs : quiet True (print_each line i subs).
Proof.
  revert i. induction subs as [|sub rest IH]; intros i; cbn [print_each].
  - apply quiet_ret.
  - apply quiet_bind; [apply quiet_Printf | intros; apply IH].
Qed.

Lemma BaseClient_op_run env c ctx call σ :
  exists σ',
    BaseClient_call env c ctx call σ
    = (Some (call_result env call
               (exchange env (sent σ) (request_of (baseURL c) (config c) ctx call))),
       σ')
    /\ sent σ' = sent σ ++ buildable env [request_of (baseURL c) (config c) ctx call].
Proof.
  destruct (BaseClient_call_run env c ctx call σ) as (σ' & Hrun & Hsent).
  exists σ'. split; [exact Hrun|]. rewrite Hsent, handed_iff.
  unfold buildable. cbn [filter list_filter].
  destruct (url_Parse env _); reflexivity.
Qed.

Lemma lift_one_full (m : M (option Subscription * option error)) σ R e σ' :
  lift_one m σ = (Some (R, e), σ') ->
  exists v, R = One v /\ m σ = (Some (v, e), σ').
Proof.
  unfold lift_one, mbind, M_bind. destruct (m σ) as [[[v e0]|] σ0];
    [|discriminate].
  intros [= <- <- <-]. eauto.
Qed.

Lemma lift_many_full (m : M (option (list Subscription) * option error)) σ R e σ' :
  lift_many m σ = (Some (R, e), σ') ->
  exists v, R = Many v /\ m σ = (Some (v, e), σ').
Proof.
  unfold lift_many, mbind, M_bind. destruct (m σ) as [[[v e0]|] σ0];
    [|discriminate].
  intros [= <- <- <-]. eauto.
Qed.

Lemma One_without_error env sid cur x v :
  call_result env (CallGetSubscription sid cur) x = (One v, None) -> is_Some v.
Proof.
  unfold call_result. destruct (sendRequest_result x) as [b [err|]];
    [discriminate|].
  destruct (Unmarshal_Subscription env (default "" b)); intros [= <-]; eauto.
Qed.

Lemma GetSubscription_full env c ctx sid cur σ :
  exists v e σ',
    BaseClient_.GetSubscription env c ctx sid cur σ = (Some (v, e), σ')
    /\ sent σ' = sent σ ++ buildable env
                            [request_of (baseURL c) (config c) ctx
                               (CallGetSubscription sid cur)]
    /\ (e = None -> is_Some v).
Proof.
  destruct (BaseClient_op_run env c ctx (CallGetSubscription sid cur) σ)
    as (σ' & Hrun & Hsent).
  destruct (call_result env _ _) as [R e] eqn:Hres.
  apply lift_one_full in Hrun as (v & -> & Hrun).
  exists v, e, σ'. split; [exact Hrun|]. split; [exact Hsent|].
  intros ->. eapply One_without_error, Hres.
Qed.

Lemma list_op_full env c ctx call σ (m : M (option (list Subscription) * option error)) :
  BaseClient_call env c ctx call = lift_many m ->
  exists v e σ',
    m σ = (Some (v, e), σ')
    /\ sent σ' = sent σ ++ buildable env [request_of (baseURL c) (config c) ctx call].
Proof.
  intros Hm.
  destruct (BaseClient_op_run env c ctx call σ) as (σ' & Hrun & Hsent).
  destruct (call_result env _ _) as [R e] eqn:Hres. rewrite Hm in Hrun.
  apply lift_many_full in Hrun as (v & -> & Hrun). eauto.
Qed.

Lemma run_op_report {R B} (op : M R) (report : R -> M unit) (k : unit -> M B)
    σ r σ1 σ1' :
  op σ = (Some r, σ1) ->
  report r σ1 = (Some tt, σ1') ->
  (op ≫= (fun r => report r ≫= k)) σ = k tt σ1'.
Proof. intros H1 H2. unfold mbind, M_bind. rewrite H1, H2. reflexivity. Qed.

Lemma run_op_report_end {R} (op : M R) (report : R -> M unit) σ r σ1 σ1' :
  op σ = (Some r, σ1) ->
  report r σ1 = (Some tt, σ1') ->
  (op ≫= report) σ = (Some tt, σ1').
Proof. intros H1 H2. unfold mbind, M_bind. rewrite H1, H2. reflexivity. Qed.

Lemma quiet_run ok (m : M unit) σ :
  quiet ok m -> ok -> exists σ', m σ = (Some tt, σ') /\ sent σ' = sent σ.
Proof.
  intros Hq Hok. destruct (Hq σ) as [Hs Hr]. specialize (Hr Hok).
  destruct (m σ) as [r σ']. cbn [fst snd] in *. subst r. eauto.
Qed.

(** X11. [main] never panics and always comes to its end: it makes its
    three requests in its order, for the subscription, for the purchase
    and for the customer, whatever the answers to the earlier ones, leaving
    out only a request whose URL does not parse; where it reads the fields
    of the subscription it was given, there is one, because
    [GetSubscription] returns a subscription whenever it returns no
    error. *)
Theorem X11_main_makes_three_requests (env : Env) (σ : World) :
  exists σ',
    main env σ = (Some tt, σ')
    /\ sent σ' =
         sent σ ++
           buildable env
             (map (request_of "https://rest.cleverbridge.com"
                     (mkConfig "your_cleverbridge_client_id"
                        "your_cleverbridge_client_secret"
                        "https://rest.cleverbridge.com" true)
                     http.Background) main_calls).
Proof.
  unfold main, main_calls. cbv zeta.
  set (cfg := mkConfig _ _ _ _). set (c := NewBaseClient cfg).
  assert (Happ : forall a b d, buildable env [a; b; d]
            = buildable env [a] ++ buildable env [b] ++ buildable env [d]).
  { intros a b d. unfold buildable. cbn [filter list_filter].
    repeat case_match; reflexivity. }
  cbn [map]. rewrite Happ.
  (* the subscription *)
  destruct (GetSubscription_full env c http.Background "S18577447" "false" σ)
    as (v1 & e1 & σ1 & Hrun1 & Hs1 & Hv1).
  assert (Hr1 : exists σ1',
             match (v1, e1) with
             | (_, Some err) =>
                 log_Printf env ("⚠️ Error getting subscription: " +:+ Error_ err)
             | (subscription, None) =>
                 subscription ← deref subscription;
                 Printf ("✅ Subscription: ID=" +:+ ID subscription +:+ ", Status="
                         +:+ Status subscription +:+ ", Plan="
                         +:+ Plan subscription +:+ encode.newline)
             end σ1 = (Some tt, σ1') /\ sent σ1' = sent σ1).
  { destruct e1 as [err|].
    - apply (quiet_run True); [apply quiet_log_Printf|exact I].
    - apply (quiet_run (is_Some v1)); [|auto].
      apply quiet_deref. intros. apply quiet_Printf. }
  destruct Hr1 as (σ1' & Hr1 & Hs1').
  erewrite (run_op_report _ _ _ σ (v1, e1) σ1 σ1'); [|exact Hrun1|exact Hr1].
  (* the purchase *)
  destruct (list_op_full env c http.Background
              (CallGetSubscriptionsByPurchase "P123456789") σ1' _ eq_refl)
    as (v2 & e2 & σ2 & Hrun2 & Hs2).
  assert (Hr2 : exists σ2',
             match (v2, e2) with
             | (_, Some err) =>
                 log_Printf env ("⚠️ Error getting subscriptions by purchase: "
                                 +:+ Error_ err)
             | (purchaseSubscriptions, None) =>
                 Printf ("✅ Found "
                         +:+ fmt_d (Z.of_nat (length (default [] purchaseSubscriptions)))
                         +:+ " subscriptions for purchase" +:+ encode.newline);;
                 print_each
                   (fun i sub => "   " +:+ fmt_d i +:+ ". " +:+ ID sub +:+ " - "
                                 +:+ Status sub +:+ encode.newline)
                   0 (default [] purchaseSubscriptions)
             end σ2 = (Some tt, σ2') /\ sent σ2' = sent σ2).
  { destruct e2 as [err|].
    - apply (quiet_run True); [apply quiet_log_Printf|exact I].
    - apply (quiet_run True); [|exact I].
      apply quiet_bind; [apply quiet_Printf|intros; apply quiet_print_each]. }
  destruct Hr2 as (σ2' & Hr2 & Hs2').
  erewrite (run_op_report _ _ _ σ1' (v2, e2) σ2 σ2'); [|exact Hrun2|exact Hr2].
  (* the customer *)
  destruct (list_op_full env c http.Background
              (CallGetSubscriptionsForCustomer "CUST12345") σ2' _ eq_refl)
    as (v3 & e3 & σ3 & Hrun3 & Hs3).
  assert (Hr3 : exists σ3',
             match (v3, e3) with
             | (_, Some err) =>
                 log_Printf env ("⚠️ Error getting subscriptions for customer: "
                                 +:+ Error_ err)
             | (customerSubscriptions, None) =>
                 Printf ("✅ Found "
                         +:+ fmt_d (Z.of_nat (length (default [] customerSubscriptions)))
                         +:+ " subscriptions for customer" +:+ encode.newline);;
                 print_each
                   (fun i sub => "   " +:+ fmt_d i +:+ ". " +:+ ID sub +:+ " - "
                                 +:+ Status sub +:+ " - " +:+ Plan sub
                                 +:+ encode.newline)
                   0 (default [] customerSubscriptions)
             end σ3 = (Some tt, σ3') /\ sent σ3' = sent σ3).
  { destruct e3 as [err|].
    - apply (quiet_run True); [apply quiet_log_Printf|exact I].
    - apply (quiet_run True); [|exact I].
      apply quiet_bind; [apply quiet_Printf|intros; apply quiet_print_each]. }
  destruct Hr3 as (σ3' & Hr3 & Hs3').
  erewrite (run_op_report_end _ _ σ2' (v3, e3) σ3 σ3'); [|exact Hrun3|exact Hr3].
  exists σ3'. split; [reflexivity|].
  rewrite Hs3', Hs3, Hs2', Hs2, Hs1', Hs1, <- !app_assoc. reflexivity.
Qed.

(** ** What an [APIClient] logs when debug is off *)

Lemma Info_off c l msg fields σ :
  logger c = Some l -> debug l = false ->
  APIClient_.Info c msg fields σ = (Some tt, σ).
Proof.
  intros Hl Hd. unfold APIClient_.Info. rewrite Hl.
  change ((deref (Some l) ≫= fun l0 => Logger_.Info l0 msg fields) σ)
    with (Logger_.Info l msg fields σ).
  unfold Logger_.Info. rewrite Hd. reflexivity.
Qed.

Lemma when_Json_off b c l data σ :
  logger c = Some l -> debug l = false ->
  when b (APIClient_.Json c data) σ = (Some tt, σ).
Proof.
  intros Hl Hd. destruct b; [|reflexivity].
  unfold when, APIClient_.Json. rewrite Hl.
  change ((deref (Some l) ≫= fun l0 => Logger_Json l0 data) σ)
    with (Logger_Json l data σ).
  unfold Logger_Json. rewrite Hd. reflexivity.
Qed.

Lemma Error_on c l msg err fields σ :
  logger c = Some l ->
  APIClient_.Error c msg err fields σ
  = (Some tt, (write (writer l) (error_line msg err fields) σ).2).
Proof.
  intros Hl. unfold APIClient_.Error. rewrite Hl.
  change ((deref (Some l) ≫= fun l0 => Logger_.Error l0 msg err fields) σ)
    with (Logger_.Error l msg err fields σ).
  rewrite Error_run. reflexivity.
Qed.

Lemma error_line_prefix msg err fields :
  HasPrefix (error_line msg err fields) "ERROR: ".
Proof.
  unfold HasPrefix, error_line, Logger_.with_fields.
  destruct err, (0 <? Z.of_nat (length fields));
    rewrite ?append_assoc; eauto.
Qed.

Lemma writes_write w p σ : writes (write w p σ).2 = writes σ ++ [(w, p)].
Proof. unfold write, modify. cbn [snd]. rewrite writes_deliver. reflexivity. Qed.

Lemma writes_Do env req σ : writes (Do env req σ).2 = writes σ.
Proof. reflexivity. Qed.

Lemma ret_run {A} (a : A) σ : ret a σ = (Some a, σ).
Proof. reflexivity. Qed.

Ltac logged lines :=
  eexists; exists lines; split; [reflexivity|];
  unfold wrote; rewrite ?writes_write, ?writes_Do, ?app_nil_r;
  cbn [map length]; rewrite <- ?app_assoc;
  split; [reflexivity|]; split;
  [repeat constructor; apply error_line_prefix | reflexivity].

Lemma sendRequest_off env c l ctx call σ :
  logger c = Some l -> debug l = false ->
  let req := request_of (baseURL (base c)) (config (base c)) ctx call in
  let x := exchange env (sent σ) req in
  exists σ' lines,
    APIClient_.sendRequest env c ctx "GET" (call_path call) (call_params call)
      None σ = (Some (sendRequest_result x), σ')
    /\ wrote (writer l) lines σ σ'
    /\ Forall (fun s => HasPrefix s "ERROR: ") lines
    /\ length lines = match snd (sendRequest_result x) with
                      | Some _ => 1%nat
                      | None => 0%nat
                      end.
Proof.
  intros Hl Hd req x. unfold APIClient_.sendRequest.
  rewrite fullURL_call, NewRequest_GET.
  subst x. unfold exchange. subst req. unfold request_of at 1 2.
  cbn [http.URL].
  rewrite bind_run, (Info_off c l _ _ σ Hl Hd).
  destruct (url_Parse env _) as [err|] eqn:Hu.
  { rewrite bind_run, (Error_on c l _ _ _ σ Hl), ret_run.
    cbn [sendRequest_result snd]. logged [error_line "Failed to create HTTP request" (Some err)
        [AString "method"; AString "GET"; AString "url";
         AString (baseURL (base c) +:+ call_path call +:+ "?" +:+ call_query call)]]. }
  rewrite headers_APIClient.
  fold (request_of (baseURL (base c)) (config (base c)) ctx call).
  set (req := request_of _ _ _ _).
  rewrite bind_run. unfold Do at 1. cbn [sent writes stdout stderr files].
  set (σ1 := mkWorld _ _ _ _ _).
  assert (Hw1 : writes σ1 = writes σ) by reflexivity.
  destruct (client_Do env (sent σ) req) as [resp|err] eqn:HDo.
  2:{ rewrite bind_run, (Error_on c l _ _ _ σ1 Hl), ret_run.
      cbn [sendRequest_result snd].
      eexists; eexists [_]; split; [reflexivity|].
      unfold wrote. rewrite writes_write, Hw1. cbn [map length].
      split; [reflexivity|]. split; [repeat constructor; apply error_line_prefix|].
      reflexivity. }
  destruct (io_ReadAll (http.Body resp)) as [body [err|]] eqn:Hread.
  { rewrite bind_run, (Error_on c l _ _ _ σ1 Hl), ret_run.
    cbn [sendRequest_result snd].
    eexists; eexists [_]; split; [reflexivity|].
    unfold wrote. rewrite writes_write, Hw1. cbn [map length].
    split; [reflexivity|]. split; [repeat constructor; apply error_line_prefix|].
    reflexivity. }
  rewrite bind_run, (Info_off c l _ _ σ1 Hl Hd).
  rewrite bind_run, (when_Json_off _ c l _ σ1 Hl Hd).
  cbn [sendRequest_result].
  destruct (400 <=? http.StatusCode resp).
  - rewrite bind_run, (Error_on c l _ _ _ σ1 Hl), ret_run. cbn [snd].
    eexists; eexists [_]; split; [reflexivity|].
    unfold wrote. rewrite writes_write, Hw1. cbn [map length].
    split; [reflexivity|]. split; [repeat constructor; apply error_line_prefix|].
    reflexivity.
  - rewrite ret_run. cbn [snd]. eexists; exists []; split; [reflexivity|].
    unfold wrote. rewrite Hw1, app_nil_r. repeat split. constructor.
Qed.

Lemma wrote_then_error w lines σ σ1 p :
  wrote w lines σ σ1 -> wrote w (lines ++ [p]) σ (write w p σ1).2.
Proof.
  unfold wrote. intros H. rewrite writes_write, H, map_app, <- app_assoc.
  reflexivity.
Qed.

(** X12. With the debug flag of its logger off, an operation of an
    [APIClient] writes nothing when it succeeds. When it fails, it writes
    lines that begin with [ERROR: ] and no others: two when the request
    failed, because it could not be built, the transport failed, the body
    could not be read or the status was 400 or more, one of them written
    by [sendRequest] and one by the operation; and one when the answer
    could not be decoded. *)
Theorem X12_debug_off_logs_errors_only (env : Env) (ctx : http.Context)
    (call : Call) (σ : World) (c : APIClient) (l : Logger)
    (Hl : logger c = Some l) (Hd : debug l = false) :
  let x := exchange env (sent σ)
             (request_of (baseURL (base c)) (config (base c)) ctx call) in
  exists σ' lines,
    APIClient_call env c ctx call σ = (Some (call_result env call x), σ')
    /\ wrote (writer l) lines σ σ'
    /\ Forall (fun s => HasPrefix s "ERROR: ") lines
    /\ length lines = error_count env call x.
Proof.
  intros x. subst x.
  destruct call as [sid cur|pid|cid];
    unfold APIClient_call, lift_one, lift_many, APIClient_.GetSubscription,
      APIClient_.GetSubscriptionsByPurchase,
      APIClient_.GetSubscriptionsForCustomer;
    rewrite bind_run, bind_run, (Info_off c l _ _ σ Hl Hd);
    match goal with
    | |- context [call_result env ?call _] =>
        destruct (sendRequest_off env c l ctx call σ Hl Hd)
          as (σ1 & lines & Hrun & Hw & Hp & Hn)
    end;
    cbn [call_path call_params] in Hrun; rewrite bind_run, Hrun;
    unfold error_count, call_result in *;
    destruct (sendRequest_result _) as [b [err|]]; cbn [snd] in *; cbv zeta;
    try match goal with
      | |- context [Unmarshal_Subscription ?e ?b] =>
          destruct (Unmarshal_Subscription e b) as [res|err]
      | |- context [Unmarshal_Subscriptions ?e ?b] =>
          destruct (Unmarshal_Subscriptions e b) as [res|err]
      end;
    first
      [ rewrite bind_run, (Error_on c l _ _ _ σ1 Hl), ret_run;
        cbn [fst snd]; eexists; eexists (lines ++ [_]);
        split; [reflexivity|];
        split; [apply wrote_then_error, Hw|];
        split; [apply Forall_app; split;
                [exact Hp | repeat constructor; apply error_line_prefix]|];
        rewrite length_app, Hn; reflexivity
      | rewrite bind_run, (Info_off c l _ _ σ1 Hl Hd), ret_run;
        cbn [fst snd]; eexists; exists lines;
        split; [reflexivity|]; split; [exact Hw|];
        split; [exact Hp|exact Hn] ].
Qed.

Lemma X12_witness :
  let env := env_answering (respond "404 Not Found" 404 "nope") in
  let call := CallGetSubscriptionsByPurchase "P123456789" in
  (logger quiet_api = Some (mkLogger false None Stdout)
   /\ debug (mkLogger false None Stdout) = false)
  /\ exists σ' lines,
       APIClient_call env quiet_api http.Background call empty_world
       = (Some (call_result env call
                  (exchange env (sent empty_world)
                     (request_of (baseURL (base quiet_api))
                        (config (base quiet_api)) http.Background call))), σ')
       /\ wrote Stdout lines empty_world σ'
       /\ Forall (fun s => HasPrefix s "ERROR: ") lines
       /\ length lines
          = error_count env call
              (exchange env (sent empty_world)
                 (request_of (baseURL (base quiet_api))
                    (config (base quiet_api)) http.Background call)).
Proof.
  intros env call. split; [split; reflexivity|].
  exact (X12_debug_off_logs_errors_only env http.Background call empty_world
           quiet_api (mkLogger false None Stdout) eq_refl eq_refl).
Defined.

(** ** Blanks around the body *)

Lemma isSpace_cases c :
  json.isSpace c = true ->
  c = " "%char \/ c = "009"%char \/ c = "013"%char \/ c = "010"%char.
Proof.
  unfold json.isSpace. intros H.
  repeat (apply orb_prop in H as [H|H]); apply Ascii.eqb_eq in H; auto.
Qed.

Lemma endTop_inv s v :
  json.endTop s = Some v -> s = json.mkScanner json.stateEndValue [] (Some v).
Proof.
  destruct s as [st ps top]. unfold json.endTop. cbn.
  destruct st; try discriminate. destruct ps; [|discriminate].
  intros ->. reflexivity.
Qed.

Lemma complete_literal v ps : literal_pending (json.step (json.complete v ps)).
Proof.
  destruct ps as [|[d k|d [k|]|d] r]; try exact I. destruct v; exact I.
Qed.

Lemma do_stateEndValue_literal s c s' :
  literal_pending (json.step s) ->
  json.do_stateEndValue s c = inl s' -> literal_pending (json.step s').
Proof.
  intros Hlit. unfold json.do_stateEndValue.
  repeat case_match; intros [= <-]; try exact I; try exact Hlit;
    apply complete_literal.
Qed.

Lemma end_number_literal acc ps c s' :
  json.end_number acc ps c = inl s' -> literal_pending (json.step s').
Proof.
  unfold json.end_number. apply do_stateEndValue_literal, complete_literal.
Qed.

Lemma do_stateBeginValue_literal ps c s' :
  json.do_stateBeginValue ps c = inl s' -> literal_pending (json.step s').
Proof.
  unfold json.do_stateBeginValue, json.push.
  repeat case_match; intros [= <-]; try exact I;
    (split; [reflexivity|discriminate]).
Qed.

Lemma do_stateBeginString_literal ps c s' :
  json.do_stateBeginString ps c = inl s' -> literal_pending (json.step s').
Proof.
  unfold json.do_stateBeginString. repeat case_match; intros [= <-]; exact I.
Qed.

Lemma do_state0_literal acc ps c s' :
  json.do_state0 acc ps c = inl s' -> literal_pending (json.step s').
Proof.
  unfold json.do_state0.
  repeat case_match; try (intros [= <-]; exact I). apply end_number_literal.
Qed.

Lemma do_step_literal s c s' :
  json.do_step s c = inl s' ->
  literal_pending (json.step s) -> literal_pending (json.step s').
Proof.
  destruct s as [st ps top]. intros Hstep Hlit. revert Hstep.
  unfold json.do_step. cbn [json.step json.parseState].
  destruct st; cbn [json.step literal_pending] in Hlit.
  all: try (repeat case_match; subst;
            first [ intros [= <-]; first [exact I | exact Hlit | apply complete_literal]
                  | apply do_stateBeginValue_literal
                  | apply do_stateBeginString_literal
                  | apply do_state0_literal
                  | apply end_number_literal
                  | apply do_stateEndValue_literal; exact I
                  | unfold json.do_stateESign; repeat case_match;
                    intros [= <-]; exact I ]; fail).
  (* a literal *)
  destruct Hlit as [Hl Hne]. destruct rest as [|e rest]; [congruence|].
  cbn [string_forallb] in Hl. apply andb_prop in Hl as [He Hl].
  destruct rest as [|e' rest].
  - case_match; intros [= <-]. apply complete_literal.
  - case_match; intros [= <-]. split; [exact Hl|discriminate].
Qed.

Lemma run_literal data :
  forall s s',
    json.run s data = inl s' ->
    literal_pending (json.step s) -> literal_pending (json.step s').
Proof.
  induction data as [|c data IH]; intros s s'; cbn [json.run].
  - intros [= <-]. auto.
  - destruct (json.do_step s c) as [s1|] eqn:Hstep; [|discriminate].
    intros Hrun Hlit. eapply IH; [exact Hrun|].
    eapply do_step_literal; eassumption.
Qed.

Lemma lower_not_blank e c :
  is_lower e = true -> json.isSpace c = true -> Ascii.eqb c e = false.
Proof.
  intros He Hc. apply Ascii.eqb_neq. intros <-.
  apply isSpace_cases in Hc as [-> | [-> | [-> | ->]]]; discriminate.
Qed.

Lemma step_blank s s1 v c :
  literal_pending (json.step s) ->
  json.endTop s = None ->
  json.do_step s " " = inl s1 -> json.endTop s1 = Some v ->
  json.isSpace c = true ->
  json.do_step s c = inl s1.
Proof.
  intros Hlit Htop Hstep Htop1 Hc. apply endTop_inv in Htop1 as ->.
  destruct s as [st ps top].
  destruct st; cbn [json.step literal_pending] in Hlit.
  17:{ destruct Hlit as [Hl Hne]. destruct rest as [|e rest]; [congruence|].
       cbn [string_forallb] in Hl. apply andb_prop in Hl as [He _].
       revert Hstep. unfold json.do_step. cbn [json.step json.parseState].
       rewrite (lower_not_blank e " " He eq_refl).
       destruct rest; discriminate. }
  all: apply isSpace_cases in Hc as [-> | [-> | [-> | ->]]]; [exact Hstep|..];
    destruct ps as [|[done key|done [key|]|done] ps];
    cbn in Hstep |- *; try discriminate; try exact Hstep.
Qed.

Lemma eof_after_blank s v c :
  literal_pending (json.step s) ->
  json.eof s = inl v -> json.isSpace c = true ->
  exists s', json.do_step s c = inl s' /\ json.eof s' = inl v.
Proof.
  intros Hlit Heof Hc. unfold json.eof in Heof.
  destruct (json.endTop s) as [v'|] eqn:Htop.
  - injection Heof as ->. pose proof (endTop_inv _ _ Htop) as ->.
    eexists. split; [|unfold json.eof; rewrite Htop; reflexivity].
    cbn. rewrite Hc. reflexivity.
  - destruct (json.do_step s " ") as [s1|] eqn:Hstep; [|discriminate].
    destruct (json.endTop s1) as [v'|] eqn:Htop1; [|discriminate].
    injection Heof as ->. exists s1.
    split; [eapply step_blank; eassumption|].
    unfold json.eof. rewrite Htop1. reflexivity.
Qed.

Lemma run_then_blanks ws :
  forall s v,
    literal_pending (json.step s) ->
    json.eof s = inl v -> string_forallb json.isSpace ws = true ->
    exists s', json.run s ws = inl s' /\ json.eof s' = inl v.
Proof.
  induction ws as [|c ws IH]; intros s v Hlit Heof Hws.
  - exists s. auto.
  - cbn [string_forallb] in Hws. apply andb_prop in Hws as [Hc Hws].
    destruct (eof_after_blank s v c Hlit Heof Hc) as (s1 & Hstep & Heof1).
    cbn [json.run]. rewrite Hstep. apply IH; try assumption.
    eapply do_step_literal; eassumption.
Qed.

Lemma checkValid_padded ws data ws' v :
  string_forallb json.isSpace ws = true ->
  string_forallb json.isSpace ws' = true ->
  json.checkValid data = inl v ->
  json.checkValid (ws +:+ data +:+ ws') = inl v.
Proof.
  intros Hws Hws'. unfold json.checkValid.
  rewrite run_app, (run_blank _ [] ws eq_refl Hws), run_app.
  destruct (json.run _ data) as [s|e] eqn:Hrun; [|discriminate]. intros Heof.
  pose proof (run_literal _ _ _ Hrun I) as Hlit.
  destruct (run_then_blanks ws' s v Hlit Heof Hws') as (s' & Hrun' & Heof').
  rewrite Hrun'. exact Heof'.
Qed.

Lemma Unmarshal_Subscription_padded env ws body ws' s :
  string_forallb json.isSpace ws = true ->
  string_forallb json.isSpace ws' = true ->
  Unmarshal_Subscription env body = inl s ->
  Unmarshal_Subscription env (ws +:+ body +:+ ws') = inl s.
Proof.
  intros Hws Hws'. unfold Unmarshal_Subscription, decode.Unmarshal_struct.
  destruct (json.checkValid body) as [v|e] eqn:Hv; [|discriminate].
  rewrite (checkValid_padded ws body ws' v Hws Hws' Hv). auto.
Qed.

Lemma Unmarshal_Subscriptions_padded env ws body ws' l :
  string_forallb json.isSpace ws = true ->
  string_forallb json.isSpace ws' = true ->
  Unmarshal_Subscriptions env body = inl l ->
  Unmarshal_Subscriptions env (ws +:+ body +:+ ws') = inl l.
Proof.
  intros Hws Hws'. unfold Unmarshal_Subscriptions, decode.Unmarshal_slice.
  destruct (json.checkValid body) as [v|e] eqn:Hv; [|discriminate].
  rewrite (checkValid_padded ws body ws' v Hws Hws' Hv). auto.
Qed.

Lemma call_result_padded env call resp ws body ws' :
  string_forallb json.isSpace ws = true ->
  string_forallb json.isSpace ws' = true ->
  snd (call_result env call (Answered resp body)) = None ->
  call_result env call (Answered resp (ws +:+ body +:+ ws'))
  = call_result env call (Answered resp body).
Proof.
  intros Hws Hws'. unfold call_result, sendRequest_result.
  destruct (400 <=? http.StatusCode resp); [destruct call; discriminate|].
  cbn [default from_option]. unfold Datatypes.id.
  destruct call.
  - destruct (Unmarshal_Subscription env body) as [s|e] eqn:Hu; [|discriminate].
    rewrite (Unmarshal_Subscription_padded env ws body ws' s Hws Hws' Hu).
    reflexivity.
  - destruct (Unmarshal_Subscriptions env body) as [l|e] eqn:Hu; [|discriminate].
    rewrite (Unmarshal_Subscriptions_padded env ws body ws' l Hws Hws' Hu).
    reflexivity.
  - destruct (Unmarshal_Subscriptions env body) as [l|e] eqn:Hu; [|discriminate].
    rewrite (Unmarshal_Subscriptions_padded env ws body ws' l Hws Hws' Hu).
    reflexivity.
Qed.

(** X13. Blanks, tabs and line ends before and after the body change
    nothing: when an operation succeeds on a response with the body
    [body], it returns the same on the response whose body is [body]
    between two runs of such bytes, for example with a line end after
    it. *)
Theorem X13_blanks_around_the_body (env : Env) (ctx : http.Context)
    (call : Call) (σ : World) (resp : http.Response) (ws body ws' : string)
    (Hws : string_forallb json.isSpace ws = true)
    (Hws' : string_forallb json.isSpace ws' = true)
    (Hok : snd (call_result env call (Answered resp body)) = None) :
  (forall (c : APIClient) (l : Logger),
      logger c = Some l ->
      exchange env (sent σ)
        (request_of (baseURL (base c)) (config (base c)) ctx call)
      = Answered resp (ws +:+ body +:+ ws') ->
      (APIClient_call env c ctx call σ).1
      = Some (call_result env call (Answered resp body)))
  /\ (forall c : BaseClient,
        exchange env (sent σ) (request_of (baseURL c) (config c) ctx call)
        = Answered resp (ws +:+ body +:+ ws') ->
        (BaseClient_call env c ctx call σ).1
        = Some (call_result env call (Answered resp body))).
Proof.
  split.
  - intros c l Hl Hx. rewrite (APIClient_call_returns env c l ctx call σ Hl), Hx.
    f_equal. apply call_result_padded; assumption.
  - intros c Hx. rewrite (BaseClient_call_returns env c ctx call σ), Hx.
    f_equal. apply call_result_padded; assumption.
Qed.

Lemma X13_witness :
  (BaseClient_call
     (env_answering
        (respond "200 OK" 200
           (encode.newline +:+ js "{'id':'S1'}" +:+ (" " +:+ encode.newline))))
     sample_base http.Background (CallGetSubscription "S1" "true") empty_world).1
  = Some (One (Some (set_ID "S1" Subscription_zero)), None).
Proof.
  exact (proj2 (X13_blanks_around_the_body
                  (env_answering
                     (respond "200 OK" 200
                        (encode.newline +:+ js "{'id':'S1'}"
                         +:+ (" " +:+ encode.newline))))
                  http.Background (CallGetSubscription "S1" "true") empty_world
                  (http.mkHTTPResponse "200 OK" 200
                     {[ "Content-Type" := [ "application/json" ] ]}
                     (http.mkBody
                        (encode.newline +:+ js "{'id':'S1'}"
                         +:+ (" " +:+ encode.newline)) None))
                  encode.newline (js "{'id':'S1'}") (" " +:+ encode.newline)
                  eq_refl eq_refl eq_refl)
           sample_base eq_refl).
Defined.

(** ** The body of a Cleverbridge response *)

(** X16. [CleverbridgeDoRequest] reads the body of a response only when
    its status is 400 or more. Below 400 the response comes back as the
    transport gave it, with a nil error, whether or not its body can be
    read. At 400 or more, when the body cannot be read, the result is nil
    with an error that names the status line alone: the read error is not
    wrapped in it. *)
Theorem X16_Cleverbridge_reads_error_bodies_only
    (Debug_lines : Logger -> string -> list any -> list string)
    (env : Env) (c : CleverbridgeClient) (l : Logger) (ctx : http.Context)
    (method path : string) (q : gmap string string)
    (body : option Marshalable) (reqBody : option string)
    (req0 : http.Request) (resp : http.Response) (σ : World)
    (Hlogger : cb_logger c = Some l)
    (Hbody : marshalled body = Some reqBody)
    (Hreq : NewRequestWithContext env ctx method
              (fullURL_of (cb_baseURL c) path q) reqBody = inl req0)
    (HDo : client_Do env (sent σ) (with_basic_auth (cb_config c) req0)
           = inl resp) :
  let run := CleverbridgeDoRequest Debug_lines env c ctx method path q body σ in
  (http.StatusCode resp < 400 -> run.1 = Some (Some resp, None))
  /\ (400 <= http.StatusCode resp ->
      forall b err,
        io_ReadAll (http.Body resp) = (b, Some err) ->
        exists e,
          run.1 = Some (None, Some e)
          /\ Error_ e = "request failed with status: " +:+ http.Status resp
          /\ Unwrap e = None).
Proof.
  intros run. subst run.
  assert (Hok : is_Some (cb_logger c)) by (rewrite Hlogger; eauto).
  split.
  - intros Hcode. apply Z.leb_gt in Hcode.
    match goal with
    | |- (?m σ).1 = ?r => enough (H : wp m (fun r' _ => r' = r) σ) by exact H
    end.
    unfold CleverbridgeDoRequest, marshalled, with_basic_auth in *.
    destruct body as [mb|];
      [destruct (marshal mb); [|discriminate]|];
      injection Hbody as <-; cbv zeta; rewrite Hreq, Hlogger;
      (wp_step; wp_step; wp_step; wp_step; rewrite (Hret I);
       wp_step; wp_step; cbn [sent]; rewrite Hsent, HDo, Hcode;
       wp_ok Hok; reflexivity).
  - intros Hcode b err Hread. apply Z.leb_le in Hcode.
    exists (errorString ("request failed with status: " +:+ http.Status resp)).
    split; [|split; reflexivity].
    match goal with
    | |- (?m σ).1 = ?r => enough (H : wp m (fun r' _ => r' = r) σ) by exact H
    end.
    unfold CleverbridgeDoRequest, marshalled, with_basic_auth in *.
    destruct body as [mb|];
      [destruct (marshal mb); [|discriminate]|];
      injection Hbody as <-; cbv zeta; rewrite Hreq, Hlogger;
      (wp_step; wp_step; wp_step; wp_step; rewrite (Hret I);
       wp_step; wp_step; cbn [sent]; rewrite Hsent, HDo, Hcode, Hread;
       wp_ok Hok; reflexivity).
Qed.

Lemma X16_witness :
  let resp := http.mkHTTPResponse "200 OK" 200 ∅
                (http.mkBody "{" (Some (externalError "unexpected EOF"))) in
  (cb_logger sample_cb = Some (mkLogger false None Stdout)
   /\ marshalled None = Some None)
  /\ (CleverbridgeDoRequest sample_Debug (env_answering (inl resp)) sample_cb
        http.Background "GET" "/subscription/getsubscription" ∅ None
        empty_world).1
     = Some (Some resp, None).
Proof.
  intros resp. split; [split; reflexivity|].
  refine (proj1 (X16_Cleverbridge_reads_error_bodies_only sample_Debug
                   (env_answering (inl resp)) sample_cb
                   (mkLogger false None Stdout) http.Background
                   "GET" "/subscription/getsubscription" ∅ None None
                   (http.mkRequest "GET"
                      "https://rest.cleverbridge.com/subscription/getsubscription"
                      ∅ None http.Background)
                   resp empty_world eq_refl eq_refl eq_refl eq_refl) _).
  simpl. lia.
Defined.

(** ** The JSON block of the logger *)

Lemma ascii_compare_spec x y :
  match Ascii.compare x y with
  | Eq => x = y
  | Lt => (N_of_ascii x < N_of_ascii y)%N
  | Gt => (N_of_ascii y < N_of_ascii x)%N
  end.
Proof.
  unfold Ascii.compare. destruct (N.compare_spec (N_of_ascii x) (N_of_ascii y)) as [H|H|H];
    try assumption.
  rewrite <- (ascii_N_embedding x), <- (ascii_N_embedding y). congruence.
Qed.

Lemma leb_trans a : forall b c, leb_rel a b -> leb_rel b c -> leb_rel a c.
Proof.
  unfold leb_rel, String.leb.
  induction a as [|x a IH]; intros [|y b] [|z c]; cbn [String.compare];
    try reflexivity; try discriminate.
  pose proof (ascii_compare_spec x y) as Hxy.
  pose proof (ascii_compare_spec y z) as Hyz.
  pose proof (ascii_compare_spec x z) as Hxz.
  destruct (Ascii.compare x y), (Ascii.compare y z); try discriminate;
    destruct (Ascii.compare x z); subst; try reflexivity; try lia;
    try (intros; eapply IH; eassumption).
Qed.

Lemma leb_rel_total a b : leb_rel a b \/ leb_rel b a.
Proof. apply String.leb_total. Qed.

Lemma insert_sorted_perm k l : url.insert_sorted k l ≡ₚ k :: l.
Proof.
  induction l as [|x l IH]; cbn [url.insert_sorted]; [reflexivity|].
  destruct (String.leb k x); [reflexivity|].
  rewrite IH. apply perm_swap.
Qed.

Lemma insert_sorted_sorted k l :
  StronglySorted leb_rel l -> StronglySorted leb_rel (url.insert_sorted k l).
Proof.
  induction 1 as [|x l Hl IH Hx]; cbn [url.insert_sorted].
  - repeat constructor.
  - destruct (String.leb k x) eqn:Hk.
    + constructor; [constructor; assumption|].
      constructor; [exact Hk|].
      eapply Forall_impl; [exact Hx|]. intros y Hy.
      eapply leb_trans; [exact Hk|exact Hy].
    + constructor; [exact IH|].
      rewrite insert_sorted_perm. constructor; [|exact Hx].
      destruct (leb_rel_total k x) as [H|H]; [unfold leb_rel in H; congruence|].
      exact H.
Qed.

Lemma sort_keys_perm l : url.sort_keys l ≡ₚ l.
Proof.
  induction l as [|k l IH]; [reflexivity|].
  cbn [url.sort_keys foldr]. rewrite insert_sorted_perm.
  constructor. exact IH.
Qed.

Lemma sort_keys_sorted l : StronglySorted leb_rel (url.sort_keys l).
Proof.
  induction l as [|k l IH]; [constructor|].
  cbn [url.sort_keys foldr]. apply insert_sorted_sorted, IH.
Qed.

Lemma sort_keys_unique l l' : l ≡ₚ l' -> url.sort_keys l = url.sort_keys l'.
Proof.
  intros Hp.
  apply (StronglySorted_unique_strong leb_rel);
    [|apply sort_keys_sorted..|].
  - intros x y _ _ Hxy Hyx. apply String.leb_antisym; assumption.
  - rewrite !sort_keys_perm. exact Hp.
Qed.

Lemma unique_key {V} (m : list (string * V)) k b b' :
  NoDup (map fst m) -> (k, b) ∈ m -> (k, b') ∈ m -> b = b'.
Proof.
  induction m as [|[k0 b0] m IH]; intros Hnd Hin Hin'; [inversion Hin|].
  cbn [map fst] in Hnd. apply NoDup_cons in Hnd as [Hk0 Hnd].
  assert (Hfresh : forall x, (k0, x) ∈ m -> False).
  { intros x Hx. apply Hk0. apply list_elem_of_fmap. exists (k0, x). auto. }
  apply elem_of_cons in Hin as [[= -> ->]|Hin];
    apply elem_of_cons in Hin' as [[= <-]|Hin']; try reflexivity.
  - exfalso. eauto.
  - subst. exfalso. eauto.
  - auto.
Qed.

Lemma find_by_key {V} (m : list (string * V)) k b :
  NoDup (map fst m) ->
  (k, b) ∈ m ->
  exists i, list_find (fun kv => String.eqb (fst kv) k) m = Some (i, (k, b)).
Proof.
  intros Hnd Hin.
  destruct (list_find (fun kv => String.eqb (fst kv) k) m) as [[i [k' b']]|] eqn:Hf.
  - apply list_find_Some in Hf as (Hi & Hk & _). cbn in Hk.
    apply Is_true_true, String.eqb_eq in Hk. subst k'.
    apply list_elem_of_lookup_2 in Hi.
    rewrite (unique_key m k b b' Hnd Hin Hi). eauto.
  - exfalso. apply list_find_None in Hf.
    apply (proj1 (Forall_forall _ _) Hf _ Hin). cbn.
    rewrite String.eqb_refl. exact I.
Qed.

Lemma find_missing_key {V} (m : list (string * V)) k :
  (forall b, (k, b) ∉ m) ->
  list_find (fun kv => String.eqb (fst kv) k) m = None.
Proof.
  intros Hno. apply list_find_None, Forall_forall. intros [k' b] Hin Hk.
  cbn in Hk. apply Is_true_true, String.eqb_eq in Hk. subst k'.
  exact (Hno b Hin).
Qed.

(** The encoding of the value under a key, as [MarshalIndent_map] looks
    it up. *)
Lemma member_value_perm (m m' : list (string * jvalue)) k :
  NoDup (map fst m) -> m ≡ₚ m' ->
  match list_find (fun kv => String.eqb (fst kv) k) m with
  | Some (_, (_, v)) => encode.marshal_value v
  | None => inl "null"
  end
  = match list_find (fun kv => String.eqb (fst kv) k) m' with
    | Some (_, (_, v)) => encode.marshal_value v
    | None => inl "null"
    end.
Proof.
  intros Hnd Hp.
  assert (Hnd' : NoDup (map fst m')) by (rewrite <- Hp; exact Hnd).
  destruct (list_find (fun kv => String.eqb (fst kv) k) m) as [[i [k' b]]|] eqn:Hf.
  - apply list_find_Some in Hf as (Hi & Hk & _). cbn in Hk.
    apply Is_true_true, String.eqb_eq in Hk. subst k'.
    apply list_elem_of_lookup_2 in Hi. rewrite Hp in Hi.
    destruct (find_by_key m' k b Hnd' Hi) as [j ->]. reflexivity.
  - rewrite find_missing_key; [reflexivity|].
    intros b Hin. rewrite <- Hp in Hin.
    apply list_find_None in Hf.
    apply (proj1 (Forall_forall _ _) Hf _ Hin). cbn.
    rewrite String.eqb_refl. exact I.
Qed.

Lemma MarshalIndent_map_perm (m m' : list (string * jvalue)) :
  NoDup (map fst m) -> m ≡ₚ m' ->
  encode.MarshalIndent_map m = encode.MarshalIndent_map m'.
Proof.
  intros Hnd Hp. unfold encode.MarshalIndent_map.
  rewrite (sort_keys_unique (map fst m) (map fst m'))
    by (apply fmap_Permutation, Hp).
  erewrite map_ext; [reflexivity|]. intros k. cbv beta.
  rewrite (member_value_perm m m' k Hnd Hp). reflexivity.
Qed.

(** The members are written when every value can be encoded. *)
Lemma indented_all (m : list (string * jvalue)) keys :
  NoDup (map fst m) ->
  Forall (fun k => exists v text,
              (k, v) ∈ m /\ encode.marshal_value v = inl text) keys ->
  exists ms,
    encode.indented
      (map (fun k =>
              (k, match list_find (fun kv => String.eqb (fst kv) k) m with
                  | Some (_, (_, v)) => encode.marshal_value v
                  | None => inl "null"
                  end)) keys) = inl ms
    /\ Forall2 (fun k line =>
                  exists v text,
                    (k, v) ∈ m /\ encode.marshal_value v = inl text
                    /\ line = "  " +:+ encode.quote k +:+ ": " +:+ text) keys ms.
Proof.
  intros Hnd. induction 1 as [|k keys (v & text & Hin & Hv) _ (ms & Hms & Hall)].
  - exists []. split; [reflexivity|constructor].
  - destruct (find_by_key m k v Hnd Hin) as [i Hf].
    exists (("  " +:+ encode.quote k +:+ ": " +:+ text) :: ms).
    cbn [map encode.indented]. rewrite Hf, Hv, Hms.
    split; [reflexivity|]. constructor; [eauto|exact Hall].
Qed.

(** The first value, in the order of the keys, that cannot be encoded
    gives the error. *)
Lemma indented_first_error (m : list (string * jvalue)) pre k post v err :
  NoDup (map fst m) ->
  Forall (fun k' => exists v' text,
              (k', v') ∈ m /\ encode.marshal_value v' = inl text) pre ->
  (k, v) ∈ m -> encode.marshal_value v = inr err ->
  encode.indented
    (map (fun k =>
            (k, match list_find (fun kv => String.eqb (fst kv) k) m with
                | Some (_, (_, v)) => encode.marshal_value v
                | None => inl "null"
                end)) (pre ++ k :: post)) = inr err.
Proof.
  intros Hnd Hpre Hin Hv.
  induction Hpre as [|k' pre (v' & text & Hin' & Hv') _ IH].
  - destruct (find_by_key m k v Hnd Hin) as [i Hf].
    cbn [app map encode.indented]. rewrite Hf, Hv. reflexivity.
  - destruct (find_by_key m k' v' Hnd Hin') as [i Hf].
    cbn [app map encode.indented]. rewrite Hf, Hv'.
    change (map _ (pre ++ k :: post)) with
      (map (fun k =>
            (k, match list_find (fun kv => String.eqb (fst kv) k) m with
                | Some (_, (_, v)) => encode.marshal_value v
                | None => inl "null"
                end)) (pre ++ k :: post)) in IH |- *.
    rewrite IH. reflexivity.
Qed.

Lemma sorted_split (l : list string) k :
  StronglySorted leb_rel l -> NoDup l -> k ∈ l ->
  exists pre post,
    l = pre ++ k :: post
    /\ Forall (fun k' => String.leb k' k = true /\ k' <> k) pre.
Proof.
  induction 1 as [|x l Hl IH Hx]; intros Hnd Hin; [inversion Hin|].
  apply NoDup_cons in Hnd as [Hxl Hnd].
  apply elem_of_cons in Hin as [->|Hin].
  - exists [], l. split; [reflexivity|constructor].
  - destruct (IH Hnd Hin) as (pre & post & -> & Hpre).
    exists (x :: pre), post. split; [reflexivity|].
    constructor; [|exact Hpre]. split.
    + exact (proj1 (Forall_forall _ _) Hx k Hin).
    + intros ->. contradiction.
Qed.

(** X14. [Logger.Json] writes nothing when the debug flag is off. When
    it is on it writes either one block or one error line, never both.
    When every value of the map can be encoded, it writes the block: the
    words [JSON LOG:] on a line and then the map, one member on a line,
    the keys in sorted order. When some value cannot be encoded (a NaN or
    an infinity, or a value of a type that has no JSON form), it writes
    the one line [ERROR: JSON marshaling failed - ] with the error of the
    failing value whose key comes first. What is written does not depend
    on the order in which the entries of the map come. *)
Theorem X14_Json_block_is_sorted (l : Logger)
    (data data' : list (string * jvalue)) (σ : World)
    (Hkeys : NoDup (map fst data)) (Hperm : data ≡ₚ data') :
  Logger_Json l data' σ = Logger_Json l data σ
  /\ (debug l = false -> Logger_Json l data σ = (Some tt, σ))
  /\ (debug l = true ->
      Forall (fun kv => exists text, encode.marshal_value kv.2 = inl text)
        data ->
      exists keys ms,
        keys ≡ₚ map fst data /\ StronglySorted leb_rel keys
        /\ Forall2 (fun k line =>
                      exists v text,
                        (k, v) ∈ data /\ encode.marshal_value v = inl text
                        /\ line = "  " +:+ encode.quote k +:+ ": " +:+ text)
             keys ms
        /\ Logger_Json l data σ
           = write (writer l)
               ("JSON LOG:" +:+ encode.newline
                +:+ match ms with
                    | [] => "{}"
                    | _ => "{" +:+ encode.newline
                           +:+ join ("," +:+ encode.newline) ms
                           +:+ encode.newline +:+ "}"
                    end +:+ encode.newline) σ)
  /\ (debug l = true ->
      forall k v err,
        (k, v) ∈ data -> encode.marshal_value v = inr err ->
        (forall k' v',
            (k', v') ∈ data -> String.leb k' k = true -> k' <> k ->
            exists text, encode.marshal_value v' = inl text) ->
        Logger_Json l data σ
        = write (writer l)
            ("ERROR: JSON marshaling failed - " +:+ Error_ err
             +:+ encode.newline) σ).
Proof.
  split; [|split; [|split]].
  - unfold Logger_Json.
    rewrite (MarshalIndent_map_perm data data' Hkeys Hperm). reflexivity.
  - intros Hd. unfold Logger_Json. rewrite Hd. reflexivity.
  - intros Hd Hall. exists (url.sort_keys (map fst data)).
    destruct (indented_all data (url.sort_keys (map fst data)) Hkeys)
      as (ms & Hms & Hlines).
    { apply Forall_forall. intros k Hk. rewrite sort_keys_perm in Hk.
      apply list_elem_of_fmap in Hk as ([k0 v] & -> & Hin).
      destruct (proj1 (Forall_forall _ _) Hall _ Hin) as [text Ht].
      exists v, text. auto. }
    exists ms. split; [apply sort_keys_perm|].
    split; [apply sort_keys_sorted|]. split; [exact Hlines|].
    unfold Logger_Json, encode.MarshalIndent_map. rewrite Hd, Hms.
    destruct ms; reflexivity.
  - intros Hd k v err Hin Hv Hbefore.
    assert (Hk : k ∈ url.sort_keys (map fst data)).
    { rewrite sort_keys_perm. apply list_elem_of_fmap. exists (k, v). auto. }
    destruct (sorted_split _ k (sort_keys_sorted (map fst data))) as
      (pre & post & Hsplit & Hpre); [|exact Hk|].
    { rewrite sort_keys_perm. exact Hkeys. }
    assert (Hall : Forall (fun k' => exists v' text,
                             (k', v') ∈ data
                             /\ encode.marshal_value v' = inl text) pre).
    { apply Forall_forall. intros k' Hk'.
      destruct (proj1 (Forall_forall _ _) Hpre k' Hk') as [Hle Hne].
      assert (Hin' : k' ∈ map fst data).
      { rewrite <- sort_keys_perm, Hsplit. apply elem_of_app. auto. }
      apply list_elem_of_fmap in Hin' as ([k0 v'] & -> & Hin').
      destruct (Hbefore k0 v' Hin' Hle Hne) as [text Ht].
      exists v', text. auto. }
    unfold Logger_Json, encode.MarshalIndent_map. rewrite Hd, Hsplit.
    rewrite (indented_first_error data pre k post v err Hkeys Hall Hin Hv).
    cbv iota. rewrite Error_run. reflexivity.
Qed.

Lemma X14_witness :
  let l := mkLogger true None Stdout in
  Logger_Json l
    [("ratio", JFloat64 S754_nan); ("method", JString "GET")] empty_world
  = Logger_Json l
      [("method", JString "GET"); ("ratio", JFloat64 S754_nan)] empty_world
  /\ Logger_Json l
       [("method", JString "GET"); ("ratio", JFloat64 S754_nan)] empty_world
     = write Stdout
         ("ERROR: JSON marshaling failed - json: unsupported value: NaN"
          +:+ encode.newline) empty_world.
Proof.
  intros l.
  destruct (X14_Json_block_is_sorted l
              [("method", JString "GET"); ("ratio", JFloat64 S754_nan)]
              [("ratio", JFloat64 S754_nan); ("method", JString "GET")]
              empty_world) as (Hsame & _ & _ & Herr).
  - apply (bool_decide_unpack _). vm_compute. exact I.
  - apply perm_swap.
  - split; [exact Hsame|].
    apply (Herr eq_refl "ratio" (JFloat64 S754_nan)
             (errorString "json: unsupported value: NaN")).
    + apply elem_of_cons. right. apply elem_of_cons. left. reflexivity.
    + reflexivity.
    + intros k' v' Hin _ Hne.
      apply elem_of_cons in Hin as [[= -> ->]|Hin]; [eexists; reflexivity|].
      apply elem_of_cons in Hin as [[= -> ->]|Hin]; [contradiction|].
      inversion Hin.
Defined.

(** ** [BaseClient.SendRequest] on any request *)

Lemma range_Set_fields req entries :
  http.Method (range_Set req entries) = http.Method req
  /\ http.URL (range_Set req entries) = http.URL req
  /\ http.ReqBody (range_Set req entries) = http.ReqBody req
  /\ http.Ctx (range_Set req entries) = http.Ctx req.
Proof.
  unfold range_Set. revert req.
  induction entries as [|kv entries IH]; intros req; [auto|].
  cbn [fold_left]. destruct (IH (http.SetHeader req kv.1 kv.2)) as (-> & -> & -> & ->).
  auto.
Qed.

(** A name that no entry canonicalises to keeps what it had. *)
Lemma range_Set_other req entries k' :
  (forall kv, kv ∈ entries -> http.CanonicalHeaderKey kv.1 <> k') ->
  http.ReqHeader (range_Set req entries) !! k' = http.ReqHeader req !! k'.
Proof.
  unfold range_Set. revert req.
  induction entries as [|kv entries IH]; intros req Hno; [reflexivity|].
  cbn [fold_left]. rewrite IH.
  - cbn [http.SetHeader http.ReqHeader]. unfold http.Set_.
    apply lookup_insert_ne. apply Hno. apply elem_of_cons. auto.
  - intros kv' Hin. apply Hno. apply elem_of_cons. auto.
Qed.

(** With names that stay distinct when canonicalised, every entry is
    there under its canonical name with its one value. *)
Lemma range_Set_entry req entries k v :
  NoDup (map (fun kv => http.CanonicalHeaderKey kv.1) entries) ->
  (k, v) ∈ entries ->
  http.ReqHeader (range_Set req entries) !! http.CanonicalHeaderKey k
  = Some [v].
Proof.
  unfold range_Set. revert req.
  induction entries as [|kv entries IH]; intros req Hnd Hin; [inversion Hin|].
  cbn [map] in Hnd. apply NoDup_cons in Hnd as [Hfresh Hnd].
  cbn [fold_left]. apply elem_of_cons in Hin as [<-|Hin].
  - change (fold_left _ entries ?r) with (range_Set r entries).
    rewrite range_Set_other.
    + cbn [http.SetHeader http.ReqHeader fst snd]. unfold http.Set_.
      apply lookup_insert_eq.
    + intros kv' Hin' Heq. apply Hfresh. cbn [fst].
      rewrite <- Heq. apply list_elem_of_fmap. exists kv'. auto.
  - apply IH; assumption.
Qed.

Lemma range_Set_lookup req entries k' vs :
  http.ReqHeader req = ∅ ->
  NoDup (map (fun kv => http.CanonicalHeaderKey kv.1) entries) ->
  http.ReqHeader (range_Set req entries) !! k' = Some vs ->
  exists k v,
    (k, v) ∈ entries /\ k' = http.CanonicalHeaderKey k /\ vs = [v].
Proof.
  intros Hempty Hnd Hl.
  destruct (list_find (fun kv => String.eqb (http.CanonicalHeaderKey kv.1) k')
              entries) as [[i [k v]]|] eqn:Hf.
  - apply list_find_Some in Hf as (Hi & Hk & _). cbn in Hk.
    apply Is_true_true, String.eqb_eq in Hk. subst k'.
    apply list_elem_of_lookup_2 in Hi.
    rewrite (range_Set_entry req entries k v Hnd Hi) in Hl.
    injection Hl as <-. eauto.
  - apply list_find_None in Hf.
    rewrite range_Set_other, Hempty, lookup_empty in Hl; [discriminate|].
    intros kv Hin Heq.
    apply (proj1 (Forall_forall _ _) Hf _ Hin). cbn.
    rewrite Heq, String.eqb_refl. exact I.
Qed.

(** So the order in which the entries are met does not matter. *)
Lemma range_Set_order req entries order :
  NoDup (map (fun kv => http.CanonicalHeaderKey kv.1) entries) ->
  order ≡ₚ entries ->
  range_Set req order = range_Set req entries.
Proof.
  intros Hnd Hp.
  assert (Hnd' : NoDup (map (fun kv => http.CanonicalHeaderKey kv.1) order))
    by (rewrite Hp; exact Hnd).
  destruct (range_Set_fields req order) as (Hm & Hu & Hb & Hc).
  destruct (range_Set_fields req entries) as (Hm' & Hu' & Hb' & Hc').
  destruct (range_Set req order) as [m u h b c] eqn:Ho.
  destruct (range_Set req entries) as [m' u' h' b' c'] eqn:He.
  cbn in *. subst. f_equal.
  apply map_eq. intros k'.
  change h with (http.ReqHeader (http.mkRequest (http.Method req)
                   (http.URL req) h (http.ReqBody req) (http.Ctx req))).
  change h' with (http.ReqHeader (http.mkRequest (http.Method req)
                    (http.URL req) h' (http.ReqBody req) (http.Ctx req))).
  rewrite <- Ho, <- He.
  destruct (list_find (fun kv => String.eqb (http.CanonicalHeaderKey kv.1) k')
              entries) as [[i [k v]]|] eqn:Hf.
  - apply list_find_Some in Hf as (Hi & Hk & _). cbn in Hk.
    apply Is_true_true, String.eqb_eq in Hk. subst k'.
    apply list_elem_of_lookup_2 in Hi.
    rewrite (range_Set_entry req entries k v Hnd Hi).
    apply range_Set_entry; [exact Hnd'|]. rewrite Hp. exact Hi.
  - apply list_find_None in Hf.
    assert (Hno : forall kv, kv ∈ entries -> http.CanonicalHeaderKey kv.1 <> k').
    { intros kv Hin Heq.
      apply (proj1 (Forall_forall _ _) Hf _ Hin). cbn.
      rewrite Heq, String.eqb_refl. exact I. }
    rewrite !range_Set_other; [reflexivity|exact Hno|].
    intros kv Hin. apply Hno. rewrite <- Hp. exact Hin.
Qed.

Lemma SendRequest_not_built env c ctx request reqBody err σ :
  marshalled (Body request) = Some reqBody ->
  NewRequestWithContext env ctx (Method request)
    (fullURL_of (baseURL c) (Path request) (QueryParams request)) reqBody
  = inr err ->
  BaseClient_.SendRequest env c ctx request σ
  = (Some (None, Some (Errorf_w "failed to create request: " err)), σ).
Proof.
  intros Hm Hreq. unfold BaseClient_.SendRequest, marshalled in *.
  destruct (Body request) as [b|];
    [destruct (marshal b); [|discriminate]|];
    injection Hm as <-; cbv zeta; rewrite Hreq; reflexivity.
Qed.

Lemma SendRequest_built env c ctx request reqBody req0 σ :
  marshalled (Body request) = Some reqBody ->
  NewRequestWithContext env ctx (Method request)
    (fullURL_of (baseURL c) (Path request) (QueryParams request)) reqBody
  = inl req0 ->
  sent (BaseClient_.SendRequest env c ctx request σ).2
  = sent σ ++ [range_Set req0 (map_to_list (Headers request))].
Proof.
  intros Hm Hreq. unfold BaseClient_.SendRequest, marshalled in *.
  destruct (Body request) as [b|];
    [destruct (marshal b); [|discriminate]|];
    injection Hm as <-; cbv zeta; rewrite Hreq;
    rewrite bind_run;
    (destruct (Debug (config c)); cbn [when]; unfold Printf, write, modify, ret;
     cbn [mret M_ret]; rewrite bind_run; unfold Do;
     cbn [sent writes stdout stderr files deliver];
     destruct (client_Do env _ _) as [resp|err']; try reflexivity;
     destruct (io_ReadAll (http.Body resp)) as [body [err'|]];
     try reflexivity;
     destruct (400 <=? http.StatusCode resp); reflexivity).
Qed.

(** X15. [SendRequest] is given any request, with a context that is not
    nil, whose header names stay distinct when they are canonicalised.
    When its body cannot be marshalled, or its method is not a token, or
    its URL does not parse, the call returns no response and an error
    that wraps the cause, and the world is as before: nothing is printed
    and nothing is sent. Otherwise exactly one request is handed to the
    transport, after the earlier ones: its method is the one asked for,
    [GET] when none was given; its URL is the base URL followed by the
    path and the encoded query; its body is the marshalled one; and it
    carries each header of the request once, under the canonical form of
    its name, and no other header, in whatever order the headers are
    met. *)
Theorem X15_SendRequest_sends_what_it_can_build (env : Env) (c : BaseClient)
    (ctx : http.Context) (request : Request) (σ : World)
    (Hheaders : NoDup (map (fun kv => http.CanonicalHeaderKey kv.1)
                         (map_to_list (Headers request)))) :
  let fullURL := fullURL_of (baseURL c) (Path request) (QueryParams request) in
  let method := if String.eqb (Method request) "" then "GET"
                else Method request in
  let run := BaseClient_.SendRequest env c ctx request σ in
  (forall b err,
      Body request = Some b -> marshal b = inr err ->
      run = (Some (None,
                   Some (Errorf_w "failed to marshal request body: " err)), σ))
  /\ (forall reqBody,
        marshalled (Body request) = Some reqBody ->
        (http.validMethod method = false \/ url_Parse env fullURL <> None ->
         exists err,
           run = (Some (None, Some (Errorf_w "failed to create request: " err)),
                  σ)
           /\ (http.validMethod method = true ->
               url_Parse env fullURL = Some err))
        /\ (http.validMethod method = true -> url_Parse env fullURL = None ->
            exists req,
              sent run.2 = sent σ ++ [req]
              /\ http.Method req = method /\ http.URL req = fullURL
              /\ http.ReqBody req = reqBody /\ http.Ctx req = ctx
              /\ (forall k v,
                    Headers request !! k = Some v ->
                    http.ReqHeader req !! http.CanonicalHeaderKey k
                    = Some [v])
              /\ (forall k' vs,
                    http.ReqHeader req !! k' = Some vs ->
                    exists k v,
                      Headers request !! k = Some v
                      /\ k' = http.CanonicalHeaderKey k /\ vs = [v])
              /\ (forall order,
                    order ≡ₚ map_to_list (Headers request) ->
                    req = range_Set
                            (http.mkRequest method fullURL ∅ reqBody ctx)
                            order))).
Proof.
  intros fullURL method run. subst run. split.
  - intros b err Hb Hm. unfold BaseClient_.SendRequest.
    rewrite Hb, Hm. reflexivity.
  - intros reqBody Hm. split.
    + intros Hbad.
      destruct (NewRequestWithContext env ctx (Method request) fullURL reqBody)
        as [req0|err] eqn:Hreq.
      * exfalso. revert Hreq. unfold NewRequestWithContext. fold method.
        destruct (http.validMethod method); cbn [negb]; [|discriminate].
        destruct (url_Parse env fullURL); [discriminate|].
        destruct Hbad as [?|?]; [discriminate|contradiction].
      * exists err. split.
        { apply (SendRequest_not_built env c ctx request reqBody err σ Hm Hreq). }
        intros Hvalid. revert Hreq. unfold NewRequestWithContext. fold method.
        rewrite Hvalid. cbn [negb].
        destruct (url_Parse env fullURL); [|discriminate]. congruence.
    + intros Hvalid Hurl.
      assert (Hreq : NewRequestWithContext env ctx (Method request) fullURL
                       reqBody
                     = inl (http.mkRequest method fullURL ∅ reqBody ctx)).
      { unfold NewRequestWithContext. fold method.
        rewrite Hvalid, Hurl. reflexivity. }
      exists (range_Set (http.mkRequest method fullURL ∅ reqBody ctx)
                (map_to_list (Headers request))).
      split; [apply (SendRequest_built env c ctx request reqBody _ σ Hm Hreq)|].
      destruct (range_Set_fields
                  (http.mkRequest method fullURL ∅ reqBody ctx)
                  (map_to_list (Headers request))) as (-> & -> & -> & ->).
      repeat split.
      * intros k v Hk. apply range_Set_entry; [exact Hheaders|].
        apply elem_of_map_to_list. exact Hk.
      * intros k' vs Hl.
        destruct (range_Set_lookup
                    (http.mkRequest method fullURL ∅ reqBody ctx)
                    (map_to_list (Headers request)) k' vs eq_refl Hheaders Hl)
          as (k & v & Hin & Hk & Hv).
        exists k, v. split; [apply elem_of_map_to_list, Hin|auto].
      * intros order Hp. symmetry.
        apply range_Set_order; assumption.
Qed.

Lemma X15_witness :
  let request :=
    mkRequest "" "/subscription/getsubscription"
      {[ "subscriptionId" := "S18577447" ]}
      {[ "accept" := "application/json" ]} None in
  NoDup (map (fun kv => http.CanonicalHeaderKey kv.1)
           (map_to_list (Headers request)))
  /\ exists req,
       sent (BaseClient_.SendRequest env_offline sample_base http.Background
               request empty_world).2 = [req]
       /\ http.Method req = "GET"
       /\ http.ReqHeader req !! "Accept" = Some ["application/json"].
Proof.
  intros request.
  assert (Hnd : NoDup (map (fun kv => http.CanonicalHeaderKey kv.1)
                         (map_to_list (Headers request))))
    by (apply (bool_decide_unpack _); vm_compute; exact I).
  split; [exact Hnd|].
  destruct (proj2 (X15_SendRequest_sends_what_it_can_build env_offline
                     sample_base http.Background request empty_world Hnd)
              None eq_refl) as [_ Hsend].
  destruct (Hsend eq_refl eq_refl) as (req & Hsent & Hmethod & _ & _ & _ & Hh & _).
  exists req. split; [exact Hsent|]. split; [exact Hmethod|].
  apply (Hh "accept" "application/json"). reflexivity.
Defined.
